(** * Hotel booking backend: lock, availability cache, conflict validator, orchestrator

    A shallow embedding of the concurrency-control core of the booking
    service: [RedisLock] (utils/redisLock.ts), the availability cache helpers
    of [RedisConnection] (config/redis.ts), [BookingService] and
    [RoomService.checkRoomAvailability] (services), the request schema
    [createBookingSchema] (validators/booking.ts) and [validateBody]
    (middleware/auth.ts).

    Asynchronous functions are embedded as programs over the operations they
    await or call (a free monad).  A program is given two semantics: [run]
    executes it alone against a model of the Redis keyspace and the Mongo
    collections; [step] executes it one await at a time, so that several calls
    can be interleaved.

    Numbers: dates are milliseconds since the epoch ([Date.getTime]), guest
    counts, prices and amounts are integers.  JavaScript doubles are exact on
    these below 2^53; fractional prices are outside the model. *)

From Stdlib Require Import ZArith QArith Lia Ascii String.
From stdpp Require Import gmap strings list fin_maps pretty.

Open Scope Z_scope.

(** ** Errors and results *)

Inductive Exn :=
| JsError (message : string)    (* [new Error(message)] thrown by the service code *)
| RedisError (message : string) (* a rejected client command *)
| BSONError (message : string). (* [new ObjectId(s)] on a malformed id *)

Inductive result (A : Type) :=
| Ok (a : A)
| Err (e : Exn).
Arguments Ok {A} a.
Arguments Err {A} e.

#[global] Instance Exn_eq_dec : EqDecision Exn.
Proof. solve_decision. Defined.

(** ** Data model (models/Booking.ts, models/Room.ts) *)

Inductive BookingStatus := PENDING | CONFIRMED | CANCELLED | COMPLETED.
Inductive PaymentStatus := PAYMENT_PENDING | PAID | FAILED | REFUNDED.
Inductive RoomCategory := BASIC | PREMIUM | SUITE.

#[global] Instance BookingStatus_eq_dec : EqDecision BookingStatus.
Proof. solve_decision. Defined.
#[global] Instance PaymentStatus_eq_dec : EqDecision PaymentStatus.
Proof. solve_decision. Defined.
#[global] Instance RoomCategory_eq_dec : EqDecision RoomCategory.
Proof. solve_decision. Defined.

(** A Mongo [ObjectId] is its 96-bit value; [toHexString] prints the 24
    lower-case hexadecimal digits, [newObjectId] reads them back. *)
Definition ObjectId := N.

Definition hexChars : list ascii :=
  ["0"; "1"; "2"; "3"; "4"; "5"; "6"; "7"; "8"; "9"; "a"; "b"; "c"; "d"; "e"; "f"]%char.

Definition hexDigit (n : N) : ascii := nth (N.to_nat n) hexChars "f"%char.

Fixpoint hexDigits (len : nat) (n : N) (acc : string) : string :=
  match len with
  | O => acc
  | S len' => hexDigits len' (n / 16)%N (String (hexDigit (n mod 16)%N) acc)
  end.

Definition toHexString (id : ObjectId) : string := hexDigits 24 id "".

Definition hexValue (c : ascii) : option N :=
  let n := N_of_ascii c in
  if ((48 <=? n) && (n <=? 57))%N then Some (n - 48)%N
  else if ((97 <=? n) && (n <=? 102))%N then Some (n - 87)%N
  else if ((65 <=? n) && (n <=? 70))%N then Some (n - 55)%N
  else None.

Fixpoint parseHex (s : string) (acc : N) : option N :=
  match s with
  | EmptyString => Some acc
  | String c s' =>
      match hexValue c with
      | Some d => parseHex s' (acc * 16 + d)%N
      | None => None
      end
  end.

(** [new ObjectId(s)] for a string [s]: the service only ever receives
    24-digit hexadecimal strings ([objectIdSchema], [ObjectId.isValid]); any
    other string makes the constructor throw. *)
Definition newObjectId (s : string) : result ObjectId :=
  if (String.length s =? 24)%nat then
    match parseHex s 0 with
    | Some n => Ok n
    | None => Err (BSONError "input must be a 24 character hex string")
    end
  else Err (BSONError "input must be a 24 character hex string").

(** [IRoom], restricted to the fields the modelled functions read:
    [dimensions.maxOccupancy] and [pricing.basePrice] are flattened. *)
Record IRoom := {
  r_id : ObjectId;
  roomNumber : string;
  category : RoomCategory;
  isActive : bool;
  maxOccupancy : Z;
  basePrice : Z;
}.

Record IBooking := {
  b_id : ObjectId;
  userId : ObjectId;
  roomId : ObjectId;
  checkInDate : Z;
  checkOutDate : Z;
  numberOfGuests : Z;
  totalAmount : Z;
  status : BookingStatus;
  paymentStatus : PaymentStatus;
  specialRequests : option string;
  createdAt : Z;
  updatedAt : Z;
}.

(** [ICreateBooking] as it reaches the service: [req.body] after the schema,
    where [roomId] is still the request's string. *)
Record ICreateBooking := {
  c_roomId : string;
  c_checkInDate : Z;
  c_checkOutDate : Z;
  c_numberOfGuests : Z;
  c_specialRequests : option string;
}.

(** ** The world: clock, Redis connection and keyspace, Mongo collections *)

Inductive Level := LOG | WARN | ERROR.

Inductive RedisCmd :=
| CmdSetNX (key value : string) (ex : Z)
| CmdEval (key arg : string)
| CmdSetEx (key : string) (ttl : Z) (value : string)
| CmdGet (key : string)
| CmdScan (pattern : string)
| CmdDel (keys : list string).

Inductive Event :=
| Sent (c : RedisCmd)
| Slept (ms : Z)
| Logged (lvl : Level) (msg : string).

Record World := {
  clock : Z;                       (* [Date.now()] *)
  isConnected : bool;              (* [RedisConnection.isConnected] *)
  isReady : bool;                  (* [client.isReady] *)
  faults : list bool;              (* for each coming Redis command: is it rejected? *)
  randoms : list string;           (* coming values of [Math.random().toString(36).substr(2, 9)] *)
  kv : gmap string (string * Z);   (* Redis keyspace: value and expiry deadline (ms) *)
  rooms : list IRoom;
  bookings : list IBooking;
  nextOid : ObjectId;              (* the next [insertedId] *)
  trace : list Event;              (* commands sent, sleeps, console lines; newest first *)
}.

Definition set_clock (t : Z) (w : World) : World :=
  {| clock := t; isConnected := isConnected w; isReady := isReady w;
     faults := faults w; randoms := randoms w; kv := kv w; rooms := rooms w;
     bookings := bookings w; nextOid := nextOid w; trace := trace w |}.

Definition set_faults (f : list bool) (w : World) : World :=
  {| clock := clock w; isConnected := isConnected w; isReady := isReady w;
     faults := f; randoms := randoms w; kv := kv w; rooms := rooms w;
     bookings := bookings w; nextOid := nextOid w; trace := trace w |}.

Definition set_randoms (r : list string) (w : World) : World :=
  {| clock := clock w; isConnected := isConnected w; isReady := isReady w;
     faults := faults w; randoms := r; kv := kv w; rooms := rooms w;
     bookings := bookings w; nextOid := nextOid w; trace := trace w |}.

Definition set_kv (m : gmap string (string * Z)) (w : World) : World :=
  {| clock := clock w; isConnected := isConnected w; isReady := isReady w;
     faults := faults w; randoms := randoms w; kv := m; rooms := rooms w;
     bookings := bookings w; nextOid := nextOid w; trace := trace w |}.

Definition set_bookings (l : list IBooking) (w : World) : World :=
  {| clock := clock w; isConnected := isConnected w; isReady := isReady w;
     faults := faults w; randoms := randoms w; kv := kv w; rooms := rooms w;
     bookings := l; nextOid := nextOid w; trace := trace w |}.

Definition set_nextOid (n : ObjectId) (w : World) : World :=
  {| clock := clock w; isConnected := isConnected w; isReady := isReady w;
     faults := faults w; randoms := randoms w; kv := kv w; rooms := rooms w;
     bookings := bookings w; nextOid := n; trace := trace w |}.

Definition emit (e : Event) (w : World) : World :=
  {| clock := clock w; isConnected := isConnected w; isReady := isReady w;
     faults := faults w; randoms := randoms w; kv := kv w; rooms := rooms w;
     bookings := bookings w; nextOid := nextOid w; trace := e :: trace w |}.

(** A key is live until its deadline; an expired key is as good as absent. *)
Definition live (w : World) (key : string) : option string :=
  match kv w !! key with
  | Some (v, deadline) => if clock w <? deadline then Some v else None
  | None => None
  end.

(** [RedisConnection.isConnectionActive] *)
Definition connectionActive (w : World) : bool := isConnected w && isReady w.

(** ** Key patterns of SCAN

    Redis glob matching, for the metacharacters [*] and [?].  The patterns the
    service builds are literal text, an [ObjectId] in hexadecimal and [*], so
    classes and escapes never occur. *)
Fixpoint globMatch (p : string) : string -> bool :=
  match p with
  | EmptyString => fun s => match s with EmptyString => true | String _ _ => false end
  | String c p' =>
      if Ascii.eqb c "*" then
        fix star (s : string) : bool :=
          globMatch p' s
          || match s with EmptyString => false | String _ s' => star s' end
      else if Ascii.eqb c "?" then
        fun s => match s with EmptyString => false | String _ s' => globMatch p' s' end
      else
        fun s =>
          match s with
          | EmptyString => false
          | String d s' => Ascii.eqb c d && globMatch p' s'
          end
  end.

(** ** Operations

    What the service code calls: the clock, the console, the Redis client and
    the two Mongo collections.  [RedisEval] is the one script the code ever
    evaluates, the compare-and-delete of [RedisLock.release]:
    [if redis.call("GET", KEYS[1]) == ARGV[1] then return redis.call("DEL", KEYS[1]) else return 0 end].
    [RedisScan] stands for a whole [scanIterator] loop. *)
Inductive Op : Type -> Type :=
| DateNow : Op Z
| MathRandom : Op string
| Console (lvl : Level) (msg : string) : Op unit
| IsConnectionActive : Op bool
| GetClient : Op unit
| Sleep (ms : Z) : Op unit
| RedisSetNX (key value : string) (ex : Z) : Op bool
| RedisEval (key arg : string) : Op Z
| RedisSetEx (key : string) (ttl : Z) (value : string) : Op unit
| RedisGet (key : string) : Op (option string)
| RedisScan (pattern : string) : Op (list string)
| RedisDel (keys : list string) : Op Z
| RoomsFindOne (filter : IRoom -> bool) : Op (option IRoom)
| RoomsFind (filter : IRoom -> bool) : Op (list IRoom)
| BookingsFind (filter : IBooking -> bool) : Op (list IBooking)
| BookingsInsertOne (doc : ObjectId -> IBooking) : Op ObjectId
| BookingsFindOneAndUpdate (filter : IBooking -> bool) (update : IBooking -> IBooking)
    : Op (option IBooking).

(** Synchronous operations do not yield to other requests; the others are
    awaited. *)
Definition isSync {X} (o : Op X) : bool :=
  match o with
  | DateNow | MathRandom | Console _ _ | IsConnectionActive | GetClient => true
  | _ => false
  end.

(** Sending a command: it is recorded, and the next entry of [faults] decides
    whether the client rejects it. *)
Definition send (c : RedisCmd) (w : World) : World * bool :=
  let w1 := emit (Sent c) w in
  match faults w with
  | rejected :: f => (set_faults f w1, rejected)
  | [] => (w1, false)
  end.

Definition rejection : Exn := RedisError "command rejected".

Definition scanKeys (pattern : string) (w : World) : list string :=
  List.filter (fun k => globMatch pattern k && bool_decide (is_Some (live w k)))
    (map fst (map_to_list (kv w))).

Fixpoint delKeys (keys : list string) (w : World) : World * Z :=
  match keys with
  | [] => (w, 0)
  | k :: ks =>
      let n := match live w k with Some _ => 1 | None => 0 end in
      let '(w', m) := delKeys ks (set_kv (delete k (kv w)) w) in
      (w', n + m)
  end.

(** [findOneAndUpdate(filter, {$set: ...}, {returnDocument: "after"})] *)
Fixpoint updateFirst (f : IBooking -> bool) (u : IBooking -> IBooking)
    (l : list IBooking) : option IBooking * list IBooking :=
  match l with
  | [] => (None, [])
  | b :: l' =>
      if f b then (Some (u b), u b :: l')
      else let '(r, l'') := updateFirst f u l' in (r, b :: l'')
  end.

Definition exec {X} (o : Op X) (w : World) : World * result X :=
  match o in Op X return World * result X with
  | DateNow => (w, Ok (clock w))
  | MathRandom =>
      match randoms w with
      | r :: rs => (set_randoms rs w, Ok r)
      | [] => (w, Ok ""%string)
      end
  | Console lvl msg => (emit (Logged lvl msg) w, Ok tt)
  | IsConnectionActive => (w, Ok (connectionActive w))
  | GetClient =>
      if isConnected w then (w, Ok tt)
      else (w, Err (JsError "Redis not connected. Call connect() first."))
  | Sleep ms => (emit (Slept ms) (set_clock (clock w + Z.max 0 ms) w), Ok tt)
  | RedisSetNX key value ex =>
      let '(w1, rejected) := send (CmdSetNX key value ex) w in
      if rejected then (w1, Err rejection)
      else match live w1 key with
           | Some _ => (w1, Ok false)
           | None => (set_kv (<[key := (value, clock w1 + ex * 1000)]> (kv w1)) w1, Ok true)
           end
  | RedisEval key arg =>
      let '(w1, rejected) := send (CmdEval key arg) w in
      if rejected then (w1, Err rejection)
      else if bool_decide (live w1 key = Some arg)
           then (set_kv (delete key (kv w1)) w1, Ok 1)
           else (w1, Ok 0)
  | RedisSetEx key ttl value =>
      let '(w1, rejected) := send (CmdSetEx key ttl value) w in
      if rejected then (w1, Err rejection)
      else (set_kv (<[key := (value, clock w1 + ttl * 1000)]> (kv w1)) w1, Ok tt)
  | RedisGet key =>
      let '(w1, rejected) := send (CmdGet key) w in
      if rejected then (w1, Err rejection) else (w1, Ok (live w1 key))
  | RedisScan pattern =>
      let '(w1, rejected) := send (CmdScan pattern) w in
      if rejected then (w1, Err rejection) else (w1, Ok (scanKeys pattern w1))
  | RedisDel keys =>
      let '(w1, rejected) := send (CmdDel keys) w in
      if rejected then (w1, Err rejection)
      else let '(w2, n) := delKeys keys w1 in (w2, Ok n)
  | RoomsFindOne filter => (w, Ok (List.find filter (rooms w)))
  | RoomsFind filter => (w, Ok (List.filter filter (rooms w)))
  | BookingsFind filter => (w, Ok (List.filter filter (bookings w)))
  | BookingsInsertOne doc =>
      let id := nextOid w in
      (set_nextOid (id + 1)%N (set_bookings (bookings w ++ [doc id]) w), Ok id)
  | BookingsFindOneAndUpdate filter update =>
      let '(r, l) := updateFirst filter update (bookings w) in
      (set_bookings l w, Ok r)
  end.

(** ** Programs *)

Inductive Prog (A : Type) : Type :=
| Ret (a : A)
| Throw (e : Exn)
| Vis {X : Type} (o : Op X) (k : result X -> Prog A).
Arguments Ret {A} a.
Arguments Throw {A} e.
Arguments Vis {A X} o k.

Fixpoint bind {A B} (p : Prog A) (f : A -> Prog B) : Prog B :=
  match p with
  | Ret a => f a
  | Throw e => Throw e
  | Vis o k => Vis o (fun r => bind (k r) f)
  end.

#[global] Instance Prog_ret : MRet Prog := fun A a => Ret a.
#[global] Instance Prog_bind : MBind Prog := fun A B f p => bind p f.

(** [await client.cmd(...)]: a rejection is thrown at the call site. *)
Definition call {X} (o : Op X) : Prog X :=
  Vis o (fun r => match r with Ok x => Ret x | Err e => Throw e end).

(** [try { p } catch (error) { h error }] *)
Fixpoint try_catch {A} (p : Prog A) (h : Exn -> Prog A) : Prog A :=
  match p with
  | Ret a => Ret a
  | Throw e => h e
  | Vis o k => Vis o (fun r => try_catch (k r) h)
  end.

(** [try { p } finally { f }]: [f] runs on both exits; an error of [f]
    replaces the outcome of [p]. *)
Fixpoint try_finally {A B} (p : Prog A) (f : Prog B) : Prog A :=
  match p with
  | Ret a => bind f (fun _ => Ret a)
  | Throw e => bind f (fun _ => Throw e)
  | Vis o k => Vis o (fun r => try_finally (k r) f)
  end.

Definition consoleLog (msg : string) : Prog unit := call (Console LOG msg).
Definition consoleWarn (msg : string) : Prog unit := call (Console WARN msg).
Definition consoleError (msg : string) : Prog unit := call (Console ERROR msg).

(** Running a program alone, to completion. *)
Fixpoint run {A} (p : Prog A) (w : World) : World * result A :=
  match p with
  | Ret a => (w, Ok a)
  | Throw e => (w, Err e)
  | Vis o k => let '(w', r) := exec o w in run (k r) w'
  end.

(** ** JavaScript builtins used by the service *)

(** [a || d] on an optional number: [undefined] and [0] are falsy. *)
Definition orDefault (a : option Z) (d : Z) : Z :=
  match a with
  | Some 0 => d
  | Some n => n
  | None => d
  end.

Fixpoint zeros (n : nat) : string :=
  match n with O => "" | S n' => String "0" (zeros n') end.

Definition padStart (width : nat) (z : Z) : string :=
  let s := pretty z in zeros (width - String.length s) +:+ s.

(** Days since the epoch to (year, month, day) of the proleptic Gregorian
    calendar. *)
Definition civil (days : Z) : Z * Z * Z :=
  let z := days + 719468 in
  let era := z / 146097 in
  let doe := z - era * 146097 in
  let yoe := (doe - doe / 1460 + doe / 36524 - doe / 146096) / 365 in
  let doy := doe - (365 * yoe + yoe / 4 - yoe / 100) in
  let mp := (5 * doy + 2) / 153 in
  let d := doy - (153 * mp + 2) / 5 + 1 in
  let m := if mp <? 10 then mp + 3 else mp - 9 in
  let y := yoe + era * 400 in
  (if m <=? 2 then y + 1 else y, m, d).

(** [Date.prototype.toISOString], on a time value in milliseconds. *)
Definition toISOString (t : Z) : string :=
  let '(y, m, d) := civil (t / 86400000) in
  let ms := t mod 86400000 in
  let year :=
    if (0 <=? y) && (y <=? 9999) then padStart 4 y
    else if y <? 0 then "-" +:+ padStart 6 (- y)
    else "+" +:+ padStart 6 y in
  year +:+ "-" +:+ padStart 2 m +:+ "-" +:+ padStart 2 d +:+ "T"
  +:+ padStart 2 (ms / 3600000) +:+ ":" +:+ padStart 2 (ms / 60000 mod 60) +:+ ":"
  +:+ padStart 2 (ms / 1000 mod 60) +:+ "." +:+ padStart 3 (ms mod 1000) +:+ "Z".

(** [Array.prototype.join] *)
Fixpoint join (sep : string) (l : list string) : string :=
  match l with
  | [] => ""
  | [x] => x
  | x :: l' => x +:+ sep +:+ join sep l'
  end.

(** ** utils/redisLock.ts *)

(** A property of an options object: absent, present with the value
    [undefined], or present with a value.  Reading an absent property gives
    [undefined]; an object spread copies every present property, an
    [undefined] one too. *)
Inductive Property (A : Type) :=
| Absent
| Undefined
| Present (a : A).
Arguments Absent {A}.
Arguments Undefined {A}.
Arguments Present {A} a.

(** [o.p] *)
Definition read {A} (p : Property A) : option A :=
  match p with
  | Present a => Some a
  | Absent | Undefined => None
  end.

(** The property of [{ p: base, ...over }]. *)
Definition spread {A} (base over : Property A) : Property A :=
  match over with
  | Absent => base
  | Undefined | Present _ => over
  end.

Record LockOptions := {
  o_ttl : Property Z;
  o_retryDelay : Property Z;
  o_maxRetries : Property Z;
}.

Record RedisLock := {
  lockKey : string;
  lockValue : string;
  ttl : Z;         (* seconds *)
  retryDelay : Z;  (* milliseconds *)
  maxRetries : Z;
}.

(** The constructor: the owner value is the time and a random suffix; the
    options default through [||]. *)
Definition newRedisLock (key : string) (options : LockOptions) : Prog RedisLock :=
  now ← call DateNow;
  suffix ← call MathRandom;
  mret {| lockKey := "lock:" +:+ key;
          lockValue := pretty now +:+ "-" +:+ suffix;
          ttl := orDefault (read (o_ttl options)) 30;
          retryDelay := orDefault (read (o_retryDelay options)) 100;
          maxRetries := orDefault (read (o_maxRetries options)) 3 |}.

(** How one turn of a loop body ends: [return a], or on to the next turn. *)
Inductive LoopExit (A : Type) :=
| Return (a : A)
| Continue.
Arguments Return {A} a.
Arguments Continue {A}.

(** The body of the [for] loop of [acquire], at a given [attempt]. *)
Definition acquireAttempt (l : RedisLock) (attempt : Z) : Prog (LoopExit bool) :=
  try_catch
    (result ← call (RedisSetNX (lockKey l) (lockValue l) (ttl l));
     if result : bool then
       consoleLog ("Lock acquired: " +:+ lockKey l +:+ " (value: " +:+ lockValue l +:+ ")");;
       mret (Return true)
     else
       (if attempt <? maxRetries l then
          consoleLog ("Lock busy, retrying in " +:+ pretty (retryDelay l) +:+ "ms (attempt "
                      +:+ pretty (attempt + 1) +:+ "/" +:+ pretty (maxRetries l) +:+ ")");;
          call (Sleep (retryDelay l))
        else mret tt);;
       mret Continue)
    (fun error =>
       consoleError ("Lock acquisition error (attempt " +:+ pretty (attempt + 1) +:+ "):");;
       if attempt =? maxRetries l then Throw error
       else call (Sleep (retryDelay l));; mret Continue).

(** [for (let attempt = 0; attempt <= maxRetries; attempt++)], with the turns
    that remain, and the statements after the loop. *)
Fixpoint acquireLoop (l : RedisLock) (turns : nat) (attempt : Z) : Prog bool :=
  match turns with
  | O =>
      consoleLog ("Failed to acquire lock after " +:+ pretty (maxRetries l)
                  +:+ " attempts: " +:+ lockKey l);;
      mret false
  | S turns' =>
      exit ← acquireAttempt l attempt;
      match exit with
      | Return b => mret b
      | Continue => acquireLoop l turns' (attempt + 1)
      end
  end.

Definition acquire (l : RedisLock) : Prog bool :=
  active ← call IsConnectionActive;
  if negb active then Throw (JsError "Redis connection not active for locking")
  else
    call GetClient;;
    acquireLoop l (Z.to_nat (maxRetries l + 1)) 0.

Definition release (l : RedisLock) : Prog bool :=
  active ← call IsConnectionActive;
  if negb active then
    consoleWarn "Redis connection not active, cannot release lock";;
    mret false
  else
    try_catch
      (call GetClient;;
       result ← call (RedisEval (lockKey l) (lockValue l));
       if result =? 1 then
         consoleLog ("Lock released: " +:+ lockKey l);;
         mret true
       else
         consoleWarn ("Lock not released (may have expired or been taken by another process): "
                      +:+ lockKey l);;
         mret false)
      (fun error =>
         consoleError "Lock release error:";;
         mret false).

Definition withLock {T} (l : RedisLock) (fn : Prog T) : Prog T :=
  acquired ← acquire l;
  if negb acquired then Throw (JsError ("Failed to acquire lock: " +:+ lockKey l))
  else try_finally (result ← fn; mret result) (release l).

(** [{ ttl: 60, retryDelay: 200, maxRetries: 5, ...options }]; spreading an
    omitted [options] adds nothing. *)
Definition bookingLockOptions (options : option LockOptions) : LockOptions :=
  let defaults :=
    {| o_ttl := Present 60; o_retryDelay := Present 200; o_maxRetries := Present 5 |} in
  match options with
  | None => defaults
  | Some o =>
      {| o_ttl := spread (o_ttl defaults) (o_ttl o);
         o_retryDelay := spread (o_retryDelay defaults) (o_retryDelay o);
         o_maxRetries := spread (o_maxRetries defaults) (o_maxRetries o) |}
  end.

Definition createBookingLock (roomId : string) (checkIn checkOut : Z)
    (options : option LockOptions) : Prog RedisLock :=
  let dateRange := toISOString checkIn +:+ "_" +:+ toISOString checkOut in
  let key := "booking:" +:+ roomId +:+ ":" +:+ dateRange in
  newRedisLock key (bookingLockOptions options).

(** ** config/redis.ts: the availability cache *)

Definition dquote : string := String (ascii_of_nat 34) "".

(** [JSON.stringify({ isAvailable, timestamp })] *)
Definition stringifyAvailability (isAvailable : bool) (timestamp : Z) : string :=
  "{" +:+ dquote +:+ "isAvailable" +:+ dquote +:+ ":"
  +:+ (if isAvailable then "true" else "false")
  +:+ "," +:+ dquote +:+ "timestamp" +:+ dquote +:+ ":" +:+ pretty timestamp +:+ "}".

Fixpoint stripPrefix (p s : string) : option string :=
  match p, s with
  | EmptyString, _ => Some s
  | String c p', String d s' => if Ascii.eqb c d then stripPrefix p' s' else None
  | String _ _, EmptyString => None
  end.

(** [JSON.parse(cached).isAvailable], for the strings [stringifyAvailability]
    writes.  On any other string the model has [JSON.parse] throw; only
    [setRoomAvailability] writes under the availability keys. *)
Definition parseAvailability (s : string) : result bool :=
  match stripPrefix ("{" +:+ dquote +:+ "isAvailable" +:+ dquote +:+ ":") s with
  | Some rest =>
      match stripPrefix "true," rest, stripPrefix "false," rest with
      | Some _, _ => Ok true
      | None, Some _ => Ok false
      | None, None => Err (JsError "Unexpected token in JSON")
      end
  | None => Err (JsError "Unexpected token in JSON")
  end.

Definition availabilityKey (roomId dateRange : string) : string :=
  "room:availability:" +:+ roomId +:+ ":" +:+ dateRange.

Definition setRoomAvailability (roomId dateRange : string) (isAvailable : bool)
    (ttl : Z) : Prog unit :=
  try_catch
    (call GetClient;;
     let key := availabilityKey roomId dateRange in
     timestamp ← call DateNow;
     call (RedisSetEx key ttl (stringifyAvailability isAvailable timestamp)))
    (fun error => consoleError "Error setting room availability cache:").

Definition getRoomAvailability (roomId dateRange : string) : Prog (option bool) :=
  try_catch
    (call GetClient;;
     let key := availabilityKey roomId dateRange in
     cached ← call (RedisGet key);
     match cached with
     | Some (String c s) =>
         match parseAvailability (String c s) with
         | Ok isAvailable => mret (Some isAvailable)
         | Err e => Throw e
         end
     | Some EmptyString | None => mret None
     end)
    (fun error =>
       consoleError "Error getting room availability cache:";;
       mret None).

Definition invalidatedMessage (n : nat) (roomId : string) : string :=
  "Invalidated " +:+ pretty (Z.of_nat n) +:+ " cache entries for room " +:+ roomId.

(** [RedisConnection.invalidateRoomCache] *)
Definition redis_invalidateRoomCache (roomId : string) : Prog unit :=
  try_catch
    (call GetClient;;
     let pattern := "room:availability:" +:+ roomId +:+ ":*" in
     keys ← call (RedisScan pattern);
     if (0 <? length keys)%nat then
       call (RedisDel keys);;
       consoleLog (invalidatedMessage (length keys) roomId)
     else mret tt)
    (fun error => consoleError "Error invalidating room cache:").

(** ** services/bookingService.ts *)

Record IBookingValidation := {
  isValid : bool;
  errors : list string;
}.

(** [if (c) errors.push(msg)] *)
Definition pushIf (c : bool) (msg : string) (errors : list string) : list string :=
  if c then errors ++ [msg] else errors.

Definition isActiveStatus (s : BookingStatus) : bool :=
  match s with
  | PENDING | CONFIRMED => true
  | CANCELLED | COMPLETED => false
  end.

(** The Mongo filter of the conflict query:
    [{ roomId, status: { $in: [PENDING, CONFIRMED] },
       $or: [{ checkInDate: { $lt: checkOut }, checkOutDate: { $gt: checkIn } }],
       _id: { $ne: excludeBookingId } }], the last part only with an exclusion. *)
Definition conflictFilter (room : ObjectId) (checkIn checkOut : Z)
    (excludeBookingId : option ObjectId) (b : IBooking) : bool :=
  (roomId b =? room)%N
  && isActiveStatus (status b)
  && ((checkInDate b <? checkOut) && (checkOutDate b >? checkIn))
  && match excludeBookingId with
     | Some x => negb (b_id b =? x)%N
     | None => true
     end.

Definition objectId (s : string) : Prog ObjectId :=
  match newObjectId s with
  | Ok id => mret id
  | Err e => Throw e
  end.

Definition msgDateOrder : string := "Check-in date must be before check-out date".
Definition msgPast : string := "Check-in date cannot be in the past".
Definition msgGuests : string := "Number of guests must be greater than 0".
Definition msgRoomNotFound : string := "Room not found".
Definition msgInactive : string := "Room is not available for booking".
Definition msgCapacity (maxOccupancy : Z) : string :=
  "Number of guests exceeds room capacity (" +:+ pretty maxOccupancy +:+ ")".
Definition msgConflict : string := "Room is not available for the selected dates".

Definition validateBooking (bookingData : ICreateBooking) : Prog IBookingValidation :=
  let errors := [] in
  roomObjectId ← objectId (c_roomId bookingData);
  let errors :=
    pushIf (c_checkInDate bookingData >=? c_checkOutDate bookingData) msgDateOrder errors in
  now ← call DateNow;
  let errors := pushIf (c_checkInDate bookingData <? now) msgPast errors in
  let errors := pushIf (c_numberOfGuests bookingData <=? 0) msgGuests errors in
  room ← call (RoomsFindOne (fun r => (r_id r =? roomObjectId)%N));
  match room with
  | None => mret {| isValid := false; errors := errors ++ [msgRoomNotFound] |}
  | Some room =>
      let errors := pushIf (negb (isActive room)) msgInactive errors in
      let errors :=
        pushIf (c_numberOfGuests bookingData >? maxOccupancy room)
               (msgCapacity (maxOccupancy room)) errors in
      conflictingBookings ←
        call (BookingsFind (conflictFilter roomObjectId (c_checkInDate bookingData)
                              (c_checkOutDate bookingData) None));
      let errors := pushIf (0 <? length conflictingBookings)%nat msgConflict errors in
      mret {| isValid := (length errors =? 0)%nat; errors := errors |}
  end.

(** [Math.ceil(a / b)] for integers [a] and [b > 0] *)
Definition ceilDiv (a b : Z) : Z := - ((- a) / b).

Definition msPerDay : Z := 1000 * 60 * 60 * 24.

(** [...(s && { specialRequests: s })]: an empty string is falsy. *)
Definition truthyString (s : option string) : option string :=
  match s with
  | Some EmptyString => None
  | _ => s
  end.

(** The function [createBooking] passes to [withLock]. *)
Definition createBookingLocked (userObjectId roomObjectId : ObjectId)
    (bookingData : ICreateBooking) : Prog IBooking :=
  consoleLog ("Creating booking with lock for room " +:+ toHexString roomObjectId
              +:+ " from " +:+ toISOString (c_checkInDate bookingData)
              +:+ " to " +:+ toISOString (c_checkOutDate bookingData));;
  validation ← validateBooking bookingData;
  if negb (isValid validation) then Throw (JsError (join ", " (errors validation)))
  else
    room ← call (RoomsFindOne (fun r => (r_id r =? roomObjectId)%N));
    match room with
    | None => Throw (JsError "Room not found")
    | Some room =>
        let totalNights :=
          ceilDiv (c_checkOutDate bookingData - c_checkInDate bookingData) msPerDay in
        let totalAmount := basePrice room * totalNights in
        created ← call DateNow;
        updated ← call DateNow;
        let booking := fun _id =>
          {| b_id := _id;
             userId := userObjectId;
             roomId := roomObjectId;
             checkInDate := c_checkInDate bookingData;
             checkOutDate := c_checkOutDate bookingData;
             numberOfGuests := c_numberOfGuests bookingData;
             totalAmount := totalAmount;
             status := PENDING;
             paymentStatus := PAYMENT_PENDING;
             specialRequests := truthyString (c_specialRequests bookingData);
             createdAt := created;
             updatedAt := updated |} in
        insertedId ← call (BookingsInsertOne booking);
        try_catch
          (active ← call IsConnectionActive;
           if active : bool then redis_invalidateRoomCache (toHexString roomObjectId)
           else mret tt)
          (fun error => consoleWarn "Cache invalidation failed:");;
        consoleLog ("Booking created successfully with ID: " +:+ toHexString insertedId);;
        mret (booking insertedId)
    end.

Definition createBooking (userId : string) (bookingData : ICreateBooking) : Prog IBooking :=
  userObjectId ← objectId userId;
  roomObjectId ← objectId (c_roomId bookingData);
  bookingLock ← createBookingLock (toHexString roomObjectId) (c_checkInDate bookingData)
                   (c_checkOutDate bookingData) None;
  withLock bookingLock (createBookingLocked userObjectId roomObjectId bookingData).

(** [BookingService.invalidateRoomCache] (private) *)
Definition service_invalidateRoomCache (roomId : string) : Prog unit :=
  try_catch
    (active ← call IsConnectionActive;
     if negb active then mret tt
     else
       call GetClient;;
       let pattern := "room:availability:*" +:+ roomId +:+ "*" in
       keys ← call (RedisScan pattern);
       let searchPattern := "room:availability:search:*" in
       searchKeys ← call (RedisScan searchPattern);
       let keys := keys ++ searchKeys in
       if (0 <? length keys)%nat then
         call (RedisDel keys);;
         consoleLog (invalidatedMessage (length keys) roomId)
       else mret tt)
    (fun error => consoleError "Error invalidating room cache:").

Definition setStatus (s : BookingStatus) (now : Z) (b : IBooking) : IBooking :=
  {| b_id := b_id b; userId := userId b; roomId := roomId b;
     checkInDate := checkInDate b; checkOutDate := checkOutDate b;
     numberOfGuests := numberOfGuests b; totalAmount := totalAmount b;
     status := s; paymentStatus := paymentStatus b;
     specialRequests := specialRequests b;
     createdAt := createdAt b; updatedAt := now |}.

Definition cancelBooking (bookingId : string) (reason : option string) : Prog IBooking :=
  oid ← objectId bookingId;
  now ← call DateNow;
  result ← call (BookingsFindOneAndUpdate (fun b => (b_id b =? oid)%N)
                   (setStatus CANCELLED now));
  match result with
  | None => Throw (JsError "Booking not found")
  | Some result =>
      try_catch
        (active ← call IsConnectionActive;
         if active : bool then service_invalidateRoomCache (toHexString (roomId result))
         else mret tt)
        (fun error => consoleWarn "Cache invalidation failed:");;
      mret result
  end.

Definition confirmBooking (bookingId : string) : Prog IBooking :=
  oid ← objectId bookingId;
  now ← call DateNow;
  result ← call (BookingsFindOneAndUpdate
                   (fun b => (b_id b =? oid)%N && bool_decide (status b = PENDING))
                   (setStatus CONFIRMED now));
  match result with
  | None => Throw (JsError "Booking not found or cannot be confirmed")
  | Some result =>
      try_catch
        (active ← call IsConnectionActive;
         if active : bool then service_invalidateRoomCache (toHexString (roomId result))
         else mret tt)
        (fun error => consoleWarn "Cache invalidation failed:");;
      mret result
  end.

(** ** services/roomService.ts: availability *)

Record IRoomAvailabilityFilter := {
  f_checkInDate : Z;
  f_checkOutDate : Z;
  f_category : option RoomCategory;
  f_maxOccupancy : option Z;
  f_excludeBookingId : option ObjectId;
}.

(** [IRoomAvailability], with the room fields of [IRoom] kept here. *)
Record IRoomAvailability := {
  a_id : ObjectId;
  a_roomNumber : string;
  a_category : RoomCategory;
  a_maxOccupancy : Z;
  a_basePrice : Z;
  a_isAvailable : bool;
  conflictingBookings : list ObjectId;
}.

(** [{ isActive: true, category?, "dimensions.maxOccupancy": { $gte } ? }] *)
Definition roomFilter (filter : IRoomAvailabilityFilter) (r : IRoom) : bool :=
  isActive r
  && match f_category filter with
     | Some c => bool_decide (category r = c)
     | None => true
     end
  && match f_maxOccupancy filter with
     | Some 0 | None => true
     | Some n => maxOccupancy r >=? n
     end.

(** The cache lookup that opens the closure of [checkRoomAvailability]. *)
Definition cachedAvailability (room : IRoom) (dateRange : string) : Prog (option bool) :=
  let roomId := toHexString (r_id room) in
  try_catch
    (active ← call IsConnectionActive;
     if active : bool then
       isAvailable ← getRoomAvailability roomId dateRange;
       match isAvailable with
       | Some _ =>
           consoleLog ("Cache hit for room " +:+ roomNumber room +:+ " availability");;
           mret isAvailable
       | None => mret isAvailable
       end
     else mret None)
    (fun error =>
       consoleWarn ("Cache read failed for room " +:+ roomId +:+ ":");;
       mret None).

Definition availabilityOf (room : IRoom) (isAvailable : bool) (conflicts : list ObjectId)
    : IRoomAvailability :=
  {| a_id := r_id room; a_roomNumber := roomNumber room; a_category := category room;
     a_maxOccupancy := maxOccupancy room; a_basePrice := basePrice room;
     a_isAvailable := isAvailable; conflictingBookings := conflicts |}.

(** The closure [checkRoomAvailability] maps over the rooms. *)
Definition roomAvailability (filter : IRoomAvailabilityFilter) (dateRange : string)
    (room : IRoom) : Prog IRoomAvailability :=
  let roomId := toHexString (r_id room) in
  let query :=
    BookingsFind (conflictFilter (r_id room) (f_checkInDate filter) (f_checkOutDate filter)
                    (f_excludeBookingId filter)) in
  isAvailable ← cachedAvailability room dateRange;
  match isAvailable with
  | None =>
      bookings ← call query;
      let isAvailable := (length bookings =? 0)%nat in
      let conflictingBookings := map b_id bookings in
      try_catch
        (active ← call IsConnectionActive;
         if active : bool then
           setRoomAvailability roomId dateRange isAvailable 300;;
           consoleLog ("Cached availability for room " +:+ roomNumber room +:+ ": "
                       +:+ (if isAvailable then "true" else "false"))
         else mret tt)
        (fun error => consoleWarn ("Cache write failed for room " +:+ roomId +:+ ":"));;
      mret (availabilityOf room isAvailable conflictingBookings)
  | Some false =>
      bookings ← call query;
      mret (availabilityOf room false (map b_id bookings))
  | Some true => mret (availabilityOf room true [])
  end.

Fixpoint mapM {A B} (f : A -> Prog B) (l : list A) : Prog (list B) :=
  match l with
  | [] => mret []
  | a :: l' => b ← f a; bs ← mapM f l'; mret (b :: bs)
  end.

(** [checkRoomAvailability]; the closures of [Promise.all] run one after the
    other here. *)
Definition checkRoomAvailability (filter : IRoomAvailabilityFilter)
    : Prog (list IRoomAvailability) :=
  let dateRange :=
    toISOString (f_checkInDate filter) +:+ "_" +:+ toISOString (f_checkOutDate filter) in
  rooms ← call (RoomsFind (roomFilter filter));
  mapM (roomAvailability filter dateRange) rooms.

(** ** validators/booking.ts, middleware/auth.ts, controllers/bookingController.ts *)

(** A field of the JSON request body; numbers are the rationals the finite
    doubles are. *)
Inductive Json :=
| JUndefined
| JNull
| JBool (b : bool)
| JNumber (q : Q)
| JString (s : string).

Record RequestBody := {
  body_roomId : Json;
  body_checkInDate : Json;
  body_checkOutDate : Json;
  body_numberOfGuests : Json;
  body_specialRequests : Json;
}.

(** [Number.isInteger] *)
Definition isInteger (q : Q) : bool := (Qnum q mod Z.pos (Qden q) =? 0).

Definition isHexDigit (c : ascii) : bool :=
  match hexValue c with
  | Some _ => true
  | None => false
  end.

Fixpoint allHex (s : string) : bool :=
  match s with
  | EmptyString => true
  | String c s' => isHexDigit c && allHex s'
  end.

(** [objectIdSchema] *)
Definition objectIdSchema (j : Json) : option string :=
  match j with
  | JString s => if (String.length s =? 24)%nat && allHex s then Some s else None
  | _ => None
  end.

(** [z.number().int().min(1).max(10)] *)
Definition numberOfGuestsSchema (j : Json) : option Z :=
  match j with
  | JNumber q =>
      if isInteger q && Qle_bool 1 q && Qle_bool q 10
      then Some (Qnum q / Z.pos (Qden q))
      else None
  | _ => None
  end.

(** [z.string().max(1000).optional()] *)
Definition specialRequestsSchema (j : Json) : option (option string) :=
  match j with
  | JUndefined => Some None
  | JString s => if (String.length s <=? 1000)%nat then Some (Some s) else None
  | _ => None
  end.

Section Schema.

(** [z.string().datetime(...)] followed by [new Date(str)]: the time value
    of an accepted string.  Both belong to the libraries; a string the
    check refuses, or whose date is invalid, has no time value. *)
Variable datetime : string -> option Z.

(** [dateStringSchema] *)
Definition dateStringSchema (j : Json) : option Z :=
  match j with
  | JString s => datetime s
  | _ => None
  end.

(** [futureDateSchema] *)
Definition futureDateSchema (now : Z) (j : Json) : option Z :=
  match dateStringSchema j with
  | Some date => if date >? now then Some date else None
  | None => None
  end.

(** [createBookingSchema.safeParse(body)] at time [now]: the parsed data on
    success. *)
Definition createBookingSchema (now : Z) (body : RequestBody) : option ICreateBooking :=
  match objectIdSchema (body_roomId body),
        futureDateSchema now (body_checkInDate body),
        dateStringSchema (body_checkOutDate body),
        numberOfGuestsSchema (body_numberOfGuests body),
        specialRequestsSchema (body_specialRequests body) with
  | Some roomId, Some checkIn, Some checkOut, Some guests, Some requests =>
      if checkOut >? checkIn then
        let diffTime := Z.abs (checkOut - checkIn) in
        let diffDays := ceilDiv diffTime msPerDay in
        if diffDays <=? 30 then
          Some {| c_roomId := roomId; c_checkInDate := checkIn; c_checkOutDate := checkOut;
                  c_numberOfGuests := guests; c_specialRequests := requests |}
        else None
      else None
  | _, _, _, _, _ => None
  end.

End Schema.

(** What the route answers: [ResponseHelper.success] with the booking, or
    [ResponseHelper.error]. *)
Inductive Response :=
| Success (statusCode : Z) (message : string) (data : IBooking)
| Failure (statusCode : Z) (message : string).

(** [error.message || "Internal server error"] *)
Definition exnMessage (e : Exn) : string :=
  match e with
  | JsError m | RedisError m | BSONError m =>
      match m with
      | EmptyString => "Internal server error"
      | _ => m
      end
  end.

(** [validateBody(schema)] in front of a handler [next]. *)
Definition validateBody {D} (schema : Z -> RequestBody -> option D)
    (next : D -> Prog Response) (body : RequestBody) : Prog Response :=
  now ← call DateNow;
  match schema now body with
  | None => mret (Failure 400 "Validation failed")
  | Some data => next data
  end.

(** [BookingController.createBooking] under [asyncHandler] and [errorHandler]. *)
Definition createBookingHandler (userId : string) (bookingData : ICreateBooking)
    : Prog Response :=
  try_catch
    (booking ← createBooking userId bookingData;
     mret (Success 201 "Booking created successfully" booking))
    (fun error => mret (Failure 500 (exnMessage error))).

(** [POST /bookings] for an authenticated user. *)
Definition postBooking (datetime : string -> option Z) (userId : string)
    (body : RequestBody) : Prog Response :=
  validateBody (createBookingSchema datetime) (createBookingHandler userId) body.

(** ** Vocabulary of the properties *)

(** Will the client reject the next command? *)
Definition nextRejected (w : World) : bool :=
  match faults w with
  | rejected :: _ => rejected
  | [] => false
  end.

(** The lock key is live and carries this lock's own owner value. *)
Definition holds (l : RedisLock) (w : World) : Prop :=
  live w (lockKey l) = Some (lockValue l).

#[global] Instance holds_dec (l : RedisLock) (w : World) : Decision (holds l w).
Proof. unfold holds. apply _. Defined.

(** The last console line is a warning or an error. *)
Definition complained (w : World) : Prop :=
  exists lvl msg, head (trace w) = Some (Logged lvl msg) /\ lvl <> LOG.

(** Counting, in a stretch of the trace, the SET NX commands sent and the
    sleeps taken. *)
Definition isAttempt (e : Event) : bool :=
  match e with
  | Sent (CmdSetNX _ _ _) => true
  | _ => false
  end.

Definition isSleep (e : Event) : bool :=
  match e with
  | Slept _ => true
  | _ => false
  end.

Definition attemptsIn (t : list Event) : Z := Z.of_nat (length (List.filter isAttempt t)).
Definition sleepsIn (t : list Event) : Z := Z.of_nat (length (List.filter isSleep t)).

(** Every sleep of the stretch lasts [ms]. *)
Definition sleepsLast (ms : Z) (t : list Event) : Prop :=
  forall d, In (Slept d) t -> d = ms.

(** [sleep(ms)] *)
Definition slept (ms : Z) (w : World) : World :=
  emit (Slept ms) (set_clock (clock w + Z.max 0 ms) w).

(** The world once a command has been sent. *)
Definition sent (c : RedisCmd) (w : World) : World :=
  set_faults (tail (faults w)) (emit (Sent c) w).

(** Two worlds with the same Mongo collections and the same connection. *)
Definition sameStore (w w' : World) : Prop :=
  rooms w' = rooms w /\ bookings w' = bookings w /\ nextOid w' = nextOid w
  /\ isConnected w' = isConnected w /\ isReady w' = isReady w.

(** The console lines of [acquire]. *)
Definition lockAcquiredMessage (l : RedisLock) : string :=
  "Lock acquired: " +:+ lockKey l +:+ " (value: " +:+ lockValue l +:+ ")".

Definition lockBusyMessage (l : RedisLock) (attempt : Z) : string :=
  "Lock busy, retrying in " +:+ pretty (retryDelay l) +:+ "ms (attempt "
  +:+ pretty (attempt + 1) +:+ "/" +:+ pretty (maxRetries l) +:+ ")".

Definition lockErrorMessage (attempt : Z) : string :=
  "Lock acquisition error (attempt " +:+ pretty (attempt + 1) +:+ "):".

Definition lockFailedMessage (l : RedisLock) : string :=
  "Failed to acquire lock after " +:+ pretty (maxRetries l) +:+ " attempts: " +:+ lockKey l.

(** Is the [i]-th coming command rejected? *)
Definition rejectedAt (w : World) (i : Z) : bool := nth (Z.to_nat i) (faults w) false.

(** What a run of the loop of [acquire] with [turns] turns ahead leaves
    behind: [new] is the stretch of trace it added. *)
Definition acquirePost (l : RedisLock) (turns : Z) (w w' : World) (r : result bool)
    (new : list Event) : Prop :=
  trace w' = new ++ trace w
  /\ sameStore w w'
  /\ attemptsIn new <= turns
  /\ sleepsLast (retryDelay l) new
  /\ clock w' = clock w + sleepsIn new * Z.max 0 (retryDelay l)
  /\ (forall k, k <> lockKey l -> kv w' !! k = kv w !! k)
  /\ match r with
     | Ok true =>
         1 <= attemptsIn new /\ sleepsIn new = attemptsIn new - 1
         /\ rejectedAt w (attemptsIn new - 1) = false
         /\ kv w' !! lockKey l = Some (lockValue l, clock w' + ttl l * 1000)
     | Ok false =>
         attemptsIn new = turns /\ sleepsIn new = Z.max 0 (turns - 1)
         /\ (1 <= turns -> rejectedAt w (turns - 1) = false)
         /\ kv w' = kv w
     | Err e =>
         e = rejection /\ 1 <= turns /\ attemptsIn new = turns
         /\ sleepsIn new = turns - 1
         /\ rejectedAt w (turns - 1) = true
         /\ kv w' = kv w
     end.

(** The errors [validateBooking] collects once the room is found. *)
Definition validationErrors (bookingData : ICreateBooking) (room : IRoom) (roomObjectId : ObjectId)
    (w : World) : list string :=
  pushIf (0 <? length (List.filter
                         (conflictFilter roomObjectId (c_checkInDate bookingData)
                            (c_checkOutDate bookingData) None) (bookings w)))%nat msgConflict
    (pushIf (c_numberOfGuests bookingData >? maxOccupancy room) (msgCapacity (maxOccupancy room))
       (pushIf (negb (isActive room)) msgInactive
          (pushIf (c_numberOfGuests bookingData <=? 0) msgGuests
             (pushIf (c_checkInDate bookingData <? clock w) msgPast
                (pushIf (c_checkInDate bookingData >=? c_checkOutDate bookingData)
                   msgDateOrder []))))).

(** The errors [validateBooking] collects before it looks the room up. *)
Definition basicErrors (bookingData : ICreateBooking) (now : Z) : list string :=
  pushIf (c_numberOfGuests bookingData <=? 0) msgGuests
    (pushIf (c_checkInDate bookingData <? now) msgPast
       (pushIf (c_checkInDate bookingData >=? c_checkOutDate bookingData) msgDateOrder [])).

(** The lock [createBooking] builds for a room and an interval, for a given
    owner value. *)
Definition bookingLockKey (room : ObjectId) (checkIn checkOut : Z) : string :=
  "lock:" +:+ ("booking:" +:+ toHexString room +:+ ":"
               +:+ (toISOString checkIn +:+ "_" +:+ toISOString checkOut)).

Definition bookingLock (room : ObjectId) (checkIn checkOut : Z) (owner : string) : RedisLock :=
  {| lockKey := bookingLockKey room checkIn checkOut; lockValue := owner;
     ttl := 60; retryDelay := 200; maxRetries := 5 |}.

(** The owner value a lock constructed in world [w] gets. *)
Definition ownerValue (w : World) : string :=
  pretty (clock w) +:+ "-" +:+ match randoms w with r :: _ => r | [] => "" end.

(** The document [createBooking] inserts. *)
Definition newBooking (user room : ObjectId) (bookingData : ICreateBooking) (r : IRoom)
    (now : Z) (id : ObjectId) : IBooking :=
  {| b_id := id; userId := user; roomId := room;
     checkInDate := c_checkInDate bookingData;
     checkOutDate := c_checkOutDate bookingData;
     numberOfGuests := c_numberOfGuests bookingData;
     totalAmount :=
       basePrice r
       * ceilDiv (c_checkOutDate bookingData - c_checkInDate bookingData) msPerDay;
     status := PENDING; paymentStatus := PAYMENT_PENDING;
     specialRequests := truthyString (c_specialRequests bookingData);
     createdAt := now; updatedAt := now |}.

(** The cache invalidation at the end of [createBooking], with its guard. *)
Definition invalidateAfterCreate (room : ObjectId) : Prog unit :=
  try_catch
    (active ← call IsConnectionActive;
     if active : bool then redis_invalidateRoomCache (toHexString room)
     else mret tt)
    (fun error => consoleWarn "Cache invalidation failed:").

Definition creatingMessage (room : ObjectId) (bookingData : ICreateBooking) : string :=
  "Creating booking with lock for room " +:+ toHexString room
  +:+ " from " +:+ toISOString (c_checkInDate bookingData)
  +:+ " to " +:+ toISOString (c_checkOutDate bookingData).

Definition createdMessage (id : ObjectId) : string :=
  "Booking created successfully with ID: " +:+ toHexString id.

(** The world once a document has been inserted. *)
Definition inserted (b : IBooking) (w : World) : World :=
  set_nextOid (nextOid w + 1)%N (set_bookings (bookings w ++ [b]) w).

(** An active reservation of [room] whose interval meets [[checkIn, checkOut)]. *)
Definition conflictsWith (room : ObjectId) (checkIn checkOut : Z) (b : IBooking) : Prop :=
  roomId b = room
  /\ (status b = PENDING \/ status b = CONFIRMED)
  /\ checkInDate b < checkOut
  /\ checkOutDate b > checkIn.

(** Operations that write to the bookings collection. *)
Definition writesBookings {X} (o : Op X) : bool :=
  match o with
  | BookingsInsertOne _ | BookingsFindOneAndUpdate _ _ => true
  | _ => false
  end.

(** Programs that never write to the bookings collection. *)
Inductive readOnly {A} : Prog A -> Prop :=
| readOnly_Ret (a : A) : readOnly (Ret a)
| readOnly_Throw (e : Exn) : readOnly (Throw e)
| readOnly_Vis {X} (o : Op X) (k : result X -> Prog A) :
    writesBookings o = false -> (forall r, readOnly (k r)) -> readOnly (Vis o k).

(** Operations that always answer: everything but [getClient] and the Redis
    commands. *)
Definition infallible {X} (o : Op X) : bool :=
  match o with
  | GetClient | RedisSetNX _ _ _ | RedisEval _ _ | RedisSetEx _ _ _ | RedisGet _
  | RedisScan _ | RedisDel _ => false
  | _ => true
  end.

(** Programs that cannot throw, whatever the operations answer. *)
Inductive noThrow {A} : Prog A -> Prop :=
| noThrow_Ret (a : A) : noThrow (Ret a)
| noThrow_Vis {X} (o : Op X) (k : result X -> Prog A) :
    (forall x, noThrow (k (Ok x))) ->
    (infallible o = false -> forall e, noThrow (k (Err e))) ->
    noThrow (Vis o k).

(** ** Example data *)

(** 2024-02-[d]T00:00:00.000Z *)
Definition feb (d : Z) : Z := 1706745600000 + (d - 1) * msPerDay.
(** 2024-03-[d]T00:00:00.000Z *)
Definition mar (d : Z) : Z := 1709251200000 + (d - 1) * msPerDay.

Definition roomR1 : IRoom :=
  {| r_id := 1%N; roomNumber := "R1"; category := BASIC; isActive := true;
     maxOccupancy := 2; basePrice := 100 |}.

Definition bookingFeb : IBooking :=
  {| b_id := 50%N; userId := 7%N; roomId := 1%N;
     checkInDate := feb 1; checkOutDate := feb 5; numberOfGuests := 2;
     totalAmount := 400; status := CONFIRMED; paymentStatus := PAID;
     specialRequests := None; createdAt := 1700000000000; updatedAt := 1700000000000 |}.

(** The store on 2023-11-14: Redis connected and empty, one room, no booking. *)
Definition world0 : World :=
  {| clock := 1700000000000; isConnected := true; isReady := true; faults := [];
     randoms := ["k3j2h1g0f"; "z9y8x7w6v"]%string; kv := ∅; rooms := [roomR1]; bookings := [];
     nextOid := 100%N; trace := [] |}.

Definition worldFeb : World := set_bookings [bookingFeb] world0.

Definition request (checkIn checkOut guests : Z) : ICreateBooking :=
  {| c_roomId := toHexString 1%N; c_checkInDate := checkIn; c_checkOutDate := checkOut;
     c_numberOfGuests := guests; c_specialRequests := None |}.

Definition availabilityQuery (checkIn checkOut : Z) : IRoomAvailabilityFilter :=
  {| f_checkInDate := checkIn; f_checkOutDate := checkOut; f_category := None;
     f_maxOccupancy := None; f_excludeBookingId := None |}.

Definition lockR1 : RedisLock :=
  {| lockKey := "lock:booking:R1"; lockValue := "1700000000000-k3j2h1g0f";
     ttl := 60; retryDelay := 200; maxRetries := 5 |}.

(** A character, a string without glob metacharacters. *)
Definition literalChar (c : ascii) : bool :=
  negb (Ascii.eqb c "*") && negb (Ascii.eqb c "?").

Fixpoint literal (s : string) : bool :=
  match s with
  | EmptyString => true
  | String c s' => literalChar c && literal s'
  end.

(** The booking of the end-to-end example: reservation A. *)
Definition bookingA : IBooking :=
  {| b_id := 100%N; userId := 7%N; roomId := 1%N;
     checkInDate := mar 1; checkOutDate := mar 4; numberOfGuests := 2;
     totalAmount := 300; status := PENDING; paymentStatus := PAYMENT_PENDING;
     specialRequests := None; createdAt := 1700000000000; updatedAt := 1700000000000 |}.




(** A reading of the two date strings of the examples. *)
Definition exampleDatetime (s : string) : option Z :=
  if String.eqb s "2024-03-01T00:00:00.000Z" then Some (mar 1)
  else if String.eqb s "2024-03-04T00:00:00.000Z" then Some (mar 4)
  else None.

(** A request body for room 1 and [2024-03-01, 2024-03-04). *)
Definition exampleBody (guests : Q) : RequestBody :=
  {| body_roomId := JString (toHexString 1%N);
     body_checkInDate := JString "2024-03-01T00:00:00.000Z";
     body_checkOutDate := JString "2024-03-04T00:00:00.000Z";
     body_numberOfGuests := JNumber guests;
     body_specialRequests := JUndefined |}.

(** A store whose only room sleeps twelve. *)
Definition roomOfTwelve : IRoom :=
  {| r_id := 1%N; roomNumber := "R12"; category := SUITE; isActive := true;
     maxOccupancy := 12; basePrice := 500 |}.

Definition worldOfTwelve : World :=
  {| clock := 1700000000000; isConnected := true; isReady := true; faults := [];
     randoms := ["k3j2h1g0f"]%string; kv := ∅; rooms := [roomOfTwelve]; bookings := [];
     nextOid := 100%N; trace := [] |}.

(** The cache invalidation at the end of [cancelBooking] and [confirmBooking],
    with its guard. *)
Definition invalidateAfterChange (room : ObjectId) : Prog unit :=
  try_catch
    (active ← call IsConnectionActive;
     if active : bool then service_invalidateRoomCache (toHexString room)
     else mret tt)
    (fun error => consoleWarn "Cache invalidation failed:").

(** Reservation A once its stay is over. *)
Definition bookingDone : IBooking := setStatus COMPLETED 1709600000000 bookingA.

Definition worldDone : World := set_bookings [bookingDone] world0.

(** The two patterns of [BookingService.invalidateRoomCache]. *)
Definition servicePattern (roomId : string) : string :=
  "room:availability:*" +:+ roomId +:+ "*".
Definition searchPattern : string := "room:availability:search:*".

(** A cache holding a verdict for room 1 and a broad search result. *)
Definition searchKey : string := "room:availability:search:2024-03".
Definition roomKey : string :=
  availabilityKey (toHexString 1%N) (toISOString (mar 1) +:+ "_" +:+ toISOString (mar 4)).

Definition worldCached : World :=
  set_kv (<[searchKey := ("[]"%string, 1700000300000)]>
            (<[roomKey := (stringifyAvailability true 1700000000000, 1700000300000)]> ∅))
    world0.

(** ** Interleaved execution

    JavaScript runs a request until it awaits.  [settle] runs the synchronous
    operations at the head of a program; a [step] lets the awaited operation
    take effect and runs on to the next await. *)
Fixpoint settle {A} (p : Prog A) (w : World) : Prog A * World :=
  match p with
  | Vis o k =>
      if isSync o then let '(w', r) := exec o w in settle (k r) w' else (p, w)
  | _ => (p, w)
  end.

Definition step {A} (p : Prog A) (w : World) : Prog A * World :=
  match p with
  | Vis o k => let '(w', r) := exec o w in settle (k r) w'
  | _ => (p, w)
  end.

Definition finished {A} (p : Prog A) : bool :=
  match p with
  | Vis _ _ => false
  | _ => true
  end.

(** Two requests over one store.  A schedule says whose turn it is, or lets
    time pass. *)
Inductive Turn :=
| First
| Second
| Tick (ms : Z).

Record Config := {
  first : Prog IBooking;
  second : Prog IBooking;
  shared : World;
}.

Definition turn (t : Turn) (c : Config) : Config :=
  match t with
  | First =>
      let '(p, w) := step (first c) (shared c) in
      {| first := p; second := second c; shared := w |}
  | Second =>
      let '(p, w) := step (second c) (shared c) in
      {| first := first c; second := p; shared := w |}
  | Tick ms =>
      {| first := first c; second := second c;
         shared := set_clock (clock (shared c) + Z.max 0 ms) (shared c) |}
  end.

Definition interleave (schedule : list Turn) (c : Config) : Config :=
  fold_left (fun c t => turn t c) schedule c.

(** The time the ticks of a schedule add up to. *)
Fixpoint ticks (schedule : list Turn) : Z :=
  match schedule with
  | [] => 0
  | Tick ms :: s => Z.max 0 ms + ticks s
  | _ :: s => ticks s
  end.

(** Two concurrent calls of [createBooking]. *)
Definition concurrently (uid1 : string) (d1 : ICreateBooking) (uid2 : string)
    (d2 : ICreateBooking) (w : World) : Config :=
  {| first := createBooking uid1 d1; second := createBooking uid2 d2; shared := w |}.

(** The two errors a losing request may end with. *)
Definition conflictError : Exn := JsError msgConflict.
Definition lockError (room : ObjectId) (checkIn checkOut : Z) : Exn :=
  JsError ("Failed to acquire lock: " +:+ bookingLockKey room checkIn checkOut).

(** ** The control points of a [createBooking] call

    Where a call can be waiting between two steps, and the program that
    remains at each point.  [owner] is the owner value of the call's lock. *)
Section ControlPoints.

Variables (user room : ObjectId) (bookingData : ICreateBooking) (owner : string).

Definition theLock : RedisLock :=
  bookingLock room (c_checkInDate bookingData) (c_checkOutDate bookingData) owner.

(** What [withLock] does with the answer of [acquire]. *)
Definition underLock : bool -> Prog IBooking :=
  fun acquired =>
    if negb acquired then Throw (JsError ("Failed to acquire lock: " +:+ lockKey theLock))
    else try_finally (result ← createBookingLocked user room bookingData; mret result)
           (release theLock).

(** About to send SET NX, with [turns] more turns of the loop after this one. *)
Definition atAcquire (turns : nat) (attempt : Z) : Prog IBooking :=
  acquireLoop theLock (S turns) attempt ≫= underLock.

(** About to sleep after a busy attempt. *)
Definition atSleep (turns : nat) (attempt : Z) : Prog IBooking :=
  (try_catch
     (call (Sleep (retryDelay theLock)) ≫= fun _ => mret Continue)
     (fun error =>
        consoleError ("Lock acquisition error (attempt " +:+ pretty (attempt + 1) +:+ "):");;
        if attempt =? maxRetries theLock then Throw error
        else call (Sleep (retryDelay theLock));; mret Continue)
   ≫= fun exit =>
        match exit with
        | Return b => mret b
        | Continue => acquireLoop theLock turns (attempt + 1)
        end)
  ≫= underLock.

(** About to sleep after a rejected attempt: the handler of the loop body. *)
Definition atRecover (turns : nat) (attempt : Z) : Prog IBooking :=
  ((call (Sleep (retryDelay theLock));; mret Continue)
   ≫= fun exit =>
        match exit with
        | Return b => mret b
        | Continue => acquireLoop theLock turns (attempt + 1)
        end)
  ≫= underLock.

(** A remainder [X] of the locked function, inside [withLock]. *)
Definition locked (X : Prog IBooking) : Prog IBooking :=
  try_finally (X ≫= fun result => mret result) (release theLock).

(** [createBookingLocked] after the validation. *)
Definition persist : Prog IBooking :=
  room_ ← call (RoomsFindOne (fun r => (r_id r =? room)%N));
  match room_ with
  | None => Throw (JsError "Room not found")
  | Some room_ =>
      let totalNights :=
        ceilDiv (c_checkOutDate bookingData - c_checkInDate bookingData) msPerDay in
      let totalAmount := basePrice room_ * totalNights in
      created ← call DateNow;
      updated ← call DateNow;
      let booking := fun _id =>
        {| b_id := _id;
           userId := user;
           roomId := room;
           checkInDate := c_checkInDate bookingData;
           checkOutDate := c_checkOutDate bookingData;
           numberOfGuests := c_numberOfGuests bookingData;
           totalAmount := totalAmount;
           status := PENDING;
           paymentStatus := PAYMENT_PENDING;
           specialRequests := truthyString (c_specialRequests bookingData);
           createdAt := created;
           updatedAt := updated |} in
      insertedId ← call (BookingsInsertOne booking);
      try_catch
        (active ← call IsConnectionActive;
         if active : bool then redis_invalidateRoomCache (toHexString room)
         else mret tt)
        (fun error => consoleWarn "Cache invalidation failed:");;
      consoleLog ("Booking created successfully with ID: " +:+ toHexString insertedId);;
      mret (booking insertedId)
  end.

Definition afterValidation : IBookingValidation -> Prog IBooking :=
  fun validation =>
    if negb (isValid validation) then Throw (JsError (join ", " (errors validation)))
    else persist.

(** The errors of [validateBooking] for a clock reading, a room and the
    reservations found. *)
Definition errorsAt (now : Z) (r : IRoom) (conflicting : list IBooking) : list string :=
  pushIf (0 <? length conflicting)%nat msgConflict
    (pushIf (c_numberOfGuests bookingData >? maxOccupancy r) (msgCapacity (maxOccupancy r))
       (pushIf (negb (isActive r)) msgInactive (basicErrors bookingData now))).

Definition conflictQuery : IBooking -> bool :=
  conflictFilter room (c_checkInDate bookingData) (c_checkOutDate bookingData) None.

(** [validateBooking] after its two lookups. *)
Definition validateConflicts (now : Z) (r : IRoom) : list IBooking -> Prog IBookingValidation :=
  fun conflicting =>
    mret {| isValid := (length (errorsAt now r conflicting) =? 0)%nat;
            errors := errorsAt now r conflicting |}.

Definition validateRoom (now : Z) : option IRoom -> Prog IBookingValidation :=
  fun room_ =>
    match room_ with
    | None =>
        mret {| isValid := false; errors := basicErrors bookingData now ++ [msgRoomNotFound] |}
    | Some r => call (BookingsFind conflictQuery) ≫= validateConflicts now r
    end.

Definition atValidateRoom (now : Z) : Prog IBooking :=
  locked ((call (RoomsFindOne (fun r => (r_id r =? room)%N)) ≫= validateRoom now)
          ≫= afterValidation).

Definition atValidateConflicts (now : Z) (r : IRoom) : Prog IBooking :=
  locked ((call (BookingsFind conflictQuery) ≫= validateConflicts now r) ≫= afterValidation).

Definition atFindRoom : Prog IBooking := locked persist.

(** The document about to be inserted. *)
Definition bookingDoc (r : IRoom) (created updated : Z) : ObjectId -> IBooking :=
  fun _id =>
    {| b_id := _id; userId := user; roomId := room;
       checkInDate := c_checkInDate bookingData;
       checkOutDate := c_checkOutDate bookingData;
       numberOfGuests := c_numberOfGuests bookingData;
       totalAmount :=
         basePrice r
         * ceilDiv (c_checkOutDate bookingData - c_checkInDate bookingData) msPerDay;
       status := PENDING; paymentStatus := PAYMENT_PENDING;
       specialRequests := truthyString (c_specialRequests bookingData);
       createdAt := created; updatedAt := updated |}.

(** The end of [createBookingLocked], once the cache has been seen to. *)
Definition finish (b : IBooking) : unit -> Prog IBooking :=
  fun _ => consoleLog (createdMessage (b_id b));; mret b.

(** A remainder [X] of [RedisConnection.invalidateRoomCache], inside its own
    handler and the handler of [createBooking]. *)
Definition invalidating (X : Prog unit) : Prog unit :=
  try_catch
    (try_catch X (fun error => consoleError "Error invalidating room cache:"))
    (fun error => consoleWarn "Cache invalidation failed:").

Definition roomPattern : string := "room:availability:" +:+ toHexString room +:+ ":*".

Definition afterScan : list string -> Prog unit :=
  fun keys =>
    if (0 <? length keys)%nat then
      call (RedisDel keys);;
      consoleLog (invalidatedMessage (length keys) (toHexString room))
    else mret tt.

Definition atInsert (r : IRoom) (created updated : Z) : Prog IBooking :=
  locked (insertedId ← call (BookingsInsertOne (bookingDoc r created updated));
          try_catch
            (active ← call IsConnectionActive;
             if active : bool then redis_invalidateRoomCache (toHexString room)
             else mret tt)
            (fun error => consoleWarn "Cache invalidation failed:");;
          consoleLog ("Booking created successfully with ID: " +:+ toHexString insertedId);;
          mret (bookingDoc r created updated insertedId)).

Definition atScan (b : IBooking) : Prog IBooking :=
  locked (invalidating (call (RedisScan roomPattern) ≫= afterScan) ≫= finish b).

Definition atDel (b : IBooking) (keys : list string) : Prog IBooking :=
  locked (invalidating
            (call (RedisDel keys);;
             consoleLog (invalidatedMessage (length keys) (toHexString room)))
          ≫= finish b).

Definition outcomeOf (outcome : result IBooking) : Prog IBooking :=
  match outcome with
  | Ok b => Ret b
  | Err e => Throw e
  end.

(** About to evaluate the script of [release]. *)
Definition atRelease (outcome : result IBooking) : Prog IBooking :=
  try_catch
    (result ← call (RedisEval (lockKey theLock) (lockValue theLock));
     if result =? 1 then
       consoleLog ("Lock released: " +:+ lockKey theLock);;
       mret true
     else
       consoleWarn ("Lock not released (may have expired or been taken by another process): "
                    +:+ lockKey theLock);;
       mret false)
    (fun error =>
       consoleError "Lock release error:";;
       mret false)
  ≫= fun _ => outcomeOf outcome.

End ControlPoints.

(** The control points of a call; each but the first and the last carries
    the owner value of the call's lock. *)
Inductive Stage :=
| Idle
| Acquiring (owner : string) (turns : nat) (attempt : Z)
| Sleeping (owner : string) (turns : nat) (attempt : Z)
| Recovering (owner : string) (turns : nat) (attempt : Z)
| ValidatingRoom (owner : string) (now : Z)
| ValidatingConflicts (owner : string) (now : Z) (r : IRoom)
| FindingRoom (owner : string)
| Inserting (owner : string) (r : IRoom) (created updated : Z)
| Scanning (owner : string) (b : IBooking)
| Deleting (owner : string) (b : IBooking) (keys : list string)
| Releasing (owner : string) (outcome : result IBooking)
| Finished (outcome : result IBooking).

(** The program that remains at a control point of
    [createBooking uid bookingData]. *)
Definition remainder (uid : string) (user room : ObjectId) (bookingData : ICreateBooking)
    (s : Stage) : Prog IBooking :=
  match s with
  | Idle => createBooking uid bookingData
  | Acquiring owner turns attempt => atAcquire user room bookingData owner turns attempt
  | Sleeping owner turns attempt => atSleep user room bookingData owner turns attempt
  | Recovering owner turns attempt => atRecover user room bookingData owner turns attempt
  | ValidatingRoom owner now => atValidateRoom user room bookingData owner now
  | ValidatingConflicts owner now r => atValidateConflicts user room bookingData owner now r
  | FindingRoom owner => atFindRoom user room bookingData owner
  | Inserting owner r created updated => atInsert user room bookingData owner r created updated
  | Scanning owner b => atScan room bookingData owner b
  | Deleting owner b keys => atDel room bookingData owner b keys
  | Releasing owner outcome => atRelease room bookingData owner outcome
  | Finished outcome => outcomeOf outcome
  end.

(** One step of a call, from control point to control point: the awaited
    operation takes effect and the synchronous code after it runs up to the
    next await. *)
Section Advance.

Variables (user room : ObjectId) (bookingData : ICreateBooking).

(** Into [release]: its synchronous head checks the connection. *)
Definition releasing (owner : string) (outcome : result IBooking) (w : World) : Stage * World :=
  if connectionActive w then (Releasing owner outcome, w)
  else (Finished outcome,
        emit (Logged WARN "Redis connection not active, cannot release lock") w).

(** On to the next turn of the loop of [acquire], or out of it. *)
Definition retry (owner : string) (turns : nat) (attempt : Z) (w : World) : Stage * World :=
  match turns with
  | O =>
      (Finished (Err (JsError ("Failed to acquire lock: "
                               +:+ lockKey (theLock room bookingData owner)))),
       emit (Logged LOG (lockFailedMessage (theLock room bookingData owner))) w)
  | S turns' => (Acquiring owner turns' (attempt + 1), w)
  end.

Definition advance (s : Stage) (w : World) : Stage * World :=
  match s with
  | Idle =>
      let w1 := set_randoms (tail (randoms w)) w in
      if connectionActive w then (Acquiring (ownerValue w) 5 0, w1)
      else (Finished (Err (JsError "Redis connection not active for locking")), w1)
  | Acquiring owner turns attempt =>
      let l := theLock room bookingData owner in
      let w1 := sent (CmdSetNX (lockKey l) owner 60) w in
      if nextRejected w then
        let w2 := emit (Logged ERROR (lockErrorMessage attempt)) w1 in
        if attempt =? 5 then (Finished (Err rejection), w2)
        else (Recovering owner turns attempt, w2)
      else
        match live w (lockKey l) with
        | Some _ =>
            if attempt <? 5
            then (Sleeping owner turns attempt, emit (Logged LOG (lockBusyMessage l attempt)) w1)
            else retry owner turns attempt w1
        | None =>
            (ValidatingRoom owner (clock w),
             emit (Logged LOG (creatingMessage room bookingData))
               (emit (Logged LOG (lockAcquiredMessage l))
                  (set_kv (<[lockKey l := (owner, clock w + 60 * 1000)]> (kv w)) w1)))
        end
  | Sleeping owner turns attempt => retry owner turns attempt (slept 200 w)
  | Recovering owner turns attempt => retry owner turns attempt (slept 200 w)
  | ValidatingRoom owner now =>
      match List.find (fun r => (r_id r =? room)%N) (rooms w) with
      | None =>
          releasing owner
            (Err (JsError (join ", " (basicErrors bookingData now ++ [msgRoomNotFound])))) w
      | Some r => (ValidatingConflicts owner now r, w)
      end
  | ValidatingConflicts owner now r =>
      let errs :=
        errorsAt bookingData now r (List.filter (conflictQuery room bookingData) (bookings w)) in
      if (length errs =? 0)%nat then (FindingRoom owner, w)
      else releasing owner (Err (JsError (join ", " errs))) w
  | FindingRoom owner =>
      match List.find (fun r => (r_id r =? room)%N) (rooms w) with
      | None => releasing owner (Err (JsError "Room not found")) w
      | Some r => (Inserting owner r (clock w) (clock w), w)
      end
  | Inserting owner r created updated =>
      let b := bookingDoc user room bookingData r created updated (nextOid w) in
      let w1 := inserted b w in
      if connectionActive w then (Scanning owner b, w1)
      else releasing owner (Ok b) (emit (Logged LOG (createdMessage (b_id b))) w1)
  | Scanning owner b =>
      let w1 := sent (CmdScan (roomPattern room)) w in
      let done := emit (Logged LOG (createdMessage (b_id b))) in
      if nextRejected w then
        releasing owner (Ok b) (done (emit (Logged ERROR "Error invalidating room cache:") w1))
      else
        let keys := scanKeys (roomPattern room) w1 in
        if (0 <? length keys)%nat then (Deleting owner b keys, w1)
        else releasing owner (Ok b) (done w1)
  | Deleting owner b keys =>
      let w1 := sent (CmdDel keys) w in
      let done := emit (Logged LOG (createdMessage (b_id b))) in
      if nextRejected w then
        releasing owner (Ok b) (done (emit (Logged ERROR "Error invalidating room cache:") w1))
      else
        releasing owner (Ok b)
          (done (emit (Logged LOG (invalidatedMessage (length keys) (toHexString room)))
                   (fst (delKeys keys w1))))
  | Releasing owner outcome =>
      let l := theLock room bookingData owner in
      let w1 := sent (CmdEval (lockKey l) owner) w in
      if nextRejected w then (Finished outcome, emit (Logged ERROR "Lock release error:") w1)
      else if bool_decide (live w (lockKey l) = Some owner) then
        (Finished outcome,
         emit (Logged LOG ("Lock released: " +:+ lockKey l))
           (set_kv (delete (lockKey l) (kv w)) w1))
      else
        (Finished outcome,
         emit (Logged WARN
                 ("Lock not released (may have expired or been taken by another process): "
                  +:+ lockKey l)) w1)
  | Finished outcome => (s, w)
  end.

End Advance.

(** ** Two calls for one room and one interval

    What the control points of two concurrent calls have to do with each
    other.  A call is in its critical section from the moment its SET NX
    succeeded until the script of [release] has been evaluated. *)
Definition critical (s : Stage) : bool :=
  match s with
  | ValidatingRoom _ _ | ValidatingConflicts _ _ _ | FindingRoom _ | Inserting _ _ _ _
  | Scanning _ _ | Deleting _ _ _ | Releasing _ _ => true
  | _ => false
  end.

(** The validation has passed and the document is not inserted yet. *)
Definition validated (s : Stage) : bool :=
  match s with
  | FindingRoom _ | Inserting _ _ _ _ => true
  | _ => false
  end.

(** The document the call has inserted, if it has. *)
Definition insertedBy (s : Stage) : option IBooking :=
  match s with
  | Scanning _ b | Deleting _ b _ | Releasing _ (Ok b) | Finished (Ok b) => Some b
  | _ => None
  end.

(** The sleeps the call may still take: [retryDelay] is 200 ms and
    [maxRetries] is 5. *)
Definition sleepsLeft (s : Stage) : Z :=
  match s with
  | Idle => 5
  | Acquiring _ turns _ | Sleeping _ turns _ | Recovering _ turns _ => Z.of_nat turns
  | _ => 0
  end.

Definition olist {A} (o : option A) : list A :=
  match o with
  | Some a => [a]
  | None => []
  end.

(** The owner value under which a call is in its critical section. *)
Definition holderOf (s : Stage) : option string :=
  match s with
  | ValidatingRoom owner _ | ValidatingConflicts owner _ _ | FindingRoom owner
  | Inserting owner _ _ _ | Scanning owner _ | Deleting owner _ _ | Releasing owner _ =>
      Some owner
  | _ => None
  end.

(** The error a call is about to throw, or has thrown. *)
Definition lost (s : Stage) : option Exn :=
  match s with
  | Releasing _ (Err e) | Finished (Err e) => Some e
  | _ => None
  end.

Section Exclusion.

Variables (room : ObjectId) (checkIn checkOut : Z).

(** The reservations in the way of the interval, and the lock key of the
    two calls. *)
Definition contested : IBooking -> bool := conflictFilter room checkIn checkOut None.
Definition theKey : string := bookingLockKey room checkIn checkOut.

(** What a control point carries with it. *)
Definition wfStage (s : Stage) : Prop :=
  match s with
  | Acquiring _ turns attempt => attempt + Z.of_nat turns = 5
  | Sleeping _ turns attempt | Recovering _ turns attempt =>
      attempt + Z.of_nat turns = 5 /\ attempt < 5
  | FindingRoom _ | Inserting _ _ _ _ => checkIn < checkOut
  | Scanning _ b | Releasing _ (Ok b) | Finished (Ok b) => contested b = true
  | Deleting _ b keys =>
      contested b = true /\ Forall (fun k => globMatch (roomPattern room) k = true) keys
  | _ => True
  end.

(** The invariant of two calls over one store: [before] are the bookings at
    the start and [budget] the time that may still pass by itself.  A call in
    its critical section holds the key under its owner value, for longer
    than the time that is left; no two calls are there at once; and a call
    that has passed the validation meets no reservation in its way. *)
Definition Inv (before : list IBooking) (budget : Z) (s1 s2 : Stage) (w : World) : Prop :=
  wfStage s1 /\ wfStage s2
  /\ 0 <= budget
  /\ budget + 200 * (sleepsLeft s1 + sleepsLeft s2) < 60000
  /\ critical s1 && critical s2 = false
  /\ (forall owner,
        holderOf s1 = Some owner \/ holderOf s2 = Some owner ->
        exists deadline,
          kv w !! theKey = Some (owner, deadline)
          /\ clock w + budget + 200 * (sleepsLeft s1 + sleepsLeft s2) < deadline)
  /\ (validated s1 || validated s2 = true -> List.filter contested (bookings w) = [])
  /\ bookings w = before ++ olist (insertedBy s1) ++ olist (insertedBy s2)
  /\ (insertedBy s1 = None \/ insertedBy s2 = None).

(** A call loses to the other: it throws the conflict message or the lock
    failure, and the other is in its critical section or has inserted. *)
Definition lostTo (s s' : Stage) : Prop :=
  forall e,
    lost s = Some e ->
    (e = conflictError \/ e = lockError room checkIn checkOut)
    /\ (critical s' = true \/ is_Some (insertedBy s')).

(** What a validating call has read so far, for the room [r] of the store. *)
Definition okStage (r : IRoom) (s : Stage) : Prop :=
  match s with
  | ValidatingRoom _ now => now <= checkIn
  | ValidatingConflicts _ now r' => now <= checkIn /\ r' = r
  | _ => True
  end.

(** Normal operation: Redis answers, the room [r] is in the store, the
    interval is free at the start and check-in is not reached while the two
    calls run; the key is held only by a call in its critical section. *)
Definition Normal (r : IRoom) (before : list IBooking) (budget : Z) (s1 s2 : Stage) (w : World)
    : Prop :=
  connectionActive w = true
  /\ Forall (fun f => f = false) (faults w)
  /\ List.find (fun x => (r_id x =? room)%N) (rooms w) = Some r
  /\ List.filter contested before = []
  /\ clock w + budget + 200 * (sleepsLeft s1 + sleepsLeft s2) <= checkIn
  /\ okStage r s1 /\ okStage r s2
  /\ (critical s1 || critical s2 = false -> live w theKey = None)
  /\ lostTo s1 s2 /\ lostTo s2 s1.

End Exclusion.

(** A request the room [r] can take: the dates in order, the party within
    the room's capacity, the room active. *)
Definition fits (d : ICreateBooking) (r : IRoom) : Prop :=
  c_checkInDate d < c_checkOutDate d
  /\ 1 <= c_numberOfGuests d <= maxOccupancy r
  /\ isActive r = true.

(** Two calls at their control points. *)
Definition configOf (uid1 : string) (user1 : ObjectId) (d1 : ICreateBooking)
    (uid2 : string) (user2 : ObjectId) (d2 : ICreateBooking) (room : ObjectId)
    (s1 s2 : Stage) (w : World) : Config :=
  {| first := remainder uid1 user1 room d1 s1;
     second := remainder uid2 user2 room d2 s2;
     shared := w |}.

(** The control points two calls have reached after a schedule. *)
Definition advanceBy (user1 : ObjectId) (d1 : ICreateBooking) (user2 : ObjectId)
    (d2 : ICreateBooking) (room : ObjectId) (t : Turn) (c : Stage * Stage * World)
    : Stage * Stage * World :=
  let '(s1, s2, w) := c in
  match t with
  | First => let '(s1', w') := advance user1 room d1 s1 w in (s1', s2, w')
  | Second => let '(s2', w') := advance user2 room d2 s2 w in (s1, s2', w')
  | Tick ms => (s1, s2, set_clock (clock w + Z.max 0 ms) w)
  end.

(** ** More example data *)

(** A second owner of the key of [lockR1]. *)
Definition lockR1' : RedisLock :=
  {| lockKey := "lock:booking:R1"; lockValue := "1700000061000-z9y8x7w6v";
     ttl := 60; retryDelay := 200; maxRetries := 5 |}.

(** The store with the key of [lockR1] held by the second owner for the
    coming minute. *)
Definition worldHeld : World :=
  set_kv (<[lockKey lockR1 := (lockValue lockR1', 1700000060000)]> ∅) world0.




(** The store after the second owner's minute has passed. *)
Definition worldExpired : World := set_clock 1700000061000 worldHeld.

(** ** services/bookingService.ts: updateBooking *)

(** [IUpdateBooking]: every field is optional. *)
Record IUpdateBooking := {
  u_checkInDate : option Z;
  u_checkOutDate : option Z;
  u_numberOfGuests : option Z;
  u_status : option BookingStatus;
  u_paymentStatus : option PaymentStatus;
  u_specialRequests : option string;
}.

(** [{ $set: { ...updateData, updatedAt: new Date() } }]: the fields present
    in [updateData] replace the document's. *)
Definition applyUpdate (updateData : IUpdateBooking) (now : Z) (b : IBooking) : IBooking :=
  {| b_id := b_id b; userId := userId b; roomId := roomId b;
     checkInDate := default (checkInDate b) (u_checkInDate updateData);
     checkOutDate := default (checkOutDate b) (u_checkOutDate updateData);
     numberOfGuests := default (numberOfGuests b) (u_numberOfGuests updateData);
     totalAmount := totalAmount b;
     status := default (status b) (u_status updateData);
     paymentStatus := default (paymentStatus b) (u_paymentStatus updateData);
     specialRequests :=
       match u_specialRequests updateData with
       | Some s => Some s
       | None => specialRequests b
       end;
     createdAt := createdAt b; updatedAt := now |}.

(** [updateData.checkInDate || updateData.checkOutDate]: a [Date] is truthy. *)
Definition datesChanged (updateData : IUpdateBooking) : bool :=
  match u_checkInDate updateData, u_checkOutDate updateData with
  | None, None => false
  | _, _ => true
  end.

Definition updateBooking (bookingId : string) (updateData : IUpdateBooking) : Prog IBooking :=
  oid ← objectId bookingId;
  now ← call DateNow;
  result ← call (BookingsFindOneAndUpdate (fun b => (b_id b =? oid)%N)
                   (applyUpdate updateData now));
  match result with
  | None => Throw (JsError "Booking not found")
  | Some result =>
      try_catch
        (active ← call IsConnectionActive;
         if active && datesChanged updateData
         then redis_invalidateRoomCache (toHexString (roomId result))
         else mret tt)
        (fun error => consoleWarn "Cache invalidation failed:");;
      mret result
  end.

(** ** services/roomService.ts: getAvailableRoomsWithPricing *)

(** [IRoomWithPrice]: the room and the price of the stay. *)
Record IRoomWithPrice := {
  p_room : IRoom;
  calculatedPrice : Z;
  originalPrice : Z;
  appliedDiscounts : list string;
  totalNights : Z;
}.

Definition getAvailableRoomsWithPricing (filter : IRoomAvailabilityFilter)
    : Prog (list IRoomWithPrice) :=
  availability ← checkRoomAvailability filter;
  let availableRooms := List.filter a_isAvailable availability in
  if (length availableRooms =? 0)%nat then mret []
  else
    let roomIds := map a_id availableRooms in
    rooms ← call (RoomsFind (fun r => existsb (N.eqb (r_id r)) roomIds));
    let totalNights := ceilDiv (f_checkOutDate filter - f_checkInDate filter) msPerDay in
    mret (map (fun room =>
                 let calculatedPrice := basePrice room * totalNights in
                 {| p_room := room;
                    calculatedPrice := calculatedPrice;
                    originalPrice := basePrice room * totalNights;
                    appliedDiscounts := [];
                    totalNights := totalNights |})
            rooms).

(** ** utils/validation.ts *)

(** [ValidationHelper.validateDateRange] *)
Definition validateDateRange (checkIn checkOut : Z) : Prog (list string) :=
  let errors := [] in
  let errors :=
    pushIf (checkIn >=? checkOut) "Check-in date must be before check-out date" errors in
  now ← call DateNow;
  let errors := pushIf (checkIn <? now) "Check-in date cannot be in the past" errors in
  mret errors.

(** The store of [world0] with Redis disconnected. *)
Definition worldDown : World :=
  {| clock := 1700000000000; isConnected := false; isReady := false; faults := [];
     randoms := ["k3j2h1g0f"]%string; kv := ∅; rooms := [roomR1]; bookings := [];
     nextOid := 100%N; trace := [] |}.

(** A later reservation of room 1, [2024-03-10, 2024-03-12). *)
Definition bookingB : IBooking :=
  {| b_id := 101%N; userId := 8%N; roomId := 1%N;
     checkInDate := mar 10; checkOutDate := mar 12; numberOfGuests := 1;
     totalAmount := 200; status := PENDING; paymentStatus := PAYMENT_PENDING;
     specialRequests := None; createdAt := 1700000000000; updatedAt := 1700000000000 |}.

Definition worldAB : World := set_nextOid 102%N (set_bookings [bookingA; bookingB] world0).

(** An update that only moves the dates, and one that only sets the status. *)
Definition moveTo (checkIn checkOut : Z) : IUpdateBooking :=
  {| u_checkInDate := Some checkIn; u_checkOutDate := Some checkOut;
     u_numberOfGuests := None; u_status := None; u_paymentStatus := None;
     u_specialRequests := None |}.

Definition statusTo (s : BookingStatus) : IUpdateBooking :=
  {| u_checkInDate := None; u_checkOutDate := None; u_numberOfGuests := None;
     u_status := Some s; u_paymentStatus := None; u_specialRequests := None |}.

(** The guarded invalidation at the end of [updateBooking]. *)
Definition invalidateAfterUpdate (updateData : IUpdateBooking) (room : ObjectId) : Prog unit :=
  try_catch
    (active ← call IsConnectionActive;
     if active && datesChanged updateData
     then redis_invalidateRoomCache (toHexString room)
     else mret tt)
    (fun error => consoleWarn "Cache invalidation failed:").

(** The store with reservation A and a cached verdict "unavailable" for its
    room and interval. *)
Definition worldStale : World :=
  set_kv (<[roomKey := (stringifyAvailability false 1700000000000, 1700000300000)]> ∅)
    (set_bookings [bookingA] world0).

(** ** validators/booking.ts: the refinements of createBookingSchema *)







(** ** The search namespace *)





(** ** Two calls at once: example schedules *)

(** Two calls for room 1 and [2024-03-01, 2024-03-04), by users 7 and 8. *)
Definition twoCalls (w : World) : Config :=
  concurrently (toHexString 7%N) (request (mar 1) (mar 4) 2)
    (toHexString 8%N) (request (mar 1) (mar 4) 2) w.

(** The second call finds the key held, sleeps, and gets the lock once the
    first has finished. *)
Definition raceSchedule : list Turn :=
  [First; Second; First; Second; Tick 50; First; Second; First; Second; First; First; First;
   First; Second; Second; Second; Second; Second].

(** The second call uses up its six attempts while the first is in its
    critical section. *)
Definition starvedSchedule : list Turn :=
  [First; First; Second; Second; Second; Second; Second; Second; Second; Second; Second;
   Second; Second; Second; First; First; First; First; First; First].

(** The first call is held up for 61 seconds between its validation and its
    insertion. *)
Definition stalledSchedule : list Turn :=
  [First; First; First; First; Tick 61000; Second; Second; Second; Second; Second; Second;
   Second; Second; First; First; First; First].

(** * Properties *)

(** ** Builtins *)

Example toISOString_feb : toISOString 1706745600000 = "2024-02-01T00:00:00.000Z"%string.
Proof. vm_compute. reflexivity. Qed.
Example toISOString_leap : toISOString 1709251199999 = "2024-02-29T23:59:59.999Z"%string.
Proof. vm_compute. reflexivity. Qed.
Example toISOString_before_epoch : toISOString (-1) = "1969-12-31T23:59:59.999Z"%string.
Proof. vm_compute. reflexivity. Qed.

(** ** Running composed programs *)

Lemma run_bind {A B} (p : Prog A) (f : A -> Prog B) (w : World) :
  run (p ≫= f) w =
  match run p w with
  | (w1, Ok a) => run (f a) w1
  | (w1, Err e) => (w1, Err e)
  end.
Proof.
  revert w. induction p as [a|e|X o k IH]; intros w; simpl; try reflexivity.
  destruct (exec o w) as [w1 r]. apply IH.
Qed.

Lemma run_call {X} (o : Op X) (w : World) : run (call o) w = exec o w.
Proof. simpl. destruct (exec o w) as [w1 [x|e]]; reflexivity. Qed.

Lemma run_try_catch {A} (p : Prog A) (h : Exn -> Prog A) (w : World) :
  run (try_catch p h) w =
  match run p w with
  | (w1, Ok a) => (w1, Ok a)
  | (w1, Err e) => run (h e) w1
  end.
Proof.
  revert w. induction p as [a|e|X o k IH]; intros w; simpl; try reflexivity.
  destruct (exec o w) as [w1 r]. apply IH.
Qed.

Lemma run_try_finally {A B} (p : Prog A) (f : Prog B) (w : World) :
  run (try_finally p f) w =
  let '(w1, r) := run p w in
  match run f w1 with
  | (w2, Ok _) => (w2, r)
  | (w2, Err e) => (w2, Err e)
  end.
Proof.
  revert w. induction p as [a|e|X o k IH]; intros w; simpl.
  - change (bind f (fun _ => Ret a)) with (f ≫= fun _ => Ret a).
    rewrite run_bind. destruct (run f w) as [w2 [b|e]]; reflexivity.
  - change (bind f (fun _ => Throw e)) with (f ≫= fun _ : B => @Throw A e).
    rewrite run_bind. destruct (run f w) as [w2 [b|e']]; reflexivity.
  - destruct (exec o w) as [w1 r]. apply IH.
Qed.

Lemma run_ret {A} (a : A) (w : World) : run (mret a) w = (w, Ok a).
Proof. reflexivity. Qed.

Lemma run_consoleLog (msg : string) (w : World) :
  run (consoleLog msg) w = (emit (Logged LOG msg) w, Ok tt).
Proof. reflexivity. Qed.

Lemma run_consoleWarn (msg : string) (w : World) :
  run (consoleWarn msg) w = (emit (Logged WARN msg) w, Ok tt).
Proof. reflexivity. Qed.

Lemma run_consoleError (msg : string) (w : World) :
  run (consoleError msg) w = (emit (Logged ERROR msg) w, Ok tt).
Proof. reflexivity. Qed.

Create Rewrite HintDb run.
#[global] Hint Rewrite @run_bind @run_call @run_try_catch @run_try_finally @run_ret
  run_consoleLog run_consoleWarn run_consoleError : run.

(** Symbolic execution of [run] through binds, handlers and operations. *)
Ltac run_steps := repeat (progress (autorewrite with run; cbn [exec])).
Ltac run_step := rewrite run_bind, run_call; cbn [exec].

(** ** The lock: release *)

(** What [release] does, case by case. *)
Lemma release_inactive (l : RedisLock) (w : World) :
  connectionActive w = false ->
  run (release l) w
  = (emit (Logged WARN "Redis connection not active, cannot release lock") w, Ok false).
Proof.
  intros H. unfold release. rewrite run_bind, run_call. simpl. rewrite H. reflexivity.
Qed.

Lemma send_world (c : RedisCmd) (w : World) :
  send c w = (sent c w, nextRejected w).
Proof.
  unfold send, nextRejected, sent. destruct (faults w) as [|r f] eqn:E; simpl; [|reflexivity].
  unfold set_faults, emit. simpl. rewrite E. reflexivity.
Qed.

Lemma release_active (l : RedisLock) (w : World) :
  connectionActive w = true ->
  let w1 := sent (CmdEval (lockKey l) (lockValue l)) w in
  run (release l) w =
  if nextRejected w then (emit (Logged ERROR "Lock release error:") w1, Ok false)
  else if bool_decide (holds l w)
       then (emit (Logged LOG ("Lock released: " +:+ lockKey l))
               (set_kv (delete (lockKey l) (kv w)) w1), Ok true)
       else (emit (Logged WARN
                     ("Lock not released (may have expired or been taken by another process): "
                      +:+ lockKey l)) w1, Ok false).
Proof.
  intros H. unfold release. rewrite run_bind, run_call. simpl exec. rewrite H. simpl negb.
  cbv iota. rewrite run_try_catch, run_bind, run_call. simpl exec.
  assert (isConnected w = true) as ->.
  { unfold connectionActive in H. destruct (isConnected w); [reflexivity | discriminate]. }
  rewrite run_bind, run_call. unfold exec. rewrite send_world.
  destruct (nextRejected w); [reflexivity|].
  unfold holds. change (live (sent _ _) (lockKey l)) with (live w (lockKey l)).
  destruct (bool_decide (live w (lockKey l) = Some (lockValue l))); reflexivity.
Qed.

(** C4. [release] never throws; it returns [true] exactly when the connection
    is active, the command is not rejected and the key is live with this
    lock's own owner value, and then the key is deleted; otherwise the
    keyspace is left as it was (so another owner's lock survives), a warning
    or an error is logged and [false] is returned. *)
Theorem release_owner_only (l : RedisLock) (w : World) :
  exists w' b,
    run (release l) w = (w', Ok b)
    /\ (b = true <-> connectionActive w = true /\ nextRejected w = false /\ holds l w)
    /\ (b = true -> kv w' = delete (lockKey l) (kv w))
    /\ (b = false -> kv w' = kv w /\ complained w')
    /\ (forall owner, owner <> lockValue l ->
          live w (lockKey l) = Some owner -> live w' (lockKey l) = Some owner).
Proof.
  destruct (connectionActive w) eqn:Hact.
  - pose proof (release_active l w Hact) as Hrun. cbv zeta in Hrun.
    destruct (nextRejected w) eqn:Hrej.
    + eexists _, false. split; [exact Hrun|]. repeat split; try discriminate.
      * intros (_ & ? & _). discriminate.
      * eexists ERROR, _. split; [reflexivity | discriminate].
      * intros owner _ Ho. exact Ho.
    + destruct (bool_decide (holds l w)) eqn:Hh.
      * apply bool_decide_eq_true in Hh.
        eexists _, true. split; [exact Hrun|]. repeat split; try discriminate; auto.
        intros owner Hne Ho. unfold holds in Hh. congruence.
      * apply bool_decide_eq_false in Hh.
        eexists _, false. split; [exact Hrun|]. repeat split; try discriminate.
        -- intros (_ & _ & ?). contradiction.
        -- eexists WARN, _. split; [reflexivity | discriminate].
        -- intros owner _ Ho. exact Ho.
  - eexists _, false. split; [apply release_inactive; exact Hact|].
    repeat split; try discriminate.
    + intros (? & _). discriminate.
    + eexists WARN, _. split; [reflexivity | discriminate].
    + intros owner _ Ho. exact Ho.
Qed.

Lemma release_never_throws (l : RedisLock) (w : World) :
  exists w' b, run (release l) w = (w', Ok b).
Proof.
  destruct (connectionActive w) eqn:Hact.
  - pose proof (release_active l w Hact) as Hrun. cbv zeta in Hrun.
    destruct (nextRejected w); [|destruct (bool_decide (holds l w))]; eauto.
  - rewrite release_inactive by assumption. eauto.
Qed.

(** ** The lock: withLock *)

Lemma run_withLock {T} (l : RedisLock) (fn : Prog T) (w : World) :
  match run (acquire l) w with
  | (w1, Ok true) =>
      let '(w2, outcome) := run fn w1 in
      let '(w3, _) := run (release l) w2 in
      run (withLock l fn) w = (w3, outcome)
  | (w1, Ok false) =>
      run (withLock l fn) w = (w1, Err (JsError ("Failed to acquire lock: " +:+ lockKey l)))
  | (w1, Err e) => run (withLock l fn) w = (w1, Err e)
  end.
Proof.
  unfold withLock. rewrite run_bind.
  destruct (run (acquire l) w) as [w1 [[|]|e]]; simpl negb; cbv iota; try reflexivity.
  rewrite run_try_finally, run_bind.
  destruct (run fn w1) as [w2 [t|e]]; rewrite ?run_ret;
    destruct (release_never_throws l w2) as (w3 & b & ->); reflexivity.
Qed.

(** ** The lock: acquire *)

(** One turn of the loop, outcome by outcome. *)
Lemma run_acquireAttempt (l : RedisLock) (attempt : Z) (w : World) :
  let w1 := sent (CmdSetNX (lockKey l) (lockValue l) (ttl l)) w in
  run (acquireAttempt l attempt) w =
  if nextRejected w then
    let w2 := emit (Logged ERROR (lockErrorMessage attempt)) w1 in
    if attempt =? maxRetries l then (w2, Err rejection)
    else (slept (retryDelay l) w2, Ok Continue)
  else
    match live w (lockKey l) with
    | Some _ =>
        if attempt <? maxRetries l
        then (slept (retryDelay l) (emit (Logged LOG (lockBusyMessage l attempt)) w1),
              Ok Continue)
        else (w1, Ok Continue)
    | None =>
        (emit (Logged LOG (lockAcquiredMessage l))
           (set_kv (<[lockKey l := (lockValue l, clock w + ttl l * 1000)]> (kv w)) w1),
         Ok (Return true))
    end.
Proof.
  intros w1. unfold acquireAttempt.
  rewrite run_try_catch, run_bind, run_call. unfold exec. rewrite send_world. fold w1.
  destruct (nextRejected w).
  - rewrite run_bind, run_consoleError.
    destruct (attempt =? maxRetries l); [reflexivity|].
    rewrite run_bind, run_call. reflexivity.
  - change (live w1 (lockKey l)) with (live w (lockKey l)).
    destruct (live w (lockKey l)) as [v|].
    + rewrite run_bind. destruct (attempt <? maxRetries l).
      * rewrite run_bind, run_consoleLog, run_call. reflexivity.
      * reflexivity.
    + rewrite run_bind, run_consoleLog. reflexivity.
Qed.

Lemma attemptsIn_app (a b : list Event) : attemptsIn (a ++ b) = attemptsIn a + attemptsIn b.
Proof. unfold attemptsIn. rewrite List.filter_app, length_app. lia. Qed.

Lemma sleepsIn_app (a b : list Event) : sleepsIn (a ++ b) = sleepsIn a + sleepsIn b.
Proof. unfold sleepsIn. rewrite List.filter_app, length_app. lia. Qed.

Lemma sleepsLast_app (ms : Z) (a b : list Event) :
  sleepsLast ms a -> sleepsLast ms b -> sleepsLast ms (a ++ b).
Proof.
  intros Ha Hb d Hin. apply in_app_or in Hin. destruct Hin; [apply Ha | apply Hb]; assumption.
Qed.

Lemma attemptsIn_nonneg (t : list Event) : 0 <= attemptsIn t.
Proof. unfold attemptsIn. lia. Qed.

Lemma sleepsIn_nonneg (t : list Event) : 0 <= sleepsIn t.
Proof. unfold sleepsIn. lia. Qed.

Lemma sameStore_refl (w : World) : sameStore w w.
Proof. repeat split. Qed.

Lemma sameStore_trans (w1 w2 w3 : World) :
  sameStore w1 w2 -> sameStore w2 w3 -> sameStore w1 w3.
Proof.
  unfold sameStore. intros (?&?&?&?&?) (?&?&?&?&?). repeat split; congruence.
Qed.

Ltac count_events :=
  unfold acquirePost, attemptsIn, sleepsIn;
  cbn [List.filter isSleep isAttempt length app trace emit sent slept set_faults
       set_clock set_kv kv clock];
  simpl Z.of_nat.

Ltac post_now :=
  unfold acquirePost; split; [reflexivity|];
  count_events; repeat split; try reflexivity; try lia.

Lemma rejectedAt_tail (w w1 : World) (i : Z) :
  faults w1 = tail (faults w) -> 0 <= i -> rejectedAt w1 i = rejectedAt w (i + 1).
Proof.
  intros Hf Hi. unfold rejectedAt. rewrite Hf.
  replace (Z.to_nat (i + 1)) with (S (Z.to_nat i)) by lia.
  destruct (faults w) as [|x f]; simpl; [destruct (Z.to_nat i)|]; reflexivity.
Qed.

Lemma rejectedAt_0 (w : World) : rejectedAt w 0 = nextRejected w.
Proof. unfold rejectedAt, nextRejected. destruct (faults w); reflexivity. Qed.

(** Extending a run of the loop by the turn that came before it. *)
Lemma acquirePost_after_turn (l : RedisLock) (n : Z) (w w1 w' : World) (r : result bool)
    (new turn : list Event) :
  0 <= n ->
  acquirePost l n w1 w' r new ->
  trace w1 = turn ++ trace w ->
  sameStore w w1 -> kv w1 = kv w -> faults w1 = tail (faults w) ->
  attemptsIn turn = 1 -> sleepsIn turn = 1 -> sleepsLast (retryDelay l) turn ->
  clock w1 = clock w + Z.max 0 (retryDelay l) ->
  (r = Ok false -> 1 <= n) ->
  acquirePost l (n + 1) w w' r (new ++ turn).
Proof.
  intros Hn (Ht & Hs & Ha & Hsl & Hc & Hk & Hr) Ht1 Hs1 Hkv Hf Hat Hst Hsl1 Hc1 Hfalse.
  unfold acquirePost. rewrite attemptsIn_app, sleepsIn_app, Hat, Hst.
  split. { rewrite Ht, Ht1, app_assoc. reflexivity. }
  split. { eapply sameStore_trans; eassumption. }
  split. { lia. }
  split. { apply sleepsLast_app; assumption. }
  split. { rewrite Hc, Hc1. lia. }
  split. { intros k Hne. rewrite Hk by assumption. rewrite Hkv. reflexivity. }
  destruct r as [[|]|e].
  - destruct Hr as (? & ? & Hrej & ?). repeat split; [lia | lia | | assumption].
    rewrite <- Hrej. replace (attemptsIn new + 1 - 1) with (attemptsIn new - 1 + 1) by lia.
    symmetry. apply rejectedAt_tail; [assumption | lia].
  - destruct Hr as (? & ? & Hrej & ?). specialize (Hfalse eq_refl).
    repeat split; [lia | lia | | congruence].
    intros _. rewrite <- Hrej by lia. replace (n + 1 - 1) with (n - 1 + 1) by lia.
    symmetry. apply rejectedAt_tail; [assumption | lia].
  - destruct Hr as (? & ? & ? & ? & Hrej & ?).
    repeat split; [assumption | lia | lia | lia | | congruence].
    rewrite <- Hrej. replace (n + 1 - 1) with (n - 1 + 1) by lia.
    symmetry. apply rejectedAt_tail; [assumption | lia].
Qed.

Lemma run_acquireLoop (l : RedisLock) (turns : nat) (attempt : Z) (w : World) :
  attempt + Z.of_nat turns = maxRetries l + 1 ->
  exists w' r new,
    run (acquireLoop l turns attempt) w = (w', r)
    /\ acquirePost l (Z.of_nat turns) w w' r new.
Proof.
  revert attempt w. induction turns as [|n IH]; intros attempt w Hturns.
  - eexists _, _, [_]. split; [reflexivity|]. post_now.
    intros d [Hd|[]]. discriminate.
  - cbn [acquireLoop]. rewrite run_bind, run_acquireAttempt. cbv zeta.
    destruct (nextRejected w) eqn:Hrej.
    + destruct (attempt =? maxRetries l) eqn:Hlast.
      * apply Z.eqb_eq in Hlast. assert (n = O) as -> by lia.
        eexists _, _, [_; _]. split; [reflexivity|]. post_now.
        all: try (intros d [Hd|[Hd|[]]]; discriminate).
        rewrite rejectedAt_0. assumption.
      * apply Z.eqb_neq in Hlast.
        edestruct (IH (attempt + 1)) as (w' & r & new & Hrun & Hpost); [lia|].
        eexists w', r, (new ++ [_; _; _]). split.
        { rewrite <- Hrun. reflexivity. }
        replace (Z.of_nat (S n)) with (Z.of_nat n + 1) by lia.
        eapply acquirePost_after_turn; try exact Hpost; try reflexivity; try lia.
        -- repeat split.
        -- intros d [Hd|[Hd|[Hd|[]]]]; try discriminate. congruence.
    + destruct (live w (lockKey l)) as [v|] eqn:Hlive.
      * destruct (attempt <? maxRetries l) eqn:Hlt.
        -- apply Z.ltb_lt in Hlt.
           edestruct (IH (attempt + 1)) as (w' & r & new & Hrun & Hpost); [lia|].
           eexists w', r, (new ++ [_; _; _]). split.
           { rewrite <- Hrun. reflexivity. }
           replace (Z.of_nat (S n)) with (Z.of_nat n + 1) by lia.
           eapply acquirePost_after_turn; try exact Hpost; try reflexivity; try lia.
           ++ repeat split.
           ++ intros d [Hd|[Hd|[Hd|[]]]]; try discriminate. congruence.
        -- apply Z.ltb_ge in Hlt. assert (n = O) as -> by lia.
           eexists _, _, [_; _]. split; [reflexivity|]. post_now.
           all: try (intros d [Hd|[Hd|[]]]; discriminate).
           intros _. rewrite rejectedAt_0. assumption.
      * eexists _, _, [_; _]. split; [reflexivity|]. post_now.
        all: try (intros d [Hd|[Hd|[]]]; discriminate).
        all: try (intros k Hne; rewrite lookup_insert_ne by congruence; reflexivity).
        all: try (rewrite lookup_insert_eq; reflexivity).
        rewrite rejectedAt_0. assumption.
Qed.

Lemma run_acquire_inactive (l : RedisLock) (w : World) :
  connectionActive w = false ->
  run (acquire l) w = (w, Err (JsError "Redis connection not active for locking")).
Proof.
  intros H. unfold acquire. rewrite run_bind, run_call. simpl exec. rewrite H. reflexivity.
Qed.

Lemma run_acquire_active (l : RedisLock) (w : World) :
  connectionActive w = true ->
  run (acquire l) w = run (acquireLoop l (Z.to_nat (maxRetries l + 1)) 0) w.
Proof.
  intros H. unfold acquire. rewrite run_bind, run_call. simpl exec. rewrite H.
  simpl negb. cbv iota. rewrite run_bind, run_call. simpl exec.
  unfold connectionActive in H. destruct (isConnected w); [reflexivity | discriminate].
Qed.

Lemma run_acquire (l : RedisLock) (w : World) :
  -1 <= maxRetries l ->
  connectionActive w = true ->
  exists w' r new,
    run (acquire l) w = (w', r) /\ acquirePost l (maxRetries l + 1) w w' r new.
Proof.
  intros Hmax Hact. rewrite run_acquire_active by assumption.
  destruct (run_acquireLoop l (Z.to_nat (maxRetries l + 1)) 0 w) as (w' & r & new & Hrun & Hpost);
    [lia|].
  rewrite Z2Nat.id in Hpost by lia. eauto.
Qed.

(** ** The conflict check *)

Lemma conflictFilter_spec (room : ObjectId) (checkIn checkOut : Z) (b : IBooking) :
  conflictFilter room checkIn checkOut None b = true <-> conflictsWith room checkIn checkOut b.
Proof.
  unfold conflictFilter, conflictsWith.
  rewrite !andb_true_iff, N.eqb_eq, Z.ltb_lt, Z.gtb_gt.
  destruct (status b); simpl; intuition (try discriminate; try congruence).
Qed.

Lemma filter_nonempty {A} (f : A -> bool) (l : list A) :
  List.filter f l <> [] <-> exists x, In x l /\ f x = true.
Proof.
  split.
  - intros H. destruct (List.filter f l) as [|x l'] eqn:E; [contradiction|].
    exists x. apply List.filter_In. rewrite E. left. reflexivity.
  - intros (x & Hin & Hf) E.
    assert (In x (List.filter f l)) as Hx by (apply List.filter_In; auto).
    rewrite E in Hx. destruct Hx.
Qed.

Lemma conflicts_found (room : ObjectId) (checkIn checkOut : Z) (db : list IBooking) :
  List.filter (conflictFilter room checkIn checkOut None) db <> []
  <-> exists b, In b db /\ conflictsWith room checkIn checkOut b.
Proof.
  rewrite filter_nonempty. split; intros (b & Hin & H); exists b; split; try assumption;
    apply conflictFilter_spec; assumption.
Qed.

Lemma length_pos_nonempty {A} (l : list A) : (0 <? length l)%nat = true <-> l <> [].
Proof. destruct l; simpl; split; intros; try discriminate; try congruence; auto. Qed.

Lemma objectId_run (s : string) (w : World) :
  run (objectId s) w = (w, match newObjectId s with Ok id => Ok id | Err e => Err e end).
Proof. unfold objectId. destruct (newObjectId s); reflexivity. Qed.

Lemma run_validateBooking (bookingData : ICreateBooking) (w : World) :
  run (validateBooking bookingData) w =
  match newObjectId (c_roomId bookingData) with
  | Err e => (w, Err e)
  | Ok roomObjectId =>
      match List.find (fun r => (r_id r =? roomObjectId)%N) (rooms w) with
      | None =>
          (w, Ok {| isValid := false;
                    errors :=
                      pushIf (c_numberOfGuests bookingData <=? 0) msgGuests
                        (pushIf (c_checkInDate bookingData <? clock w) msgPast
                           (pushIf (c_checkInDate bookingData >=? c_checkOutDate bookingData)
                              msgDateOrder []))
                      ++ [msgRoomNotFound] |})
      | Some room =>
          let errs := validationErrors bookingData room roomObjectId w in
          (w, Ok {| isValid := (length errs =? 0)%nat; errors := errs |})
      end
  end.
Proof.
  unfold validateBooking. rewrite run_bind, objectId_run.
  destruct (newObjectId (c_roomId bookingData)) as [oid|e]; [|reflexivity].
  run_steps.
  destruct (List.find _ (rooms w)) as [room|]; [|reflexivity].
  run_steps. reflexivity.
Qed.

(** ** Frames: what cache and lock code leaves alone *)

Lemma delKeys_sameStore (keys : list string) (w : World) :
  sameStore w (fst (delKeys keys w)).
Proof.
  revert w. induction keys as [|k ks IH]; intros w; simpl.
  - apply sameStore_refl.
  - specialize (IH (set_kv (delete k (kv w)) w)).
    destruct (delKeys ks _) as [w' m]. exact IH.
Qed.

Lemma exec_sameStore {X} (o : Op X) (w : World) :
  writesBookings o = false -> sameStore w (fst (exec o w)).
Proof.
  destruct o; simpl; intros H; try discriminate; rewrite ?send_world;
    try (pose proof (delKeys_sameStore keys (sent (CmdDel keys) w));
         destruct (delKeys keys _));
    repeat match goal with
           | |- context [match ?x with _ => _ end] => destruct x
           end;
    try assumption; repeat split.
Qed.

Lemma exec_infallible {X} (o : Op X) (w : World) :
  infallible o = true -> exists x, snd (exec o w) = Ok x.
Proof.
  destruct o; simpl; intros H; try discriminate;
    repeat match goal with
           | |- context [match ?x with _ => _ end] => destruct x
           end;
    eauto.
Qed.

Lemma readOnly_sameStore {A} (p : Prog A) :
  readOnly p -> forall w, sameStore w (fst (run p w)).
Proof.
  induction 1 as [a|e|X o k Ho Hk IH]; intros w; simpl; try apply sameStore_refl.
  pose proof (exec_sameStore o w Ho) as Hs.
  destruct (exec o w) as [w1 r]. eapply sameStore_trans; [exact Hs | apply IH].
Qed.

Lemma noThrow_run {A} (p : Prog A) :
  noThrow p -> forall w, exists w' a, run p w = (w', Ok a).
Proof.
  induction 1 as [a|X o k Hk IHk He IHe]; intros w; simpl; [eauto|].
  destruct (infallible o) eqn:Hi.
  - destruct (exec_infallible o w Hi) as (x & Hx).
    destruct (exec o w) as [w1 r]. simpl in Hx. subst r. apply IHk.
  - destruct (exec o w) as [w1 [x|e]]; [apply IHk | apply IHe; reflexivity].
Qed.

Lemma readOnly_bind {A B} (p : Prog A) (f : A -> Prog B) :
  readOnly p -> (forall a, readOnly (f a)) -> readOnly (p ≫= f).
Proof.
  intros Hp Hf. induction Hp; simpl; try constructor; auto.
Qed.

Lemma readOnly_try_catch {A} (p : Prog A) (h : Exn -> Prog A) :
  readOnly p -> (forall e, readOnly (h e)) -> readOnly (try_catch p h).
Proof.
  intros Hp Hh. induction Hp; simpl; try constructor; auto.
Qed.

Lemma readOnly_call {X} (o : Op X) : writesBookings o = false -> readOnly (call o).
Proof. intros H. constructor; [assumption|]. intros [x|e]; constructor. Qed.

Lemma noThrow_bind {A B} (p : Prog A) (f : A -> Prog B) :
  noThrow p -> (forall a, noThrow (f a)) -> noThrow (p ≫= f).
Proof.
  intros Hp Hf. induction Hp; simpl; [apply Hf|]. constructor; auto.
Qed.

Lemma noThrow_try_catch {A} (p : Prog A) (h : Exn -> Prog A) :
  (forall e, noThrow (h e)) -> noThrow (try_catch p h).
Proof.
  intros Hh. induction p; simpl; try constructor; auto.
Qed.

Lemma noThrow_call {X} (o : Op X) : infallible o = true -> noThrow (call o).
Proof.
  intros H. constructor; [constructor|]. intros H'. congruence.
Qed.

Ltac solve_readOnly :=
  repeat first
    [ progress intros
    | progress cbv zeta
    | apply readOnly_Ret | apply readOnly_Throw
    | apply readOnly_call; reflexivity
    | apply readOnly_bind
    | apply readOnly_try_catch
    | match goal with
      | |- readOnly (mret _) => apply readOnly_Ret
      | |- readOnly (consoleLog _) => apply readOnly_call; reflexivity
      | |- readOnly (consoleWarn _) => apply readOnly_call; reflexivity
      | |- readOnly (consoleError _) => apply readOnly_call; reflexivity
      | |- readOnly (if ?c then _ else _) => destruct c
      | |- readOnly (match ?c with _ => _ end) => destruct c
      end ].

Ltac solve_noThrow :=
  repeat first
    [ progress intros
    | progress cbv zeta
    | apply noThrow_Ret
    | apply noThrow_call; reflexivity
    | apply noThrow_try_catch
    | apply noThrow_bind
    | match goal with
      | |- noThrow (mret _) => apply noThrow_Ret
      | |- noThrow (consoleLog _) => apply noThrow_call; reflexivity
      | |- noThrow (consoleWarn _) => apply noThrow_call; reflexivity
      | |- noThrow (consoleError _) => apply noThrow_call; reflexivity
      | |- noThrow (if ?c then _ else _) => destruct c
      | |- noThrow (match ?c with _ => _ end) => destruct c
      end ].

Lemma getRoomAvailability_readOnly (roomId dateRange : string) :
  readOnly (getRoomAvailability roomId dateRange).
Proof. unfold getRoomAvailability. solve_readOnly. Qed.

Lemma getRoomAvailability_noThrow (roomId dateRange : string) :
  noThrow (getRoomAvailability roomId dateRange).
Proof. unfold getRoomAvailability. solve_noThrow. Qed.

Lemma setRoomAvailability_readOnly (roomId dateRange : string) (b : bool) (ttl : Z) :
  readOnly (setRoomAvailability roomId dateRange b ttl).
Proof. unfold setRoomAvailability. solve_readOnly. Qed.

Lemma setRoomAvailability_noThrow (roomId dateRange : string) (b : bool) (ttl : Z) :
  noThrow (setRoomAvailability roomId dateRange b ttl).
Proof. unfold setRoomAvailability. solve_noThrow. Qed.

Lemma redis_invalidateRoomCache_readOnly (roomId : string) :
  readOnly (redis_invalidateRoomCache roomId).
Proof. unfold redis_invalidateRoomCache. solve_readOnly. Qed.

Lemma redis_invalidateRoomCache_noThrow (roomId : string) :
  noThrow (redis_invalidateRoomCache roomId).
Proof. unfold redis_invalidateRoomCache. solve_noThrow. Qed.

Lemma service_invalidateRoomCache_readOnly (roomId : string) :
  readOnly (service_invalidateRoomCache roomId).
Proof. unfold service_invalidateRoomCache. solve_readOnly. Qed.

Lemma service_invalidateRoomCache_noThrow (roomId : string) :
  noThrow (service_invalidateRoomCache roomId).
Proof. unfold service_invalidateRoomCache. solve_noThrow. Qed.

Lemma cachedAvailability_readOnly (room : IRoom) (dateRange : string) :
  readOnly (cachedAvailability room dateRange).
Proof.
  unfold cachedAvailability. solve_readOnly.
Qed.

Lemma cachedAvailability_noThrow (room : IRoom) (dateRange : string) :
  noThrow (cachedAvailability room dateRange).
Proof. unfold cachedAvailability. solve_noThrow. Qed.

Lemma release_readOnly (l : RedisLock) : readOnly (release l).
Proof. unfold release. solve_readOnly. Qed.

Lemma roomAvailability_miss (filter : IRoomAvailabilityFilter) (dateRange : string)
    (room : IRoom) (w w1 : World) :
  run (cachedAvailability room dateRange) w = (w1, Ok None) ->
  let found :=
    List.filter (conflictFilter (r_id room) (f_checkInDate filter) (f_checkOutDate filter)
                   (f_excludeBookingId filter)) (bookings w) in
  exists w',
    run (roomAvailability filter dateRange room) w
    = (w', Ok (availabilityOf room (length found =? 0)%nat (map b_id found))).
Proof.
  intros Hmiss found. unfold roomAvailability. rewrite run_bind, Hmiss. run_steps.
  pose proof (readOnly_sameStore _ (cachedAvailability_readOnly room dateRange) w) as Hs.
  rewrite Hmiss in Hs. destruct Hs as (_ & Hb & _). simpl in Hb. rewrite Hb. fold found.
  destruct (connectionActive w1).
  - rewrite run_bind.
    destruct (noThrow_run _ (setRoomAvailability_noThrow (toHexString (r_id room)) dateRange
                               (length found =? 0)%nat 300) w1) as (w2 & [] & ->).
    run_steps. eexists. reflexivity.
  - run_steps. eexists. reflexivity.
Qed.

Lemma pushIf_In (c : bool) (msg m : string) (errors : list string) :
  In m (pushIf c msg errors) <-> In m errors \/ (c = true /\ m = msg).
Proof.
  unfold pushIf. destruct c.
  - rewrite in_app_iff. simpl. intuition.
  - intuition discriminate.
Qed.

Lemma msgConflict_in_errors (bookingData : ICreateBooking) (room : IRoom) (oid : ObjectId)
    (w : World) :
  In msgConflict (validationErrors bookingData room oid w)
  <-> exists b, In b (bookings w)
        /\ conflictsWith oid (c_checkInDate bookingData) (c_checkOutDate bookingData) b.
Proof.
  unfold validationErrors. rewrite !pushIf_In. rewrite <- conflicts_found.
  rewrite length_pos_nonempty. simpl. unfold msgCapacity.
  intuition (try discriminate).
Qed.

(** C2. The conflict query finds a reservation exactly when an active
    (pending or confirmed) reservation of the same room has
    [existing.checkIn < candidate.checkOut] and
    [existing.checkOut > candidate.checkIn].  [validateBooking], for a room it
    finds, reports the conflict message under the same condition, and so does
    the availability query when it goes to the database (no cached verdict,
    no excluded booking).  With an active reservation [Feb 1, Feb 5), the
    candidate [Feb 3, Feb 6) conflicts and [Feb 5, Feb 8) does not. *)
Theorem conflict_check_half_open :
  (forall room checkIn checkOut db,
      List.filter (conflictFilter room checkIn checkOut None) db <> []
      <-> exists b, In b db /\ conflictsWith room checkIn checkOut b)
  /\ (forall bookingData w oid room,
        newObjectId (c_roomId bookingData) = Ok oid ->
        List.find (fun r => (r_id r =? oid)%N) (rooms w) = Some room ->
        exists v,
          run (validateBooking bookingData) w = (w, Ok v)
          /\ (In msgConflict (errors v)
              <-> exists b, In b (bookings w)
                    /\ conflictsWith oid (c_checkInDate bookingData)
                         (c_checkOutDate bookingData) b))
  /\ (forall filter dateRange room w w1,
        f_excludeBookingId filter = None ->
        run (cachedAvailability room dateRange) w = (w1, Ok None) ->
        exists w' a,
          run (roomAvailability filter dateRange room) w = (w', Ok a)
          /\ (a_isAvailable a = false
              <-> exists b, In b (bookings w)
                    /\ conflictsWith (r_id room) (f_checkInDate filter)
                         (f_checkOutDate filter) b))
  /\ (exists w, run (validateBooking (request (feb 3) (feb 6) 2)) worldFeb
                = (w, Ok {| isValid := false; errors := [msgConflict] |}))
  /\ (exists w, run (validateBooking (request (feb 5) (feb 8) 2)) worldFeb
                = (w, Ok {| isValid := true; errors := [] |})).
Proof.
  split; [intros; apply conflicts_found|].
  split.
  { intros bookingData w oid room Hoid Hroom.
    eexists. rewrite run_validateBooking, Hoid, Hroom. cbv zeta.
    split; [reflexivity|]. cbn [errors]. apply msgConflict_in_errors. }
  split.
  { intros filter dateRange room w w1 Hex Hmiss.
    destruct (roomAvailability_miss filter dateRange room w w1 Hmiss) as (w' & Hrun).
    eexists w', _. split; [exact Hrun|]. clear Hrun. cbn [a_isAvailable availabilityOf].
    rewrite Hex, <- conflicts_found.
    destruct (List.filter _ (bookings w)); simpl; split; intros H; done. }
  split; eexists; vm_compute; reflexivity.
Qed.

(** ** Frames that hold for every program *)

Lemma delKeys_frame (keys : list string) (w : World) :
  let w' := fst (delKeys keys w) in
  faults w' = faults w /\ isConnected w' = isConnected w /\ isReady w' = isReady w
  /\ clock w' = clock w /\ trace w' = trace w /\ rooms w' = rooms w.
Proof.
  revert w. induction keys as [|k ks IH]; intros w; simpl; [repeat split|].
  specialize (IH (set_kv (delete k (kv w)) w)).
  destruct (delKeys ks _) as [w' m]. exact IH.
Qed.

Lemma exec_connection {X} (o : Op X) (w : World) :
  let w' := fst (exec o w) in
  isConnected w' = isConnected w /\ isReady w' = isReady w /\ rooms w' = rooms w
  /\ (faults w' = faults w \/ faults w' = tail (faults w)).
Proof.
  destruct o; simpl; rewrite ?send_world;
    try (pose proof (delKeys_frame keys (sent (CmdDel keys) w)) as Hd;
         destruct (delKeys keys _); simpl in Hd; destruct Hd as (Hf & Hc & Hr & _ & _ & Hro));
    repeat match goal with
           | |- context [match ?x with _ => _ end] => destruct x eqn:?
           end;
    simpl; repeat split; auto; try congruence.
Qed.

Lemma Forall_tail {A} (P : A -> Prop) (l : list A) : Forall P l -> Forall P (tail l).
Proof. intros H. destruct H; simpl; [constructor | assumption]. Qed.

(** No operation opens or closes the connection, changes the rooms, or adds
    coming rejections. *)
Lemma run_connection {A} (p : Prog A) (w : World) :
  let w' := fst (run p w) in
  isConnected w' = isConnected w /\ isReady w' = isReady w /\ rooms w' = rooms w
  /\ (Forall (fun f => f = false) (faults w) -> Forall (fun f => f = false) (faults w')).
Proof.
  revert w. induction p as [a|e|X o k IH]; intros w; simpl; [auto | auto |].
  pose proof (exec_connection o w) as Ho. simpl in Ho.
  destruct (exec o w) as [w1 r]. simpl in Ho. destruct Ho as (Hc & Hr & Hro & Hf).
  specialize (IH r w1). simpl in IH. destruct IH as (Hc' & Hr' & Hro' & Hf').
  repeat split; try congruence.
  intros Hall. apply Hf'. destruct Hf as [-> | ->]; [assumption | apply Forall_tail; assumption].
Qed.

Lemma nextRejected_clean (w : World) :
  Forall (fun f => f = false) (faults w) -> nextRejected w = false.
Proof.
  unfold nextRejected. intros H. destruct H; [reflexivity | assumption].
Qed.

(** ** createBooking, step by step *)

Lemma run_createBookingLock (room : ObjectId) (checkIn checkOut : Z) (w : World) :
  run (createBookingLock (toHexString room) checkIn checkOut None) w
  = (set_randoms (tail (randoms w)) w, Ok (bookingLock room checkIn checkOut (ownerValue w))).
Proof.
  unfold createBookingLock, newRedisLock, ownerValue. run_steps.
  destruct (randoms w) as [|x rs] eqn:E.
  - run_steps. destruct w; simpl in *; subst; reflexivity.
  - run_steps. reflexivity.
Qed.

Lemma run_createBooking (userId : string) (bookingData : ICreateBooking) (w : World)
    (user room : ObjectId) :
  newObjectId userId = Ok user ->
  newObjectId (c_roomId bookingData) = Ok room ->
  run (createBooking userId bookingData) w
  = run (withLock (bookingLock room (c_checkInDate bookingData) (c_checkOutDate bookingData)
                     (ownerValue w))
           (createBookingLocked user room bookingData))
        (set_randoms (tail (randoms w)) w).
Proof.
  intros Hu Hr. unfold createBooking.
  rewrite run_bind, objectId_run, Hu. rewrite run_bind, objectId_run, Hr.
  rewrite run_bind, run_createBookingLock. reflexivity.
Qed.

Lemma run_createBookingLocked (user room : ObjectId) (bookingData : ICreateBooking)
    (w : World) :
  newObjectId (c_roomId bookingData) = Ok room ->
  let w1 := emit (Logged LOG (creatingMessage room bookingData)) w in
  run (createBookingLocked user room bookingData) w =
  match List.find (fun r => (r_id r =? room)%N) (rooms w) with
  | None =>
      (w1, Err (JsError (join ", " (basicErrors bookingData (clock w) ++ [msgRoomNotFound]))))
  | Some r =>
      let errs := validationErrors bookingData r room w in
      if (length errs =? 0)%nat then
        let b := newBooking user room bookingData r (clock w) (nextOid w) in
        let '(w3, _) := run (invalidateAfterCreate room) (inserted b w1) in
        (emit (Logged LOG (createdMessage (nextOid w))) w3, Ok b)
      else (w1, Err (JsError (join ", " errs)))
  end.
Proof.
  intros Hr w1. unfold createBookingLocked.
  rewrite run_bind, run_consoleLog. fold (creatingMessage room bookingData). fold w1.
  rewrite run_bind, run_validateBooking, Hr.
  change (rooms w1) with (rooms w).
  destruct (List.find _ (rooms w)) as [r|] eqn:Hfind; [|reflexivity].
  cbv zeta. change (validationErrors bookingData r room w1)
    with (validationErrors bookingData r room w).
  cbn [isValid errors].
  destruct (length (validationErrors bookingData r room w) =? 0)%nat; [|reflexivity].
  cbn [negb]. cbv iota. rewrite run_bind, run_call. cbn [exec].
  change (rooms w1) with (rooms w). rewrite Hfind.
  do 3 run_step. rewrite run_bind.
  change (try_catch _ _) with (invalidateAfterCreate room).
  match goal with
  | |- context [run (invalidateAfterCreate room) ?x] =>
      change x with (inserted (newBooking user room bookingData r (clock w) (nextOid w)) w1)
  end.
  assert (noThrow (invalidateAfterCreate room)) as Hn by (unfold invalidateAfterCreate; solve_noThrow).
  destruct (noThrow_run _ Hn (inserted (newBooking user room bookingData r (clock w) (nextOid w)) w1))
    as (w3 & [] & ->).
  run_steps. reflexivity.
Qed.

(** ** Key patterns *)

Lemma globMatch_star (p s : string) :
  globMatch (String "*" p) s
  = globMatch p s || match s with EmptyString => false | String _ s' => globMatch (String "*" p) s' end.
Proof. destruct s; reflexivity. Qed.

Lemma globMatch_star_any (s : string) : globMatch "*" s = true.
Proof. induction s as [|c s IH]; [reflexivity|]. rewrite globMatch_star, IH. apply orb_true_r. Qed.

Lemma globMatch_literal_cons (c : ascii) (p s : string) :
  literalChar c = true ->
  globMatch (String c p) s
  = match s with EmptyString => false | String d s' => Ascii.eqb c d && globMatch p s' end.
Proof.
  unfold literalChar. intros H. apply andb_true_iff in H as [H1 H2].
  apply negb_true_iff in H1, H2. simpl. rewrite H1, H2. reflexivity.
Qed.

(** A literal prefix followed by [*] matches exactly the keys with that prefix. *)
Lemma globMatch_prefix (p k : string) :
  literal p = true ->
  globMatch (p +:+ "*") k = true <-> exists s, k = p +:+ s.
Proof.
  revert k. induction p as [|c p IH]; intros k Hlit.
  - simpl String.append. split; [intros _; exists k; reflexivity | intros _; apply globMatch_star_any].
  - simpl in Hlit. apply andb_true_iff in Hlit as [Hc Hp].
    change (String c p +:+ "*") with (String c (p +:+ "*")).
    rewrite globMatch_literal_cons by assumption.
    destruct k as [|d k].
    + split; [discriminate | intros (s & Hs); discriminate].
    + rewrite andb_true_iff, Ascii.eqb_eq, (IH k Hp). split.
      * intros (-> & s & ->). exists s. reflexivity.
      * intros (s & Hs). injection Hs as -> ->. split; [reflexivity | eauto].
Qed.

Lemma literal_app (a b : string) : literal (a +:+ b) = literal a && literal b.
Proof.
  induction a as [|c a IH]; [reflexivity|]. simpl. rewrite IH. apply andb_assoc.
Qed.

Lemma hexDigit_literal (n : N) : literalChar (hexDigit n) = true.
Proof.
  unfold hexDigit. generalize (N.to_nat n). intros i.
  do 16 (destruct i as [|i]; [reflexivity|]). destruct i; reflexivity.
Qed.

Lemma hexDigits_literal (len : nat) (n : N) (acc : string) :
  literal acc = true -> literal (hexDigits len n acc) = true.
Proof.
  revert n acc. induction len as [|len IH]; intros n acc Hacc; simpl; [assumption|].
  apply IH. simpl. rewrite hexDigit_literal, Hacc. reflexivity.
Qed.

Lemma toHexString_literal (id : ObjectId) : literal (toHexString id) = true.
Proof. apply hexDigits_literal. reflexivity. Qed.

Lemma append_assoc (a b c : string) : (a +:+ b) +:+ c = a +:+ (b +:+ c).
Proof.
  induction a as [|x a IH]; [reflexivity|].
  change (String x ((a +:+ b) +:+ c) = String x (a +:+ (b +:+ c))). f_equal. exact IH.
Qed.

(** The pattern of [RedisConnection.invalidateRoomCache] matches exactly the
    keys [room:availability:<roomId>:...]. *)
Lemma roomPattern_matches (roomId k : string) :
  literal roomId = true ->
  globMatch ("room:availability:" +:+ roomId +:+ ":*") k = true
  <-> exists dateRange, k = availabilityKey roomId dateRange.
Proof.
  intros Hlit.
  change ("room:availability:" +:+ roomId +:+ ":*")
    with ("room:availability:" +:+ (roomId +:+ (":" +:+ "*"))).
  rewrite <- !append_assoc. rewrite globMatch_prefix.
  - unfold availabilityKey. split; intros (s & ->); exists s; rewrite <- !append_assoc; reflexivity.
  - rewrite !literal_app, Hlit. reflexivity.
Qed.

Lemma availabilityKey_matches (roomId dateRange : string) :
  literal roomId = true ->
  globMatch ("room:availability:" +:+ roomId +:+ ":*") (availabilityKey roomId dateRange) = true.
Proof. intros Hlit. apply roomPattern_matches; eauto. Qed.

(** ** SCAN and DEL *)

Lemma scanKeys_In (pattern k : string) (w : World) :
  In k (scanKeys pattern w) <-> globMatch pattern k = true /\ is_Some (live w k).
Proof.
  unfold scanKeys. rewrite List.filter_In, andb_true_iff, bool_decide_eq_true.
  split; [tauto|]. intros (Hm & Hl). split; [|tauto].
  unfold live in Hl. destruct (kv w !! k) as [[v t]|] eqn:E; [|destruct Hl; discriminate].
  apply in_map_iff. exists (k, (v, t)). split; [reflexivity|].
  apply list_elem_of_In, elem_of_map_to_list. assumption.
Qed.

Lemma delKeys_kv (keys : list string) (w : World) (k : string) :
  kv (fst (delKeys keys w)) !! k = if bool_decide (k ∈ keys) then None else kv w !! k.
Proof.
  revert w. induction keys as [|x ks IH]; intros w; simpl; [reflexivity|].
  specialize (IH (set_kv (delete x (kv w)) w)).
  destruct (delKeys ks _) as [w' m]. simpl in *. rewrite IH. simpl.
  destruct (decide (x = k)) as [->|Hne].
  - rewrite (bool_decide_eq_true_2 (k ∈ k :: ks)) by (apply elem_of_cons; left; reflexivity).
    rewrite lookup_delete_eq. destruct (bool_decide (k ∈ ks)); reflexivity.
  - rewrite lookup_delete_ne by assumption.
    destruct (bool_decide (k ∈ ks)) eqn:E.
    + apply bool_decide_eq_true in E.
      rewrite bool_decide_eq_true_2 by (apply elem_of_cons; right; assumption).
      reflexivity.
    + apply bool_decide_eq_false in E.
      rewrite bool_decide_eq_false_2; [reflexivity|].
      intros H. apply elem_of_cons in H as [->|H]; [apply Hne; reflexivity | tauto].
Qed.

Lemma sent_clean (c : RedisCmd) (w : World) :
  Forall (fun f => f = false) (faults w) -> Forall (fun f => f = false) (faults (sent c w)).
Proof. intros H. apply Forall_tail. exact H. Qed.

(** Deleting the live keys selected by [m] leaves no live key that [m]
    selects, and the others as they were. *)
Lemma scan_del_live (m : string -> bool) (w w' : World) (keys : list string) :
  (forall k, k ∈ keys <-> m k = true /\ is_Some (live w k)) ->
  clock w' = clock w ->
  (forall k, kv w' !! k = if bool_decide (k ∈ keys) then None else kv w !! k) ->
  forall k, live w' k = if m k then None else live w k.
Proof.
  intros Hkeys Hclock Hkv k. unfold live at 1. rewrite Hkv, Hclock.
  destruct (bool_decide (k ∈ keys)) eqn:E.
  - apply bool_decide_eq_true, Hkeys in E as [-> _]. reflexivity.
  - apply bool_decide_eq_false in E. fold (live w k).
    destruct (m k) eqn:Hm; [|reflexivity].
    destruct (live w k) eqn:Hl; [|reflexivity].
    exfalso. apply E, Hkeys. split; [assumption | eauto].
Qed.

Lemma run_redis_invalidateRoomCache (roomId : string) (w : World) :
  isConnected w = true ->
  Forall (fun f => f = false) (faults w) ->
  exists w',
    run (redis_invalidateRoomCache roomId) w = (w', Ok tt)
    /\ clock w' = clock w
    /\ forall k, live w' k
                 = if globMatch ("room:availability:" +:+ roomId +:+ ":*") k then None
                   else live w k.
Proof.
  intros Hconn Hclean. unfold redis_invalidateRoomCache.
  set (pattern := "room:availability:" +:+ roomId +:+ ":*").
  rewrite run_try_catch, run_bind, run_call. cbn [exec]. rewrite Hconn.
  rewrite run_bind, run_call. cbn [exec]. rewrite send_world.
  rewrite (nextRejected_clean w Hclean).
  set (w1 := sent (CmdScan pattern) w).
  assert (forall k, k ∈ scanKeys pattern w1 <-> globMatch pattern k = true /\ is_Some (live w k))
    as Hkeys.
  { intros k. rewrite list_elem_of_In. exact (scanKeys_In pattern k w1). }
  destruct (0 <? length (scanKeys pattern w1))%nat eqn:Hlen.
  - rewrite run_bind, run_call. cbn [exec]. rewrite send_world.
    rewrite (nextRejected_clean w1) by (apply sent_clean; assumption).
    pose proof (delKeys_kv (scanKeys pattern w1) (sent (CmdDel (scanKeys pattern w1)) w1)) as Hkv.
    pose proof (delKeys_frame (scanKeys pattern w1) (sent (CmdDel (scanKeys pattern w1)) w1))
      as (_ & _ & _ & Hclock & _).
    destruct (delKeys _ _) as [w2 n]. simpl in Hkv, Hclock.
    rewrite run_consoleLog. eexists. split; [reflexivity|]. split; [exact Hclock|].
    apply (scan_del_live (globMatch pattern) w _ (scanKeys pattern w1)); assumption.
  - rewrite run_ret. exists w1. split; [reflexivity|]. split; [reflexivity|].
    apply (scan_del_live (globMatch pattern) w _ (scanKeys pattern w1));
      try assumption; try reflexivity.
    intros k. destruct (scanKeys pattern w1); [|discriminate].
    rewrite bool_decide_eq_false_2 by apply not_elem_of_nil. reflexivity.
Qed.

Lemma live_delete_dead (w : World) (m : gmap string (string * Z)) (key k : string) :
  (forall x, m !! x = kv w !! x) ->
  live w k = None ->
  match delete key m !! k with
  | Some (v, deadline) => if clock w <? deadline then Some v else None
  | None => None
  end = None.
Proof.
  intros Hm Hdead. destruct (decide (key = k)) as [->|Hne].
  - rewrite lookup_delete_eq. reflexivity.
  - rewrite lookup_delete_ne by assumption. rewrite Hm. exact Hdead.
Qed.

(** [release] keeps the clock, and a key that was not live stays so. *)
Lemma release_effect (l : RedisLock) (w : World) :
  let w' := fst (run (release l) w) in
  clock w' = clock w /\ (forall k, live w k = None -> live w' k = None).
Proof.
  destruct (connectionActive w) eqn:Hact.
  - rewrite (release_active l w Hact). cbv zeta.
    destruct (nextRejected w); [split; [reflexivity | auto]|].
    destruct (bool_decide (holds l w)); (split; [reflexivity|]); [|auto].
    intros k Hdead. apply (live_delete_dead w (kv w)); auto.
  - rewrite (release_inactive l w Hact). split; [reflexivity | auto].
Qed.

Lemma run_invalidateAfterCreate (room : ObjectId) (w : World) :
  connectionActive w = true ->
  Forall (fun f => f = false) (faults w) ->
  exists w',
    run (invalidateAfterCreate room) w = (w', Ok tt)
    /\ clock w' = clock w
    /\ forall dateRange, live w' (availabilityKey (toHexString room) dateRange) = None.
Proof.
  intros Hact Hclean. unfold invalidateAfterCreate.
  rewrite run_try_catch, run_bind, run_call. cbn [exec]. rewrite Hact.
  assert (isConnected w = true) as Hconn.
  { unfold connectionActive in Hact. destruct (isConnected w); [reflexivity | discriminate]. }
  destruct (run_redis_invalidateRoomCache (toHexString room) w Hconn Hclean)
    as (w' & -> & Hclock & Hlive).
  exists w'. split; [reflexivity|]. split; [assumption|].
  intros dateRange. rewrite Hlive.
  rewrite availabilityKey_matches by apply toHexString_literal. reflexivity.
Qed.

Lemma acquire_true_active (l : RedisLock) (w w1 : World) :
  run (acquire l) w = (w1, Ok true) -> connectionActive w = true.
Proof.
  intros H. destruct (connectionActive w) eqn:Hact; [reflexivity|].
  rewrite run_acquire_inactive in H by assumption. discriminate.
Qed.

Lemma connection_after {A} (p : Prog A) (w w1 : World) (r : result A) :
  run p w = (w1, r) ->
  connectionActive w1 = connectionActive w
  /\ rooms w1 = rooms w
  /\ (Forall (fun f => f = false) (faults w) -> Forall (fun f => f = false) (faults w1)).
Proof.
  intros H. pose proof (run_connection p w) as Hc. rewrite H in Hc. simpl in Hc.
  destruct Hc as (Hc & Hr & Hro & Hf). unfold connectionActive. rewrite Hc, Hr. auto.
Qed.

(** What a successful [createBooking] went through. *)
Lemma createBooking_Ok_inv (uid : string) (bookingData : ICreateBooking) (w w' : World)
    (b : IBooking) :
  run (createBooking uid bookingData) w = (w', Ok b) ->
  exists user room r w1 w3,
    newObjectId uid = Ok user
    /\ newObjectId (c_roomId bookingData) = Ok room
    /\ run (acquire (bookingLock room (c_checkInDate bookingData)
                       (c_checkOutDate bookingData) (ownerValue w)))
           (set_randoms (tail (randoms w)) w) = (w1, Ok true)
    /\ List.find (fun r => (r_id r =? room)%N) (rooms w1) = Some r
    /\ validationErrors bookingData r room w1 = []
    /\ b = newBooking user room bookingData r (clock w1) (nextOid w1)
    /\ fst (run (invalidateAfterCreate room)
              (inserted b (emit (Logged LOG (creatingMessage room bookingData)) w1))) = w3
    /\ w' = fst (run (release (bookingLock room (c_checkInDate bookingData)
                                 (c_checkOutDate bookingData) (ownerValue w)))
                   (emit (Logged LOG (createdMessage (nextOid w1))) w3)).
Proof.
  intros H.
  destruct (newObjectId uid) as [user|e] eqn:Hu.
  2:{ unfold createBooking in H. rewrite run_bind, objectId_run, Hu in H. discriminate. }
  destruct (newObjectId (c_roomId bookingData)) as [room|e] eqn:Hr.
  2:{ unfold createBooking in H.
      rewrite run_bind, objectId_run, Hu, run_bind, objectId_run, Hr in H. discriminate. }
  rewrite (run_createBooking uid bookingData w user room Hu Hr) in H.
  set (l := bookingLock room (c_checkInDate bookingData) (c_checkOutDate bookingData)
              (ownerValue w)) in *.
  set (w0 := set_randoms (tail (randoms w)) w) in *.
  pose proof (run_withLock l (createBookingLocked user room bookingData) w0) as Hwl.
  destruct (run (acquire l) w0) as [w1 [[|]|e]] eqn:Hacq.
  2:{ rewrite Hwl in H. discriminate. }
  2:{ rewrite Hwl in H. discriminate. }
  rewrite (run_createBookingLocked user room bookingData w1 Hr) in Hwl. cbv zeta in Hwl.
  destruct (List.find _ (rooms w1)) as [r|] eqn:Hfind.
  2:{ destruct (run (release l) _) as [w3 rr]. rewrite Hwl in H. discriminate. }
  destruct (validationErrors bookingData r room w1) as [|m errs] eqn:Herrs.
  2:{ cbn [length Nat.eqb] in Hwl. destruct (run (release l) _) as [w3 rr].
      rewrite Hwl in H. discriminate. }
  cbn [length Nat.eqb] in Hwl.
  destruct (run (invalidateAfterCreate room) _) as [w3 ri] eqn:Hinv.
  destruct (run (release l) _) as [w4 rr] eqn:Hrel.
  rewrite Hwl in H. injection H as <- <-.
  exists user, room, r, w1, w3. repeat split; try reflexivity; try assumption.
  - rewrite Hinv. reflexivity.
  - fold l. rewrite Hrel. reflexivity.
Qed.

Lemma invalidateAfterCreate_readOnly (room : ObjectId) : readOnly (invalidateAfterCreate room).
Proof. unfold invalidateAfterCreate. solve_readOnly. Qed.

Lemma bookings_after_readOnly {A} (p : Prog A) (w : World) :
  readOnly p -> bookings (fst (run p w)) = bookings w.
Proof. intros H. destruct (readOnly_sameStore p H w) as (_ & Hb & _). exact Hb. Qed.

(** ** The validator *)




(** ** The request schema *)

Lemma numberOfGuestsSchema_Some (j : Json) (g : Z) :
  numberOfGuestsSchema j = Some g <->
  exists q, j = JNumber q /\ Qeq q (inject_Z g) /\ 1 <= g <= 10.
Proof.
  unfold numberOfGuestsSchema, isInteger. split.
  - destruct j as [| |b|q|s]; try discriminate.
    destruct (Qnum q mod Z.pos (Qden q) =? 0) eqn:Hint; [|discriminate].
    destruct (Qle_bool 1 q) eqn:Hmin; [|discriminate].
    destruct (Qle_bool q 10) eqn:Hmax; [|discriminate].
    simpl. intros [= <-]. exists q. split; [reflexivity|].
    apply Z.eqb_eq in Hint. apply Qle_bool_iff in Hmin, Hmax.
    unfold Qle in Hmin, Hmax. simpl in Hmin, Hmax.
    pose proof (Z.div_mod (Qnum q) (Z.pos (Qden q)) ltac:(lia)) as Hdiv.
    rewrite Hint in Hdiv.
    split; [unfold Qeq; simpl; lia|]. nia.
  - intros (q & -> & Heq & Hlo & Hhi). unfold Qeq in Heq. simpl in Heq.
    assert (Qnum q = g * Z.pos (Qden q)) as Hnum by lia.
    assert (Qnum q mod Z.pos (Qden q) = 0) as Hmod.
    { rewrite Hnum. apply Z.mod_mul. lia. }
    assert (Qnum q / Z.pos (Qden q) = g) as Hquot.
    { rewrite Hnum. apply Z.div_mul. lia. }
    apply Z.eqb_eq in Hmod. rewrite Hmod.
    assert (Qle_bool 1 q = true) as ->.
    { apply Qle_bool_iff. unfold Qle. simpl. nia. }
    assert (Qle_bool q 10 = true) as ->.
    { apply Qle_bool_iff. unfold Qle. simpl. nia. }
    simpl. rewrite Hquot. reflexivity.
Qed.

(** A guest count above 10, below 1 or fractional is refused, and so is
    anything that is not a number. *)
Lemma numberOfGuestsSchema_None (j : Json) :
  (forall q, j = JNumber q -> Qlt 10 q \/ Qlt q 1 \/ ~ (exists n : Z, Qeq q (inject_Z n))) ->
  numberOfGuestsSchema j = None.
Proof.
  intros H. destruct (numberOfGuestsSchema j) as [g|] eqn:E; [|reflexivity].
  apply numberOfGuestsSchema_Some in E as (q & -> & Heq & Hlo & Hhi).
  exfalso. destruct (H q eq_refl) as [Hgt|[Hlt|Hfrac]].
  - rewrite Heq in Hgt. unfold Qlt in Hgt. simpl in Hgt. lia.
  - rewrite Heq in Hlt. unfold Qlt in Hlt. simpl in Hlt. lia.
  - apply Hfrac. exists g. exact Heq.
Qed.

Lemma createBookingSchema_Some (datetime : string -> option Z) (now : Z) (body : RequestBody)
    (data : ICreateBooking) :
  createBookingSchema datetime now body = Some data ->
  numberOfGuestsSchema (body_numberOfGuests body) = Some (c_numberOfGuests data)
  /\ c_checkInDate data > now
  /\ c_checkOutDate data > c_checkInDate data
  /\ ceilDiv (c_checkOutDate data - c_checkInDate data) msPerDay <= 30.
Proof.
  unfold createBookingSchema, futureDateSchema.
  destruct (objectIdSchema _) as [rid|]; [|discriminate].
  destruct (dateStringSchema datetime (body_checkInDate body)) as [ci|]; [|discriminate].
  destruct (ci >? now) eqn:Hfuture; [|discriminate].
  destruct (dateStringSchema datetime (body_checkOutDate body)) as [co|]; [|discriminate].
  destruct (numberOfGuestsSchema _) as [g|]; [|discriminate].
  destruct (specialRequestsSchema _) as [sr|]; [|discriminate].
  destruct (co >? ci) eqn:Horder; [|discriminate].
  destruct (ceilDiv (Z.abs (co - ci)) msPerDay <=? 30) eqn:Hlen; [|discriminate].
  intros [= <-]. simpl.
  apply Z.gtb_gt in Hfuture, Horder. apply Z.leb_le in Hlen.
  rewrite Z.abs_eq in Hlen by lia. auto.
Qed.

Lemma run_postBooking_rejected (datetime : string -> option Z) (uid : string)
    (body : RequestBody) (w : World) :
  createBookingSchema datetime (clock w) body = None ->
  run (postBooking datetime uid body) w = (w, Ok (Failure 400 "Validation failed")).
Proof.
  intros H. unfold postBooking, validateBody. run_step. rewrite H. reflexivity.
Qed.

Lemma createBookingSchema_guests (datetime : string -> option Z) (now : Z)
    (body : RequestBody) :
  numberOfGuestsSchema (body_numberOfGuests body) = None ->
  createBookingSchema datetime now body = None.
Proof.
  intros H. unfold createBookingSchema. rewrite H.
  destruct (objectIdSchema _); [|reflexivity].
  destruct (futureDateSchema _ _ _); [|reflexivity].
  destruct (dateStringSchema _ _); reflexivity.
Qed.

Lemma run_postBooking_Success (datetime : string -> option Z) (uid : string)
    (body : RequestBody) (w w' : World) (code : Z) (msg : string) (b : IBooking) :
  run (postBooking datetime uid body) w = (w', Ok (Success code msg b)) ->
  exists data,
    createBookingSchema datetime (clock w) body = Some data
    /\ run (createBooking uid data) w = (w', Ok b).
Proof.
  unfold postBooking, validateBody. run_step.
  destruct (createBookingSchema datetime (clock w) body) as [data|]; [|discriminate].
  unfold createBookingHandler. rewrite run_try_catch, run_bind.
  destruct (run (createBooking uid data) w) as [w1 [b1|e]] eqn:Hrun; simpl; [|discriminate].
  intros [= <- _ _ <-]. exists data. auto.
Qed.

(** C10. Whatever the rooms in the store, a request whose [numberOfGuests] is
    above 10, below 1 or not an integer is answered 400 by the schema and the
    store is left as it was; a request that ends in a booking has between 1
    and 10 guests.  A room for twelve is refused to a party of eleven. *)
Theorem guests_capped_by_schema :
  (forall datetime uid body w,
      (forall q, body_numberOfGuests body = JNumber q ->
                 Qlt 10 q \/ Qlt q 1 \/ ~ (exists n : Z, Qeq q (inject_Z n))) ->
      run (postBooking datetime uid body) w = (w, Ok (Failure 400 "Validation failed")))
  /\ (forall datetime uid body w w' code msg b,
        run (postBooking datetime uid body) w = (w', Ok (Success code msg b)) ->
        1 <= numberOfGuests b <= 10)
  /\ (maxOccupancy roomOfTwelve = 12
      /\ run (postBooking exampleDatetime (toHexString 7%N) (exampleBody (inject_Z 11)))
             worldOfTwelve
         = (worldOfTwelve, Ok (Failure 400 "Validation failed"))
      /\ exists w' b,
           run (postBooking exampleDatetime (toHexString 7%N) (exampleBody (inject_Z 10)))
               worldOfTwelve
           = (w', Ok (Success 201 "Booking created successfully" b))
           /\ numberOfGuests b = 10).
Proof.
  split.
  { intros datetime uid body w H. apply run_postBooking_rejected.
    apply createBookingSchema_guests, numberOfGuestsSchema_None. exact H. }
  split.
  { intros datetime uid body w w' code msg b H.
    apply run_postBooking_Success in H as (data & Hschema & Hrun).
    apply createBookingSchema_Some in Hschema as (Hg & _).
    apply numberOfGuestsSchema_Some in Hg as (_ & _ & _ & Hbound).
    apply createBooking_Ok_inv in Hrun
      as (user & room & r & w1 & w3 & _ & _ & _ & _ & _ & -> & _).
    exact Hbound. }
  split; [reflexivity|]. split; [vm_compute; reflexivity|].
  eexists _, _. split; vm_compute; reflexivity.
Qed.

Lemma pushIf_nil (c : bool) (msg : string) (errors : list string) :
  pushIf c msg errors = [] <-> c = false /\ errors = [].
Proof.
  unfold pushIf. destruct c.
  - split; [intros H; destruct errors; discriminate | intros [? _]; discriminate].
  - tauto.
Qed.


Lemma length_eqb_nil {A} (l : list A) : (length l =? 0)%nat = true <-> l = [].
Proof. destruct l; simpl; split; intros; try discriminate; reflexivity. Qed.



(** ** Cancelling and confirming *)

Lemma updateFirst_spec (f : IBooking -> bool) (u : IBooking -> IBooking) (l : list IBooking) :
  match List.find f l with
  | Some b =>
      exists pre post,
        l = pre ++ b :: post /\ Forall (fun x => f x = false) pre
        /\ updateFirst f u l = (Some (u b), pre ++ u b :: post)
  | None => updateFirst f u l = (None, l)
  end.
Proof.
  induction l as [|x l IH]; simpl; [reflexivity|].
  destruct (f x) eqn:Hx.
  - exists [], l. repeat split. constructor.
  - destruct (List.find f l) as [b|].
    + destruct IH as (pre & post & -> & Hpre & ->).
      exists (x :: pre), post. repeat split. constructor; assumption.
    + rewrite IH. reflexivity.
Qed.

Lemma invalidateAfterChange_readOnly (room : ObjectId) : readOnly (invalidateAfterChange room).
Proof. unfold invalidateAfterChange. solve_readOnly. Qed.

Lemma invalidateAfterChange_noThrow (room : ObjectId) : noThrow (invalidateAfterChange room).
Proof. unfold invalidateAfterChange. solve_noThrow. Qed.

Lemma set_bookings_same (w : World) : set_bookings (bookings w) w = w.
Proof. destruct w; reflexivity. Qed.

(** [findOneAndUpdate] by a filter, then the guarded invalidation: the shape
    shared by [cancelBooking] and [confirmBooking]. *)
Lemma run_update_then_invalidate (f : IBooking -> bool) (u : IBooking -> IBooking)
    (msg : string) (w : World) :
  run (result ← call (BookingsFindOneAndUpdate f u);
       match result with
       | None => Throw (JsError msg)
       | Some result => invalidateAfterChange (roomId result);; mret result
       end) w
  = match List.find f (bookings w) with
    | None => (w, Err (JsError msg))
    | Some b =>
        (fst (run (invalidateAfterChange (roomId (u b)))
                (set_bookings (snd (updateFirst f u (bookings w))) w)),
         Ok (u b))
    end.
Proof.
  run_step. pose proof (updateFirst_spec f u (bookings w)) as Hspec.
  destruct (List.find f (bookings w)) as [b|].
  - destruct Hspec as (pre & post & _ & _ & ->). cbn [fst snd].
    rewrite run_bind.
    destruct (noThrow_run _ (invalidateAfterChange_noThrow (roomId (u b)))
                (set_bookings (pre ++ u b :: post) w)) as (w' & [] & ->).
    reflexivity.
  - rewrite Hspec. rewrite set_bookings_same. reflexivity.
Qed.

Lemma run_cancelBooking (bookingId : string) (reason : option string) (w : World)
    (oid : ObjectId) :
  newObjectId bookingId = Ok oid ->
  run (cancelBooking bookingId reason) w
  = match List.find (fun b => (b_id b =? oid)%N) (bookings w) with
    | None => (w, Err (JsError "Booking not found"))
    | Some b =>
        let b' := setStatus CANCELLED (clock w) b in
        (fst (run (invalidateAfterChange (roomId b'))
                (set_bookings
                   (snd (updateFirst (fun b => (b_id b =? oid)%N)
                           (setStatus CANCELLED (clock w)) (bookings w))) w)),
         Ok b')
    end.
Proof.
  intros Hoid. unfold cancelBooking. rewrite run_bind, objectId_run, Hoid. run_step.
  exact (run_update_then_invalidate _ _ _ w).
Qed.

Lemma run_confirmBooking (bookingId : string) (w : World) (oid : ObjectId) :
  newObjectId bookingId = Ok oid ->
  let f := fun b => (b_id b =? oid)%N && bool_decide (status b = PENDING) in
  run (confirmBooking bookingId) w
  = match List.find f (bookings w) with
    | None => (w, Err (JsError "Booking not found or cannot be confirmed"))
    | Some b =>
        let b' := setStatus CONFIRMED (clock w) b in
        (fst (run (invalidateAfterChange (roomId b'))
                (set_bookings (snd (updateFirst f (setStatus CONFIRMED (clock w)) (bookings w)))
                   w)),
         Ok b')
    end.
Proof.
  intros Hoid f. unfold confirmBooking. rewrite run_bind, objectId_run, Hoid. run_step.
  exact (run_update_then_invalidate _ _ _ w).
Qed.

Lemma find_none_iff {A} (f : A -> bool) (l : list A) :
  List.find f l = None <-> forall x, In x l -> f x = false.
Proof.
  split; [apply List.find_none|].
  intros H. destruct (List.find f l) as [x|] eqn:E; [|reflexivity].
  apply List.find_some in E as [Hin Hf]. rewrite (H x Hin) in Hf. discriminate.
Qed.

(** C9. [cancelBooking] looks the booking up by its id alone: whatever the
    status of the booking found, the status becomes cancelled in the
    collection and the updated booking is returned; it throws "Booking not
    found", writing nothing, exactly when no booking has the id.
    [confirmBooking] returns a booking exactly when a pending booking has the
    id.  Cancelling a completed booking succeeds. *)
Theorem cancelBooking_any_status :
  (forall bookingId reason w oid b,
      newObjectId bookingId = Ok oid ->
      List.find (fun b => (b_id b =? oid)%N) (bookings w) = Some b ->
      exists w' pre post,
        run (cancelBooking bookingId reason) w = (w', Ok (setStatus CANCELLED (clock w) b))
        /\ status (setStatus CANCELLED (clock w) b) = CANCELLED
        /\ bookings w = pre ++ b :: post
        /\ bookings w' = pre ++ setStatus CANCELLED (clock w) b :: post)
  /\ (forall bookingId reason w oid,
        newObjectId bookingId = Ok oid ->
        (exists w' e, run (cancelBooking bookingId reason) w = (w', Err e))
        <-> (forall b, In b (bookings w) -> b_id b <> oid))
  /\ (forall bookingId reason w oid,
        newObjectId bookingId = Ok oid ->
        (forall b, In b (bookings w) -> b_id b <> oid) ->
        run (cancelBooking bookingId reason) w = (w, Err (JsError "Booking not found")))
  /\ (forall bookingId w oid,
        newObjectId bookingId = Ok oid ->
        (exists w' b', run (confirmBooking bookingId) w = (w', Ok b'))
        <-> (exists b, In b (bookings w) /\ b_id b = oid /\ status b = PENDING))
  /\ (status bookingDone = COMPLETED
      /\ exists w',
           run (cancelBooking (toHexString 100%N) None) worldDone
           = (w', Ok (setStatus CANCELLED (clock worldDone) bookingDone))
           /\ bookings w' = [setStatus CANCELLED (clock worldDone) bookingDone]).
Proof.
  assert (forall oid w, (forall b, In b (bookings w) -> b_id b <> oid)
                        <-> List.find (fun b => (b_id b =? oid)%N) (bookings w) = None) as Hnone.
  { intros oid w. rewrite find_none_iff. split; intros H b Hin; specialize (H b Hin).
    - apply N.eqb_neq. exact H.
    - apply N.eqb_neq. exact H. }
  split.
  { intros bookingId reason w oid b Hoid Hfind.
    rewrite (run_cancelBooking bookingId reason w oid Hoid). rewrite Hfind. cbv zeta.
    pose proof (updateFirst_spec (fun b => (b_id b =? oid)%N) (setStatus CANCELLED (clock w))
                  (bookings w)) as Hspec.
    rewrite Hfind in Hspec. destruct Hspec as (pre & post & Hl & _ & Hup).
    eexists _, pre, post. split; [reflexivity|]. split; [reflexivity|]. split; [exact Hl|].
    rewrite bookings_after_readOnly by apply invalidateAfterChange_readOnly.
    rewrite Hup. reflexivity. }
  split.
  { intros bookingId reason w oid Hoid.
    rewrite (run_cancelBooking bookingId reason w oid Hoid), Hnone.
    destruct (List.find _ (bookings w)) as [b|].
    - split; [intros (w' & e & H); discriminate | discriminate].
    - split; [reflexivity | eauto]. }
  split.
  { intros bookingId reason w oid Hoid Hno.
    rewrite (run_cancelBooking bookingId reason w oid Hoid).
    apply Hnone in Hno. rewrite Hno. reflexivity. }
  split.
  { intros bookingId w oid Hoid.
    rewrite (run_confirmBooking bookingId w oid Hoid). cbv zeta.
    destruct (List.find _ (bookings w)) as [b|] eqn:Hfind.
    - split; [|eauto]. intros _. exists b.
      apply List.find_some in Hfind as [Hin Hf].
      apply andb_true_iff in Hf as [Hid Hst].
      apply N.eqb_eq in Hid. apply bool_decide_eq_true in Hst. auto.
    - split; [intros (w' & b' & H); discriminate|].
      intros (b & Hin & Hid & Hst). exfalso.
      pose proof (List.find_none _ _ Hfind b Hin) as Hf. simpl in Hf.
      rewrite Hid, N.eqb_refl, bool_decide_eq_true_2 in Hf by assumption. discriminate. }
  split; [reflexivity|]. eexists. split; vm_compute; reflexivity.
Qed.

(** ** Cache invalidation *)

Lemma run_service_invalidateRoomCache (roomId : string) (w : World) :
  connectionActive w = true ->
  Forall (fun f => f = false) (faults w) ->
  exists w',
    run (service_invalidateRoomCache roomId) w = (w', Ok tt)
    /\ clock w' = clock w
    /\ forall k, live w' k
                 = if globMatch (servicePattern roomId) k || globMatch searchPattern k
                   then None else live w k.
Proof.
  intros Hact Hclean. unfold service_invalidateRoomCache.
  fold (servicePattern roomId). fold searchPattern.
  assert (isConnected w = true) as Hconn.
  { unfold connectionActive in Hact. destruct (isConnected w); [reflexivity | discriminate]. }
  rewrite run_try_catch. run_step. rewrite Hact. cbn [negb].
  run_step. rewrite Hconn.
  run_step. rewrite send_world, (nextRejected_clean w Hclean).
  set (w1 := sent (CmdScan (servicePattern roomId)) w).
  assert (Forall (fun f => f = false) (faults w1)) as Hclean1 by (apply sent_clean; assumption).
  run_step. rewrite send_world, (nextRejected_clean w1 Hclean1).
  set (w2 := sent (CmdScan searchPattern) w1).
  assert (Forall (fun f => f = false) (faults w2)) as Hclean2 by (apply sent_clean; assumption).
  cbv zeta.
  set (keys := scanKeys (servicePattern roomId) w1 ++ scanKeys searchPattern w2).
  assert (forall k, k ∈ keys
                    <-> globMatch (servicePattern roomId) k || globMatch searchPattern k = true
                        /\ is_Some (live w k)) as Hkeys.
  { intros k. unfold keys. rewrite list_elem_of_In, in_app_iff, orb_true_iff.
    rewrite (scanKeys_In (servicePattern roomId) k w1), (scanKeys_In searchPattern k w2).
    change (live w1 k) with (live w k). change (live w2 k) with (live w k).
    generalize (is_Some (live w k)), (globMatch (servicePattern roomId) k = true),
      (globMatch searchPattern k = true).
    intros P Q R. tauto. }
  destruct (0 <? length keys)%nat eqn:Hlen.
  - run_step. rewrite send_world, (nextRejected_clean w2 Hclean2).
    pose proof (delKeys_kv keys (sent (CmdDel keys) w2)) as Hkv.
    pose proof (delKeys_frame keys (sent (CmdDel keys) w2)) as (_ & _ & _ & Hclock & _).
    destruct (delKeys _ _) as [w3 n]. simpl in Hkv, Hclock.
    rewrite run_consoleLog. eexists. split; [reflexivity|]. split; [exact Hclock|].
    apply (scan_del_live _ w _ keys); assumption.
  - rewrite run_ret. exists w2. split; [reflexivity|]. split; [reflexivity|].
    apply (scan_del_live _ w _ keys); try assumption; try reflexivity.
    intros k. destruct keys; [|discriminate].
    rewrite bool_decide_eq_false_2 by apply not_elem_of_nil. reflexivity.
Qed.

Lemma globMatch_star_skip (p s : string) : globMatch p s = true -> globMatch (String "*" p) s = true.
Proof. intros H. rewrite globMatch_star, H. reflexivity. Qed.

Lemma globMatch_literal_prefix (p q s : string) :
  literal p = true -> globMatch q s = true -> globMatch (p +:+ q) (p +:+ s) = true.
Proof.
  intros Hlit Hq. induction p as [|c p IH]; [exact Hq|].
  simpl in Hlit. apply andb_true_iff in Hlit as [Hc Hp].
  change (globMatch (String c (p +:+ q)) (String c (p +:+ s)) = true).
  rewrite globMatch_literal_cons by assumption.
  rewrite Ascii.eqb_refl. apply IH. assumption.
Qed.

Lemma servicePattern_matches (roomId dateRange : string) :
  literal roomId = true ->
  globMatch (servicePattern roomId) (availabilityKey roomId dateRange) = true.
Proof.
  intros Hlit. unfold servicePattern, availabilityKey.
  change ("room:availability:*" +:+ roomId +:+ "*")
    with ("room:availability:" +:+ String "*" (roomId +:+ "*")).
  apply globMatch_literal_prefix; [reflexivity|].
  apply globMatch_star_skip, globMatch_prefix; [assumption|]. eauto.
Qed.

(** A key that is not live reads as unknown, whatever the client does. *)
Lemma getRoomAvailability_dead (roomId dateRange : string) (w : World) :
  live w (availabilityKey roomId dateRange) = None ->
  snd (run (getRoomAvailability roomId dateRange) w) = Ok None.
Proof.
  intros Hdead. unfold getRoomAvailability. rewrite run_try_catch. run_step.
  destruct (isConnected w); [|reflexivity].
  run_step. rewrite send_world.
  destruct (nextRejected w); [reflexivity|].
  change (live (sent _ w) _) with (live w (availabilityKey roomId dateRange)).
  rewrite Hdead. reflexivity.
Qed.


(** ** The lock: its life cycle *)

Lemma active_connected (w : World) : connectionActive w = true -> isConnected w = true.
Proof. unfold connectionActive. destruct (isConnected w); [reflexivity | discriminate]. Qed.

(** [acquire] on a free key, when the command is answered. *)
Lemma run_acquire_free (l : RedisLock) (w : World) :
  0 <= maxRetries l ->
  connectionActive w = true -> nextRejected w = false -> live w (lockKey l) = None ->
  run (acquire l) w
  = (emit (Logged LOG (lockAcquiredMessage l))
       (set_kv (<[lockKey l := (lockValue l, clock w + ttl l * 1000)]> (kv w))
          (sent (CmdSetNX (lockKey l) (lockValue l) (ttl l)) w)), Ok true).
Proof.
  intros Hmax Hact Hrej Hfree. rewrite run_acquire_active by assumption.
  replace (Z.to_nat (maxRetries l + 1)) with (S (Z.to_nat (maxRetries l))) by lia.
  cbn [acquireLoop]. rewrite run_bind, run_acquireAttempt. cbv zeta.
  rewrite Hrej, Hfree. reflexivity.
Qed.

Lemma holds_after_acquire (l : RedisLock) (w : World) (m : gmap string (string * Z)) (msg : string)
    (c : RedisCmd) :
  0 < ttl l ->
  holds l (emit (Logged LOG msg)
             (set_kv (<[lockKey l := (lockValue l, clock w + ttl l * 1000)]> m) (sent c w))).
Proof.
  intros Httl. unfold holds, live. cbn [kv clock emit set_kv sent set_faults].
  rewrite lookup_insert_eq.
  destruct (clock w <? clock w + ttl l * 1000) eqn:E; [reflexivity|].
  apply Z.ltb_ge in E. lia.
Qed.

(** On a free key, [acquire] followed by [release] of the same lock returns
    [true] twice and leaves the keyspace without the lock key and otherwise
    as it was; neither touches the collections or the clock. *)
Theorem acquire_release_round_trip (l : RedisLock) (w : World) :
  0 <= maxRetries l -> 0 < ttl l ->
  connectionActive w = true ->
  Forall (fun f => f = false) (faults w) ->
  live w (lockKey l) = None ->
  exists w1 w2,
    run (acquire l) w = (w1, Ok true)
    /\ holds l w1
    /\ run (release l) w1 = (w2, Ok true)
    /\ live w2 (lockKey l) = None
    /\ (forall k, k <> lockKey l -> kv w2 !! k = kv w !! k)
    /\ sameStore w w2 /\ clock w2 = clock w.
Proof.
  intros Hmax Httl Hact Hclean Hfree.
  eexists _, _. split.
  { apply run_acquire_free; auto using nextRejected_clean. }
  split. { apply holds_after_acquire. assumption. }
  split.
  { rewrite release_active by exact Hact. cbv zeta.
    rewrite nextRejected_clean by (apply sent_clean; assumption).
    rewrite bool_decide_eq_true_2 by (apply holds_after_acquire; assumption).
    reflexivity. }
  split.
  { unfold live. cbn [kv emit set_kv sent set_faults]. rewrite lookup_delete_eq. reflexivity. }
  split.
  { intros k Hne. cbn [kv emit set_kv sent set_faults].
    rewrite lookup_delete_ne, lookup_insert_ne by congruence. reflexivity. }
  split; [repeat split | reflexivity].
Qed.

Lemma acquire_release_round_trip_witness :
  exists w1 w2,
    run (acquire lockR1) world0 = (w1, Ok true)
    /\ run (release lockR1) w1 = (w2, Ok true)
    /\ live w2 (lockKey lockR1) = None.
Proof.
  destruct (acquire_release_round_trip lockR1 world0)
    as (w1 & w2 & Ha & _ & Hr & Hl & _).
  - vm_compute. discriminate.
  - reflexivity.
  - reflexivity.
  - constructor.
  - reflexivity.
  - exists w1, w2. auto.
Defined.

(** The loop of [acquire] against a key that stays held: every turn finds the
    key live, sleeps unless it is the last, and the loop ends with [false]. *)
Lemma run_acquireLoop_held (l : RedisLock) (turns : nat) (attempt : Z) (w : World)
    (v : string) (deadline : Z) :
  attempt + Z.of_nat turns = maxRetries l + 1 ->
  Forall (fun f => f = false) (faults w) ->
  kv w !! lockKey l = Some (v, deadline) ->
  clock w + (Z.of_nat turns - 1) * Z.max 0 (retryDelay l) < deadline ->
  exists w',
    run (acquireLoop l turns attempt) w = (w', Ok false)
    /\ kv w' = kv w
    /\ clock w' = clock w + Z.max 0 (Z.of_nat turns - 1) * Z.max 0 (retryDelay l).
Proof.
  revert attempt w. induction turns as [|n IH]; intros attempt w Hturns Hclean Hkv Hlate.
  - eexists. split; [reflexivity|]. split; [reflexivity|]. simpl. lia.
  - cbn [acquireLoop]. rewrite run_bind, run_acquireAttempt. cbv zeta.
    rewrite (nextRejected_clean w Hclean).
    assert (live w (lockKey l) = Some v) as ->.
    { unfold live. rewrite Hkv.
      destruct (clock w <? deadline) eqn:E; [reflexivity|]. apply Z.ltb_ge in E. nia. }
    destruct (attempt <? maxRetries l) eqn:Hlt.
    + apply Z.ltb_lt in Hlt.
      edestruct (IH (attempt + 1)
                   (slept (retryDelay l)
                      (emit (Logged LOG (lockBusyMessage l attempt))
                         (sent (CmdSetNX (lockKey l) (lockValue l) (ttl l)) w))))
        as (w' & Hrun & Hkv' & Hclock'); [lia | apply sent_clean; assumption | exact Hkv | |].
      { cbn [clock slept emit set_clock sent set_faults]. nia. }
      exists w'. split; [exact Hrun|]. split; [exact Hkv'|].
      rewrite Hclock'. cbn [clock slept emit set_clock sent set_faults]. nia.
    + apply Z.ltb_ge in Hlt. assert (n = O) as -> by lia.
      eexists. split; [reflexivity|]. split; [reflexivity|]. simpl. lia.
Qed.

Lemma run_acquire_held (l : RedisLock) (w : World) (v : string) (deadline : Z) :
  0 <= maxRetries l ->
  connectionActive w = true ->
  Forall (fun f => f = false) (faults w) ->
  kv w !! lockKey l = Some (v, deadline) ->
  clock w + maxRetries l * Z.max 0 (retryDelay l) < deadline ->
  exists w' new,
    run (acquire l) w = (w', Ok false)
    /\ trace w' = new ++ trace w
    /\ attemptsIn new = maxRetries l + 1
    /\ sleepsIn new = maxRetries l
    /\ clock w' = clock w + maxRetries l * Z.max 0 (retryDelay l)
    /\ kv w' = kv w
    /\ forall T (fn : Prog T),
         run (withLock l fn) w
         = (w', Err (JsError ("Failed to acquire lock: " +:+ lockKey l))).
Proof.
  intros Hmax Hact Hclean Hkv Hlate.
  destruct (run_acquire l w) as (w' & r & new & Hrun & Hpost); [lia | assumption |].
  destruct (run_acquireLoop_held l (Z.to_nat (maxRetries l + 1)) 0 w v deadline)
    as (w'' & Hrun' & _); [lia | assumption | assumption | |].
  { rewrite Z2Nat.id by lia. replace (maxRetries l + 1 - 1) with (maxRetries l) by lia.
    exact Hlate. }
  rewrite run_acquire_active in Hrun by assumption. rewrite Hrun' in Hrun.
  injection Hrun as -> <-.
  destruct Hpost as (Ht & _ & _ & _ & Hc & _ & Ha & Hs & _ & Hk).
  exists w', new. split; [rewrite run_acquire_active by assumption; exact Hrun'|].
  repeat split; try assumption; try lia.
  - rewrite Hc, Hs. replace (Z.max 0 (maxRetries l + 1 - 1)) with (maxRetries l) by lia.
    reflexivity.
  - intros T fn. pose proof (run_withLock l fn w) as Hwl.
    rewrite run_acquire_active, Hrun' in Hwl by assumption. exact Hwl.
Qed.

(** While another owner's key outlives the whole retry window, [acquire]
    returns [false] after exactly [maxRetries + 1] SET NX commands and
    [maxRetries] sleeps, the keyspace is as it was, and [withLock] throws
    "Failed to acquire lock" from that world: the function was never run. *)
Theorem acquire_gives_up_on_held_key (l : RedisLock) (w : World) (v : string) (deadline : Z) :
  0 <= maxRetries l ->
  connectionActive w = true ->
  Forall (fun f => f = false) (faults w) ->
  kv w !! lockKey l = Some (v, deadline) ->
  clock w + maxRetries l * Z.max 0 (retryDelay l) < deadline ->
  exists w' new,
    run (acquire l) w = (w', Ok false)
    /\ trace w' = new ++ trace w
    /\ attemptsIn new = maxRetries l + 1
    /\ sleepsIn new = maxRetries l
    /\ clock w' = clock w + maxRetries l * Z.max 0 (retryDelay l)
    /\ kv w' = kv w
    /\ forall T (fn : Prog T),
         run (withLock l fn) w
         = (w', Err (JsError ("Failed to acquire lock: " +:+ lockKey l))).
Proof. exact (run_acquire_held l w v deadline). Qed.

Lemma acquire_gives_up_on_held_key_witness :
  exists w' new,
    run (acquire lockR1) worldHeld = (w', Ok false)
    /\ attemptsIn new = 6 /\ sleepsIn new = 5 /\ clock w' = clock worldHeld + 1000.
Proof.
  destruct (acquire_gives_up_on_held_key lockR1 worldHeld (lockValue lockR1') 1700000060000)
    as (w' & new & Hrun & _ & Ha & Hs & Hc & _).
  - vm_compute. discriminate.
  - reflexivity.
  - constructor.
  - reflexivity.
  - reflexivity.
  - exists w', new. auto.
Defined.

Lemma live_set_clock_dead (w : World) (key v : string) (deadline t : Z) :
  kv w !! key = Some (v, deadline) -> deadline <= t -> live (set_clock t w) key = None.
Proof.
  intros Hkv Hlate. unfold live. cbn [kv clock set_clock]. rewrite Hkv.
  destruct (t <? deadline) eqn:E; [|reflexivity]. apply Z.ltb_lt in E. lia.
Qed.

(** A lock is exclusive for [ttl] seconds and no longer.  After [acquire] on
    a free key the owner holds the key at every instant before the deadline;
    once the deadline has passed, another owner's [acquire] on the same key
    succeeds at its first attempt, and the late [release] of the first owner
    returns [false] and leaves the second owner's key in place. *)
Theorem expired_lock_is_taken_over (a b : RedisLock) (w : World) :
  lockKey b = lockKey a -> lockValue b <> lockValue a ->
  0 <= maxRetries a -> 0 <= maxRetries b -> 0 < ttl a -> 0 < ttl b ->
  connectionActive w = true ->
  Forall (fun f => f = false) (faults w) ->
  live w (lockKey a) = None ->
  exists w1,
    run (acquire a) w = (w1, Ok true)
    /\ (forall t, clock w1 <= t < clock w1 + ttl a * 1000 -> holds a (set_clock t w1))
    /\ forall t, clock w1 + ttl a * 1000 <= t ->
       exists w3 w4,
         run (acquire b) (set_clock t w1) = (w3, Ok true)
         /\ holds b w3
         /\ run (release a) w3 = (w4, Ok false)
         /\ holds b w4.
Proof.
  intros Hkey Hval Hmaxa Hmaxb Httla Httlb Hact Hclean Hfree.
  eexists. split.
  { apply run_acquire_free; auto using nextRejected_clean. }
  split.
  { intros t Ht. unfold holds, live. cbn [kv clock emit set_kv sent set_faults set_clock] in *.
    rewrite lookup_insert_eq.
    destruct (t <? clock w + ttl a * 1000) eqn:E; [reflexivity|]. apply Z.ltb_ge in E. lia. }
  intros t Ht. cbn [clock emit set_kv sent set_faults] in Ht.
  match goal with
  | |- context [set_clock t ?x] => set (w2 := set_clock t x)
  end.
  assert (Forall (fun f => f = false) (faults w2)) as Hclean2.
  { apply (sent_clean (CmdSetNX (lockKey a) (lockValue a) (ttl a)) w Hclean). }
  assert (live w2 (lockKey b) = None) as Hfree2.
  { rewrite Hkey. apply (live_set_clock_dead _ _ (lockValue a) (clock w + ttl a * 1000));
      [|exact Ht].
    cbn [kv emit set_kv sent set_faults]. apply lookup_insert_eq. }
  eexists _, _. split.
  { apply run_acquire_free; auto using nextRejected_clean. }
  match goal with
  | |- holds b ?x /\ _ => set (w3 := x) in *
  end.
  assert (holds b w3) as Hh3 by (apply holds_after_acquire; assumption).
  split; [exact Hh3|].
  assert (run (release a) w3
          = (emit (Logged WARN
                     ("Lock not released (may have expired or been taken by another process): "
                      +:+ lockKey a)) (sent (CmdEval (lockKey a) (lockValue a)) w3), Ok false))
    as Hrel.
  { rewrite release_active by exact Hact. cbv zeta.
    rewrite nextRejected_clean by (exact (Forall_tail _ _ Hclean2)).
    rewrite bool_decide_eq_false_2; [reflexivity|].
    unfold holds in *. rewrite <- Hkey, Hh3. congruence. }
  split; [exact Hrel|].
  exact Hh3.
Qed.

Lemma expired_lock_is_taken_over_witness :
  exists w1 w3 w4,
    run (acquire lockR1) world0 = (w1, Ok true)
    /\ run (acquire lockR1') (set_clock (clock w1 + 60000) w1) = (w3, Ok true)
    /\ run (release lockR1) w3 = (w4, Ok false)
    /\ holds lockR1' w4.
Proof.
  destruct (expired_lock_is_taken_over lockR1 lockR1' world0) as (w1 & Ha & _ & Hlate).
  - reflexivity.
  - discriminate.
  - vm_compute. discriminate.
  - vm_compute. discriminate.
  - reflexivity.
  - reflexivity.
  - reflexivity.
  - constructor.
  - reflexivity.
  - destruct (Hlate (clock w1 + 60000)) as (w3 & w4 & Hb & _ & Hr & Hh).
    + change (ttl lockR1) with 60. lia.
    + exists w1, w3, w4. auto.
Defined.

(** What [withLock] leaves under the lock key.  When [acquire] returned
    [true] and the command of [release] is answered, the key is gone if the
    lock was still this owner's when the function ended; a key that expired
    during the function and was taken by another owner is left to that owner.
    Every other key is as the function left it, and the outcome of
    [withLock] is the function's, returned or thrown. *)
Theorem withLock_leaves_key_free {T} (l : RedisLock) (fn : Prog T) (w w1 w2 : World)
    (r : result T) :
  run (acquire l) w = (w1, Ok true) ->
  run fn w1 = (w2, r) ->
  nextRejected w2 = false ->
  exists w3,
    run (withLock l fn) w = (w3, r)
    /\ (holds l w2 -> live w3 (lockKey l) = None)
    /\ (~ holds l w2 -> live w3 (lockKey l) = live w2 (lockKey l))
    /\ (forall k, k <> lockKey l -> live w3 k = live w2 k)
    /\ sameStore w2 w3.
Proof.
  intros Hacq Hfn Hrej.
  pose proof (run_withLock l fn w) as Hwl. rewrite Hacq, Hfn in Hwl.
  assert (connectionActive w2 = true) as Hact.
  { destruct (connection_after _ _ _ _ Hfn) as (-> & _).
    destruct (connection_after _ _ _ _ Hacq) as (-> & _).
    exact (acquire_true_active _ _ _ Hacq). }
  rewrite (release_active l w2 Hact) in Hwl. cbv zeta in Hwl. rewrite Hrej in Hwl.
  destruct (bool_decide (holds l w2)) eqn:Hh.
  - apply bool_decide_eq_true in Hh. eexists. split; [exact Hwl|].
    split. { intros _. unfold live. cbn [kv emit set_kv]. rewrite lookup_delete_eq. reflexivity. }
    split; [contradiction|].
    split; [|repeat split].
    intros k Hne. unfold live. cbn [kv clock emit set_kv sent set_faults].
    rewrite lookup_delete_ne by congruence. reflexivity.
  - apply bool_decide_eq_false in Hh. eexists. split; [exact Hwl|].
    split; [contradiction|]. split; [reflexivity|]. split; [reflexivity | repeat split].
Qed.

Lemma withLock_leaves_key_free_witness :
  exists w3,
    run (withLock lockR1 (validateBooking (request (mar 1) (mar 4) 2))) world0
    = (w3, Ok {| isValid := true; errors := [] |})
    /\ live w3 (lockKey lockR1) = None.
Proof.
  destruct (withLock_leaves_key_free lockR1 (validateBooking (request (mar 1) (mar 4) 2)) world0
              (fst (run (acquire lockR1) world0))
              (fst (run (acquire lockR1) world0))
              (Ok {| isValid := true; errors := [] |}))
    as (w3 & Hrun & Hfree & _).
  - vm_compute. reflexivity.
  - vm_compute. reflexivity.
  - reflexivity.
  - exists w3. split; [exact Hrun|]. apply Hfree. vm_compute. reflexivity.
Defined.

(** ** The lock: construction *)



(** ** The availability cache *)

Lemma run_setRoomAvailability (roomId dateRange : string) (b : bool) (seconds : Z) (w : World) :
  let key := availabilityKey roomId dateRange in
  let value := stringifyAvailability b (clock w) in
  let w1 := sent (CmdSetEx key seconds value) w in
  run (setRoomAvailability roomId dateRange b seconds) w =
  if isConnected w then
    if nextRejected w
    then (emit (Logged ERROR "Error setting room availability cache:") w1, Ok tt)
    else (set_kv (<[key := (value, clock w + seconds * 1000)]> (kv w)) w1, Ok tt)
  else (emit (Logged ERROR "Error setting room availability cache:") w, Ok tt).
Proof.
  intros key value w1. unfold setRoomAvailability. rewrite run_try_catch. run_step.
  destruct (isConnected w); [|reflexivity].
  cbv zeta. run_step. rewrite run_call. cbn [exec]. rewrite send_world.
  destruct (nextRejected w); reflexivity.
Qed.

Lemma run_getRoomAvailability (roomId dateRange : string) (w : World) :
  let key := availabilityKey roomId dateRange in
  let w1 := sent (CmdGet key) w in
  let failed := emit (Logged ERROR "Error getting room availability cache:") in
  run (getRoomAvailability roomId dateRange) w =
  if isConnected w then
    if nextRejected w then (failed w1, Ok None)
    else match live w key with
         | Some (String c s) =>
             match parseAvailability (String c s) with
             | Ok v => (w1, Ok (Some v))
             | Err _ => (failed w1, Ok None)
             end
         | _ => (w1, Ok None)
         end
  else (failed w, Ok None).
Proof.
  intros key w1 failed. unfold getRoomAvailability. rewrite run_try_catch. run_step.
  destruct (isConnected w); [|reflexivity].
  cbv zeta. run_step. rewrite send_world. fold key. fold w1.
  destruct (nextRejected w); [reflexivity|].
  change (live w1 key) with (live w key).
  destruct (live w key) as [[|c s]|]; try reflexivity.
  destruct (parseAvailability (String c s)); reflexivity.
Qed.

(** What [setRoomAvailability] writes, [getRoomAvailability] reads back. *)
Lemma parse_stringify (b : bool) (timestamp : Z) :
  exists c s,
    stringifyAvailability b timestamp = String c s
    /\ parseAvailability (String c s) = Ok b.
Proof.
  unfold stringifyAvailability. eexists _, _. split; [reflexivity|].
  destruct b; reflexivity.
Qed.

Lemma run_getRoomAvailability_fresh (roomId dateRange : string) (b : bool) (timestamp : Z)
    (w : World) :
  isConnected w = true -> nextRejected w = false ->
  live w (availabilityKey roomId dateRange) = Some (stringifyAvailability b timestamp) ->
  run (getRoomAvailability roomId dateRange) w
  = (sent (CmdGet (availabilityKey roomId dateRange)) w, Ok (Some b)).
Proof.
  intros Hconn Hrej Hlive. rewrite run_getRoomAvailability. cbv zeta.
  rewrite Hconn, Hrej, Hlive.
  destruct (parse_stringify b timestamp) as (c & s & -> & ->). reflexivity.
Qed.

(** A verdict written by [setRoomAvailability] is what [getRoomAvailability]
    answers at every instant before [ttl] seconds have passed, and from then
    on the answer is unknown ([null]).  Writing touches neither the
    collections nor the clock. *)
Theorem availability_cache_round_trip (roomId dateRange : string) (b : bool) (seconds : Z)
    (w : World) :
  isConnected w = true ->
  Forall (fun f => f = false) (faults w) ->
  exists w1,
    run (setRoomAvailability roomId dateRange b seconds) w = (w1, Ok tt)
    /\ sameStore w w1 /\ clock w1 = clock w
    /\ (forall t, clock w <= t < clock w + seconds * 1000 ->
          snd (run (getRoomAvailability roomId dateRange) (set_clock t w1)) = Ok (Some b))
    /\ (forall t, clock w + seconds * 1000 <= t ->
          snd (run (getRoomAvailability roomId dateRange) (set_clock t w1)) = Ok None).
Proof.
  intros Hconn Hclean. eexists. split.
  { rewrite run_setRoomAvailability. cbv zeta.
    rewrite Hconn, (nextRejected_clean w Hclean). reflexivity. }
  split; [repeat split|]. split; [reflexivity|].
  match goal with
  | |- context [set_clock _ ?x] => set (w1 := x)
  end.
  assert (forall t, nextRejected (set_clock t w1) = false) as Hrej.
  { intros t. apply nextRejected_clean. exact (Forall_tail _ _ Hclean). }
  split.
  - intros t Ht.
    rewrite (run_getRoomAvailability_fresh roomId dateRange b (clock w)); auto.
    unfold live. cbn [kv clock set_clock w1 set_kv sent emit set_faults].
    rewrite lookup_insert_eq.
    destruct (t <? clock w + seconds * 1000) eqn:E; [reflexivity|]. apply Z.ltb_ge in E. lia.
  - intros t Ht. apply getRoomAvailability_dead.
    apply (live_set_clock_dead _ _ (stringifyAvailability b (clock w)) (clock w + seconds * 1000));
      [|exact Ht].
    cbn [kv w1 set_kv sent emit set_faults]. apply lookup_insert_eq.
Qed.

Lemma availability_cache_round_trip_witness :
  exists w1,
    run (setRoomAvailability (toHexString 1%N) "2024-03" false 300) world0 = (w1, Ok tt)
    /\ snd (run (getRoomAvailability (toHexString 1%N) "2024-03") (set_clock (clock world0 + 299999) w1))
       = Ok (Some false)
    /\ snd (run (getRoomAvailability (toHexString 1%N) "2024-03") (set_clock (clock world0 + 300000) w1))
       = Ok None.
Proof.
  destruct (availability_cache_round_trip (toHexString 1%N) "2024-03" false 300 world0)
    as (w1 & Hset & _ & _ & Hfresh & Hstale).
  - reflexivity.
  - constructor.
  - exists w1. split; [exact Hset|]. split; [apply Hfresh | apply Hstale]; lia.
Defined.

Lemma complained_emit (lvl : Level) (msg : string) (w : World) :
  lvl <> LOG -> complained (emit (Logged lvl msg) w).
Proof. intros H. exists lvl, msg. split; [reflexivity | exact H]. Qed.

(** The cache helpers fail soft.  Whatever the state of the connection and
    whatever the client answers, [setRoomAvailability], [getRoomAvailability]
    and [RedisConnection.invalidateRoomCache] return normally and leave the
    collections alone.  Without a connection, or when the command is
    rejected, the read answers unknown and the write changes no key, and an
    error line is logged. *)
Theorem cache_helpers_fail_soft (roomId dateRange : string) (b : bool) (seconds : Z) (w : World) :
  (exists w',
      run (setRoomAvailability roomId dateRange b seconds) w = (w', Ok tt)
      /\ sameStore w w'
      /\ (isConnected w = false \/ nextRejected w = true -> kv w' = kv w /\ complained w'))
  /\ (exists w' r,
        run (getRoomAvailability roomId dateRange) w = (w', Ok r)
        /\ sameStore w w' /\ kv w' = kv w
        /\ (isConnected w = false \/ nextRejected w = true -> r = None /\ complained w'))
  /\ (exists w',
        run (redis_invalidateRoomCache roomId) w = (w', Ok tt)
        /\ sameStore w w'
        /\ (isConnected w = false \/ nextRejected w = true -> kv w' = kv w /\ complained w')).
Proof.
  split; [|split].
  - rewrite run_setRoomAvailability. cbv zeta.
    destruct (isConnected w) eqn:Hc; [destruct (nextRejected w) eqn:Hr|];
      eexists; (split; [reflexivity|]); (split; [repeat split|]);
      try (intros _; split; [reflexivity | apply complained_emit; discriminate]).
    intros [H|H]; discriminate.
  - rewrite run_getRoomAvailability. cbv zeta.
    destruct (isConnected w) eqn:Hc; [destruct (nextRejected w) eqn:Hr|].
    + eexists _, _. split; [reflexivity|]. split; [repeat split|]. split; [reflexivity|].
      intros _. split; [reflexivity | apply complained_emit; discriminate].
    + destruct (live w (availabilityKey roomId dateRange)) as [[|c s]|];
        [| destruct (parseAvailability (String c s)) |];
        eexists _, _; (split; [reflexivity|]); (split; [repeat split|]); (split; [reflexivity|]);
        intros [H|H]; discriminate.
    + eexists _, _. split; [reflexivity|]. split; [repeat split|]. split; [reflexivity|].
      intros _. split; [reflexivity | apply complained_emit; discriminate].
  - destruct (noThrow_run _ (redis_invalidateRoomCache_noThrow roomId) w) as (w' & [] & Hrun).
    exists w'. split; [exact Hrun|].
    pose proof (readOnly_sameStore _ (redis_invalidateRoomCache_readOnly roomId) w) as Hs.
    rewrite Hrun in Hs. split; [exact Hs|].
    unfold redis_invalidateRoomCache in Hrun. rewrite run_try_catch in Hrun.
    rewrite run_bind, run_call in Hrun. cbn [exec] in Hrun.
    intros [Hc|Hr].
    + rewrite Hc in Hrun. rewrite run_consoleError in Hrun. injection Hrun as <-.
      split; [reflexivity | apply complained_emit; discriminate].
    + destruct (isConnected w).
      * rewrite run_bind, run_call in Hrun. cbn [exec] in Hrun. rewrite send_world, Hr in Hrun.
        rewrite run_consoleError in Hrun. injection Hrun as <-.
        split; [reflexivity | apply complained_emit; discriminate].
      * rewrite run_consoleError in Hrun. injection Hrun as <-.
        split; [reflexivity | apply complained_emit; discriminate].
Qed.

(** ** Availability *)

Lemma run_cachedAvailability (room : IRoom) (dateRange : string) (w : World) :
  run (cachedAvailability room dateRange) w =
  if connectionActive w then
    match run (getRoomAvailability (toHexString (r_id room)) dateRange) w with
    | (w1, Ok (Some v)) =>
        (emit (Logged LOG ("Cache hit for room " +:+ roomNumber room +:+ " availability")) w1,
         Ok (Some v))
    | (w1, Ok None) => (w1, Ok None)
    | (w1, Err e) =>
        (emit (Logged WARN ("Cache read failed for room " +:+ toHexString (r_id room) +:+ ":")) w1,
         Ok None)
    end
  else (w, Ok None).
Proof.
  unfold cachedAvailability. cbv zeta. rewrite run_try_catch. run_step.
  destruct (connectionActive w); [|reflexivity].
  rewrite run_bind.
  destruct (run (getRoomAvailability _ _) w) as [w1 [[v|]|e]]; reflexivity.
Qed.

(** The reservations the availability query finds for a room. *)
Lemma run_roomAvailability_miss (filter : IRoomAvailabilityFilter) (dateRange : string)
    (room : IRoom) (w : World) :
  connectionActive w = false
  \/ (nextRejected w = false
      /\ live w (availabilityKey (toHexString (r_id room)) dateRange) = None) ->
  let found :=
    List.filter (conflictFilter (r_id room) (f_checkInDate filter) (f_checkOutDate filter)
                   (f_excludeBookingId filter)) (bookings w) in
  exists w',
    run (roomAvailability filter dateRange room) w
    = (w', Ok (availabilityOf room (length found =? 0)%nat (map b_id found)))
    /\ (connectionActive w = false -> w' = w).
Proof.
  intros Hcold found.
  destruct (connectionActive w) eqn:Hact.
  - destruct Hcold as [H|[Hrej Hdead]]; [discriminate|].
    assert (run (cachedAvailability room dateRange) w
            = (sent (CmdGet (availabilityKey (toHexString (r_id room)) dateRange)) w, Ok None))
      as Hmiss.
    { rewrite run_cachedAvailability, Hact, run_getRoomAvailability. cbv zeta.
      rewrite (active_connected w Hact), Hrej, Hdead. reflexivity. }
    destruct (roomAvailability_miss filter dateRange room w _ Hmiss) as (w' & Hrun).
    exists w'. split; [exact Hrun | discriminate].
  - exists w. split; [|reflexivity].
    unfold roomAvailability. cbv zeta. rewrite run_bind, run_cachedAvailability, Hact.
    run_step. fold found. rewrite run_bind, run_try_catch. run_step. rewrite Hact.
    reflexivity.
Qed.

Lemma run_mapM {A B} (f : A -> Prog B) (g : A -> B) (l : list A) (w : World) :
  (forall a, In a l -> run (f a) w = (w, Ok (g a))) ->
  run (mapM f l) w = (w, Ok (map g l)).
Proof.
  induction l as [|a l IH]; intros H; [reflexivity|].
  cbn [mapM]. rewrite run_bind, (H a) by (left; reflexivity).
  rewrite run_bind, IH by (intros x Hx; apply H; right; exact Hx). reflexivity.
Qed.

Lemma no_conflict_iff (room : ObjectId) (checkIn checkOut : Z) (db : list IBooking) :
  (length (List.filter (conflictFilter room checkIn checkOut None) db) =? 0)%nat = true
  <-> ~ (exists b, In b db /\ conflictsWith room checkIn checkOut b).
Proof.
  rewrite <- conflicts_found, length_eqb_nil.
  destruct (List.filter _ db); split; intros H; try reflexivity; try discriminate; auto.
  exfalso. apply H. discriminate.
Qed.

Lemma run_checkRoomAvailability_down (filter : IRoomAvailabilityFilter) (w : World) :
  connectionActive w = false ->
  let found := fun room =>
    List.filter (conflictFilter (r_id room) (f_checkInDate filter) (f_checkOutDate filter)
                   (f_excludeBookingId filter)) (bookings w) in
  run (checkRoomAvailability filter) w
  = (w, Ok (map (fun room => availabilityOf room (length (found room) =? 0)%nat
                               (map b_id (found room)))
              (List.filter (roomFilter filter) (rooms w)))).
Proof.
  intros Hact found. unfold checkRoomAvailability. cbv zeta. run_step.
  apply run_mapM. intros room _.
  destruct (run_roomAvailability_miss filter
              (toISOString (f_checkInDate filter) +:+ "_" +:+ toISOString (f_checkOutDate filter))
              room w (or_introl Hact)) as (w' & Hrun & Hsame).
  rewrite Hrun, (Hsame Hact). reflexivity.
Qed.

(** Without an active Redis connection [checkRoomAvailability] answers from
    the database alone and changes nothing: one entry for each active room
    passing the category and occupancy filter, in collection order, each
    with the ids of the reservations the conflict query finds for it; a room
    is reported available exactly when no active reservation overlaps the
    interval. *)
Theorem checkRoomAvailability_without_redis (filter : IRoomAvailabilityFilter) (w : World) :
  connectionActive w = false ->
  let found := fun room =>
    List.filter (conflictFilter (r_id room) (f_checkInDate filter) (f_checkOutDate filter)
                   (f_excludeBookingId filter)) (bookings w) in
  exists answer,
    run (checkRoomAvailability filter) w = (w, Ok answer)
    /\ answer = map (fun room => availabilityOf room (length (found room) =? 0)%nat
                                   (map b_id (found room)))
                  (List.filter (roomFilter filter) (rooms w))
    /\ map a_id answer = map r_id (List.filter (roomFilter filter) (rooms w))
    /\ (f_excludeBookingId filter = None ->
        forall a, In a answer ->
          a_isAvailable a = true
          <-> ~ (exists b, In b (bookings w)
                   /\ conflictsWith (a_id a) (f_checkInDate filter) (f_checkOutDate filter) b)).
Proof.
  intros Hact found. eexists. split; [|split; [reflexivity|]].
  - exact (run_checkRoomAvailability_down filter w Hact).
  - split.
    + rewrite map_map. reflexivity.
    + intros Hex a Hin. apply in_map_iff in Hin as (room & <- & _).
      cbn [a_isAvailable a_id availabilityOf]. unfold found. rewrite Hex.
      apply no_conflict_iff.
Qed.

Lemma checkRoomAvailability_without_redis_witness :
  exists answer,
    run (checkRoomAvailability (availabilityQuery (feb 3) (feb 6)))
      (set_bookings [bookingFeb] worldDown) = (set_bookings [bookingFeb] worldDown, Ok answer)
    /\ map a_isAvailable answer = [false].
Proof.
  destruct (checkRoomAvailability_without_redis (availabilityQuery (feb 3) (feb 6))
              (set_bookings [bookingFeb] worldDown)) as (answer & Hrun & -> & _).
  - reflexivity.
  - eexists. split; [exact Hrun|]. vm_compute. reflexivity.
Defined.

Lemma cached_verdict_hit (filter : IRoomAvailabilityFilter) (dateRange : string)
    (room : IRoom) (v : bool) (timestamp : Z) (w : World) :
  connectionActive w = true ->
  nextRejected w = false ->
  live w (availabilityKey (toHexString (r_id room)) dateRange)
  = Some (stringifyAvailability v timestamp) ->
  exists w',
    run (roomAvailability filter dateRange room) w
    = (w', Ok (availabilityOf room v
                 (if v then []
                  else map b_id
                         (List.filter
                            (conflictFilter (r_id room) (f_checkInDate filter)
                               (f_checkOutDate filter) (f_excludeBookingId filter))
                            (bookings w)))))
    /\ kv w' = kv w /\ sameStore w w'.
Proof.
  intros Hact Hrej Hlive. unfold roomAvailability. cbv zeta.
  rewrite run_bind, run_cachedAvailability, Hact.
  rewrite (run_getRoomAvailability_fresh _ _ v timestamp)
    by auto using active_connected.
  destruct v.
  - eexists. split; [reflexivity|]. split; [reflexivity | repeat split].
  - run_step. eexists. split; [reflexivity|]. split; [reflexivity | repeat split].
Qed.

(** A live cached verdict is what the availability query answers, whatever
    the reservations in the database: a cached [true] is served with no
    conflicting booking listed and without a look at the collection; for a
    cached [false] the conflicting bookings are fetched, and may be none.
    The cache itself is left as it was. *)
Theorem cached_verdict_is_served (filter : IRoomAvailabilityFilter) (dateRange : string)
    (room : IRoom) (v : bool) (timestamp : Z) (w : World) :
  connectionActive w = true ->
  nextRejected w = false ->
  live w (availabilityKey (toHexString (r_id room)) dateRange)
  = Some (stringifyAvailability v timestamp) ->
  exists w',
    run (roomAvailability filter dateRange room) w
    = (w', Ok (availabilityOf room v
                 (if v then []
                  else map b_id
                         (List.filter
                            (conflictFilter (r_id room) (f_checkInDate filter)
                               (f_checkOutDate filter) (f_excludeBookingId filter))
                            (bookings w)))))
    /\ kv w' = kv w /\ sameStore w w'.
Proof. exact (cached_verdict_hit filter dateRange room v timestamp w). Qed.

Lemma cached_verdict_is_served_witness :
  exists w',
    run (roomAvailability (availabilityQuery (mar 1) (mar 4))
           (toISOString (mar 1) +:+ "_" +:+ toISOString (mar 4)) roomR1)
      (set_bookings [bookingA] worldCached)
    = (w', Ok (availabilityOf roomR1 true [])).
Proof.
  destruct (cached_verdict_is_served (availabilityQuery (mar 1) (mar 4))
              (toISOString (mar 1) +:+ "_" +:+ toISOString (mar 4)) roomR1 true 1700000000000
              (set_bookings [bookingA] worldCached)) as (w' & Hrun & _).
  - reflexivity.
  - reflexivity.
  - vm_compute. reflexivity.
  - exists w'. exact Hrun.
Defined.

(** ** createBooking: what it leaves behind *)

(** The store after a successful [createBooking]. *)
Lemma createBooking_Ok_effects (uid : string) (bookingData : ICreateBooking) (w w' : World)
    (b : IBooking) :
  run (createBooking uid bookingData) w = (w', Ok b) ->
  exists user room r now,
    newObjectId uid = Ok user
    /\ newObjectId (c_roomId bookingData) = Ok room
    /\ List.find (fun r => (r_id r =? room)%N) (rooms w) = Some r
    /\ b = newBooking user room bookingData r now (nextOid w)
    /\ bookings w' = bookings w ++ [b]
    /\ rooms w' = rooms w
    /\ connectionActive w = true /\ connectionActive w' = true
    /\ (Forall (fun f => f = false) (faults w) ->
        Forall (fun f => f = false) (faults w')
        /\ forall dateRange, live w' (availabilityKey (toHexString room) dateRange) = None).
Proof.
  intros H.
  destruct (createBooking_Ok_inv uid bookingData w w' b H)
    as (user & room & r & w1 & w3 & Hu & Hr & Hacq & Hfind & Herrs & Hb & Hinv & Hw').
  set (l := bookingLock room (c_checkInDate bookingData) (c_checkOutDate bookingData)
              (ownerValue w)) in *.
  set (w0 := set_randoms (tail (randoms w)) w) in *.
  pose proof (acquire_true_active l w0 w1 Hacq) as Hact0.
  destruct (run_acquire l w0) as (w1' & r1 & new & Hacq' & Hpost);
    [simpl; lia | assumption |].
  rewrite Hacq in Hacq'. injection Hacq' as <- <-.
  destruct Hpost as (_ & (Hrooms & Hbookings & Hoid & _) & _).
  change (rooms w1 = rooms w) in Hrooms. change (bookings w1 = bookings w) in Hbookings.
  change (nextOid w1 = nextOid w) in Hoid.
  destruct (connection_after _ _ _ _ Hacq) as (Hact1 & _ & Hclean1).
  set (wi := inserted b (emit (Logged LOG (creatingMessage room bookingData)) w1)) in *.
  destruct (run (invalidateAfterCreate room) wi) as [w3' ri] eqn:Hruninv.
  simpl in Hinv. subst w3'.
  destruct (connection_after _ _ _ _ Hruninv) as (Hact3 & Hrooms3 & Hclean3).
  set (w4 := emit (Logged LOG (createdMessage (nextOid w1))) w3) in *.
  destruct (run (release l) w4) as [w5 rr] eqn:Hrunrel.
  simpl in Hw'. subst w5.
  destruct (connection_after _ _ _ _ Hrunrel) as (Hact5 & Hrooms5 & Hclean5).
  exists user, room, r, (clock w1). rewrite <- Hrooms, <- Hoid.
  split; [assumption|]. split; [assumption|]. split; [assumption|]. split; [assumption|].
  split.
  { pose proof (bookings_after_readOnly _ w4 (release_readOnly l)) as H5.
    rewrite Hrunrel in H5. cbn [fst] in H5. rewrite H5. cbn [bookings w4 emit].
    pose proof (bookings_after_readOnly _ wi (invalidateAfterCreate_readOnly room)) as H3.
    rewrite Hruninv in H3. cbn [fst] in H3. rewrite H3.
    cbn [bookings wi inserted set_nextOid set_bookings emit].
    rewrite Hbookings. reflexivity. }
  split. { rewrite Hrooms5. cbn [rooms w4 emit]. rewrite Hrooms3. reflexivity. }
  split; [exact Hact0|].
  split. { rewrite Hact5. change (connectionActive w3 = true). rewrite Hact3.
           change (connectionActive w1 = true). rewrite Hact1. exact Hact0. }
  intros Hclean. split.
  { apply Hclean5. apply Hclean3. apply Hclean1. exact Hclean. }
  intros dateRange.
  destruct (run_invalidateAfterCreate room wi) as (w3' & Hrun & _ & Hdead).
  { change (connectionActive w1 = true). rewrite Hact1. exact Hact0. }
  { apply Hclean1. exact Hclean. }
  rewrite Hrun in Hruninv. injection Hruninv as -> _.
  pose proof (release_effect l w4) as Heff. rewrite Hrunrel in Heff. cbn [fst] in Heff.
  apply Heff. apply Hdead.
Qed.

(** Right after a successful [createBooking] (no Redis command rejected), the
    availability query for the booked room and any interval that meets the
    new booking's reports the room unavailable and lists the new booking,
    whatever verdict the cache held before: the entry was invalidated, so the
    answer is computed from the collection. *)
Theorem booked_room_reads_unavailable (uid : string) (bookingData : ICreateBooking)
    (w w' : World) (b : IBooking) (filter : IRoomAvailabilityFilter) (dateRange : string)
    (room : IRoom) :
  run (createBooking uid bookingData) w = (w', Ok b) ->
  Forall (fun f => f = false) (faults w) ->
  r_id room = roomId b ->
  f_checkInDate filter < checkOutDate b -> checkInDate b < f_checkOutDate filter ->
  f_excludeBookingId filter <> Some (b_id b) ->
  exists w'' a,
    run (roomAvailability filter dateRange room) w' = (w'', Ok a)
    /\ a_isAvailable a = false
    /\ In (b_id b) (conflictingBookings a).
Proof.
  intros Hrun Hclean Hroom Hin Hout Hex.
  destruct (createBooking_Ok_effects uid bookingData w w' b Hrun)
    as (user & rid & r & now & _ & _ & _ & Hb & Hbookings & _ & _ & Hact & Hafter).
  destruct (Hafter Hclean) as (Hclean' & Hdead).
  assert (roomId b = rid) as Hrid by (rewrite Hb; reflexivity).
  destruct (run_roomAvailability_miss filter dateRange room w') as (w'' & Hrun' & _).
  { right. split; [apply nextRejected_clean; assumption|].
    rewrite Hroom, Hrid. apply Hdead. }
  eexists w'', _. split; [exact Hrun'|].
  assert (In b (List.filter (conflictFilter (r_id room) (f_checkInDate filter)
                               (f_checkOutDate filter) (f_excludeBookingId filter))
                  (bookings w'))) as Hfound.
  { apply List.filter_In. split.
    - rewrite Hbookings. apply in_or_app. right. left. reflexivity.
    - unfold conflictFilter. rewrite Hroom, N.eqb_refl.
      assert (status b = PENDING) as -> by (rewrite Hb; reflexivity).
      assert ((checkInDate b <? f_checkOutDate filter) = true) as -> by (apply Z.ltb_lt; lia).
      assert ((checkOutDate b >? f_checkInDate filter) = true) as -> by (apply Z.gtb_gt; lia).
      destruct (f_excludeBookingId filter) as [x|]; [|reflexivity].
      simpl. apply negb_true_iff, N.eqb_neq. congruence. }
  cbn [a_isAvailable conflictingBookings availabilityOf]. split.
  - destruct (List.filter _ (bookings w')); [destruct Hfound | reflexivity].
  - apply in_map. exact Hfound.
Qed.

Lemma booked_room_reads_unavailable_witness :
  exists w' b w'' a,
    run (createBooking (toHexString 7%N) (request (mar 1) (mar 4) 2)) worldCached = (w', Ok b)
    /\ run (roomAvailability (availabilityQuery (mar 3) (mar 5)) "2024-03-03_2024-03-05" roomR1) w'
       = (w'', Ok a)
    /\ a_isAvailable a = false.
Proof.
  destruct (booked_room_reads_unavailable (toHexString 7%N) (request (mar 1) (mar 4) 2)
              worldCached
              (fst (run (createBooking (toHexString 7%N) (request (mar 1) (mar 4) 2)) worldCached))
              bookingA (availabilityQuery (mar 3) (mar 5)) "2024-03-03_2024-03-05" roomR1)
    as (w'' & a & Hrun & Hno & _).
  - vm_compute. reflexivity.
  - constructor.
  - reflexivity.
  - vm_compute. reflexivity.
  - vm_compute. reflexivity.
  - discriminate.
  - eexists _, bookingA, w'', a. split; [vm_compute; reflexivity|]. split; assumption.
Defined.

(** ** createBooking: failure *)

Lemma acquire_bookings (l : RedisLock) (w : World) :
  -1 <= maxRetries l -> sameStore w (fst (run (acquire l) w)).
Proof.
  intros Hmax. destruct (connectionActive w) eqn:Hact.
  - destruct (run_acquire l w Hmax Hact) as (w' & r & new & -> & _ & Hs & _). exact Hs.
  - rewrite run_acquire_inactive by assumption. apply sameStore_refl.
Qed.

(** When [createBooking] throws it has written nothing: the bookings
    collection, the rooms and the next id are as before.  In particular it
    throws, before any command is sent, whenever the Redis connection is not
    active, however free the room: the lock is not optional. *)
Theorem createBooking_fails_without_writing :
  (forall uid bookingData w w' e,
      run (createBooking uid bookingData) w = (w', Err e) -> sameStore w w')
  /\ (forall uid bookingData w user room,
        newObjectId uid = Ok user ->
        newObjectId (c_roomId bookingData) = Ok room ->
        connectionActive w = false ->
        run (createBooking uid bookingData) w
        = (set_randoms (tail (randoms w)) w,
           Err (JsError "Redis connection not active for locking")))
  /\ (exists w',
        run (createBooking (toHexString 7%N) (request (mar 1) (mar 4) 2)) worldDown
        = (w', Err (JsError "Redis connection not active for locking"))
        /\ bookings w' = []).
Proof.
  split; [|split].
  - intros uid bookingData w w' e H.
    destruct (newObjectId uid) as [user|e1] eqn:Hu.
    2:{ unfold createBooking in H. rewrite run_bind, objectId_run, Hu in H.
        injection H as <- _. apply sameStore_refl. }
    destruct (newObjectId (c_roomId bookingData)) as [room|e1] eqn:Hr.
    2:{ unfold createBooking in H.
        rewrite run_bind, objectId_run, Hu, run_bind, objectId_run, Hr in H.
        injection H as <- _. apply sameStore_refl. }
    rewrite (run_createBooking uid bookingData w user room Hu Hr) in H.
    set (l := bookingLock room (c_checkInDate bookingData) (c_checkOutDate bookingData)
                (ownerValue w)) in *.
    set (w0 := set_randoms (tail (randoms w)) w) in *.
    assert (sameStore w w0) as Hs0 by (repeat split).
    pose proof (acquire_bookings l w0 ltac:(simpl; lia)) as Hs1.
    pose proof (run_withLock l (createBookingLocked user room bookingData) w0) as Hwl.
    destruct (run (acquire l) w0) as [w1 [[|]|e1]] eqn:Hacq; simpl in Hs1.
    2:{ rewrite Hwl in H. injection H as <- _. exact (sameStore_trans _ _ _ Hs0 Hs1). }
    2:{ rewrite Hwl in H. injection H as <- _. exact (sameStore_trans _ _ _ Hs0 Hs1). }
    rewrite (run_createBookingLocked user room bookingData w1 Hr) in Hwl. cbv zeta in Hwl.
    assert (forall w2 (r2 : result IBooking),
               sameStore w1 w2 ->
               (let '(w3, _) := run (release l) w2 in
                run (withLock l (createBookingLocked user room bookingData)) w0 = (w3, r2)) ->
               r2 = Err e /\ sameStore w w') as Hdone.
    { intros w2 r2 Hs2 Hwl'.
      pose proof (readOnly_sameStore _ (release_readOnly l) w2) as Hs3.
      destruct (run (release l) w2) as [w3 rr]. simpl in Hs3.
      rewrite Hwl' in H. injection H as <- <-. split; [reflexivity|].
      exact (sameStore_trans _ _ _ Hs0 (sameStore_trans _ _ _ Hs1 (sameStore_trans _ _ _ Hs2 Hs3))). }
    destruct (List.find _ (rooms w1)) as [r|].
    + destruct (length (validationErrors bookingData r room w1) =? 0)%nat.
      * destruct (run (invalidateAfterCreate room) _) as [w3 ri].
        match type of Hwl with
        | (let '(_, _) := run _ ?x in _) =>
            destruct (run (release l) x) as [w4 rr]
        end.
        rewrite Hwl in H. discriminate.
      * eapply Hdone; [|exact Hwl]. repeat split.
    + eapply Hdone; [|exact Hwl]. repeat split.
  - intros uid bookingData w user room Hu Hr Hact.
    rewrite (run_createBooking uid bookingData w user room Hu Hr).
    pose proof (run_withLock (bookingLock room (c_checkInDate bookingData)
                                (c_checkOutDate bookingData) (ownerValue w))
                  (createBookingLocked user room bookingData)
                  (set_randoms (tail (randoms w)) w)) as Hwl.
    rewrite run_acquire_inactive in Hwl by exact Hact. exact Hwl.
  - eexists. split; vm_compute; reflexivity.
Qed.

Lemma run_invalidateAfterChange (room : ObjectId) (w : World) :
  connectionActive w = true ->
  Forall (fun f => f = false) (faults w) ->
  exists w',
    run (invalidateAfterChange room) w = (w', Ok tt)
    /\ forall dateRange, live w' (availabilityKey (toHexString room) dateRange) = None.
Proof.
  intros Hact Hclean. unfold invalidateAfterChange.
  rewrite run_try_catch, run_bind, run_call. cbn [exec]. rewrite Hact.
  destruct (run_service_invalidateRoomCache (toHexString room) w Hact Hclean)
    as (w' & -> & _ & Hlive).
  exists w'. split; [reflexivity|]. intros dateRange.
  rewrite Hlive, servicePattern_matches by apply toHexString_literal. reflexivity.
Qed.

(** ** updateBooking *)

Lemma invalidateAfterUpdate_readOnly (u : IUpdateBooking) (room : ObjectId) :
  readOnly (invalidateAfterUpdate u room).
Proof. unfold invalidateAfterUpdate. solve_readOnly. Qed.

Lemma invalidateAfterUpdate_noThrow (u : IUpdateBooking) (room : ObjectId) :
  noThrow (invalidateAfterUpdate u room).
Proof. unfold invalidateAfterUpdate. solve_noThrow. Qed.

Lemma run_updateBooking (bookingId : string) (updateData : IUpdateBooking) (w : World)
    (oid : ObjectId) :
  newObjectId bookingId = Ok oid ->
  run (updateBooking bookingId updateData) w
  = match List.find (fun b => (b_id b =? oid)%N) (bookings w) with
    | None => (w, Err (JsError "Booking not found"))
    | Some b =>
        let b' := applyUpdate updateData (clock w) b in
        (fst (run (invalidateAfterUpdate updateData (roomId b'))
                (set_bookings
                   (snd (updateFirst (fun b => (b_id b =? oid)%N)
                           (applyUpdate updateData (clock w)) (bookings w))) w)),
         Ok b')
    end.
Proof.
  intros Hoid. unfold updateBooking. rewrite run_bind, objectId_run, Hoid. run_step.
  run_step. pose proof (updateFirst_spec (fun b => (b_id b =? oid)%N)
                          (applyUpdate updateData (clock w)) (bookings w)) as Hspec.
  destruct (List.find _ (bookings w)) as [b|].
  - destruct Hspec as (pre & post & _ & _ & ->). cbn [fst snd].
    rewrite run_bind.
    change (try_catch _ _)
      with (invalidateAfterUpdate updateData (roomId (applyUpdate updateData (clock w) b))).
    destruct (noThrow_run _ (invalidateAfterUpdate_noThrow updateData
                               (roomId (applyUpdate updateData (clock w) b)))
                (set_bookings (pre ++ applyUpdate updateData (clock w) b :: post) w))
      as (w' & [] & ->).
    reflexivity.
  - rewrite Hspec. rewrite set_bookings_same. reflexivity.
Qed.

Lemma find_by_id_none (oid : ObjectId) (l : list IBooking) :
  List.find (fun b => (b_id b =? oid)%N) l = None <-> forall b, In b l -> b_id b <> oid.
Proof.
  rewrite find_none_iff. split; intros H b Hin; specialize (H b Hin); apply N.eqb_neq; exact H.
Qed.

(** [updateBooking] applies whatever it is given to the booking with the id,
    in place, and checks nothing: no date order, no conflict, no capacity, no
    status precondition.  It throws "Booking not found", writing nothing,
    exactly when no booking has the id.  So reservation B can be moved onto
    the dates of reservation A of the same room, after which two pending
    reservations overlap; and a cancelled booking can be set to confirmed,
    which [confirmBooking] refuses. *)
Theorem updateBooking_checks_nothing :
  (forall bookingId updateData w oid b,
      newObjectId bookingId = Ok oid ->
      List.find (fun b => (b_id b =? oid)%N) (bookings w) = Some b ->
      exists w' pre post,
        run (updateBooking bookingId updateData) w
        = (w', Ok (applyUpdate updateData (clock w) b))
        /\ bookings w = pre ++ b :: post
        /\ bookings w' = pre ++ applyUpdate updateData (clock w) b :: post)
  /\ (forall bookingId updateData w oid,
        newObjectId bookingId = Ok oid ->
        (forall b, In b (bookings w) -> b_id b <> oid) ->
        run (updateBooking bookingId updateData) w = (w, Err (JsError "Booking not found")))
  /\ (exists w' a b,
        run (updateBooking (toHexString 101%N) (moveTo (mar 2) (mar 5))) worldAB = (w', Ok b)
        /\ bookings w' = [a; b]
        /\ roomId a = roomId b /\ status a = PENDING /\ status b = PENDING
        /\ checkInDate a < checkOutDate b /\ checkInDate b < checkOutDate a)
  /\ (exists w1 w2 b,
        run (cancelBooking (toHexString 100%N) None) worldAB = (w1, Ok b)
        /\ (exists e, run (confirmBooking (toHexString 100%N)) w1 = (w1, Err e))
        /\ (exists b', run (updateBooking (toHexString 100%N) (statusTo CONFIRMED)) w1
                       = (w2, Ok b')
                       /\ status b' = CONFIRMED)).
Proof.
  split; [|split; [|split]].
  - intros bookingId updateData w oid b Hoid Hfind.
    rewrite (run_updateBooking bookingId updateData w oid Hoid), Hfind. cbv zeta.
    pose proof (updateFirst_spec (fun b => (b_id b =? oid)%N) (applyUpdate updateData (clock w))
                  (bookings w)) as Hspec.
    rewrite Hfind in Hspec. destruct Hspec as (pre & post & Hl & _ & Hup).
    eexists _, pre, post. split; [reflexivity|]. split; [exact Hl|].
    rewrite bookings_after_readOnly by apply invalidateAfterUpdate_readOnly.
    rewrite Hup. reflexivity.
  - intros bookingId updateData w oid Hoid Hno.
    rewrite (run_updateBooking bookingId updateData w oid Hoid).
    apply find_by_id_none in Hno. rewrite Hno. reflexivity.
  - eexists _, _, _. split; [vm_compute; reflexivity|].
    split; [vm_compute; reflexivity|]. repeat split.
  - eexists _, _, _. split; [vm_compute; reflexivity|].
    split; [eexists; vm_compute; reflexivity|].
    eexists. split; [vm_compute; reflexivity | reflexivity].
Qed.

(** An update that changes no date sends nothing to Redis: the cache is as
    it was.  So when a booking is cancelled through [updateBooking], a cached
    verdict "unavailable" for its room outlives the reservation, and the
    availability query keeps reporting the room unavailable; [cancelBooking]
    of the same booking removes the entry. *)
Theorem status_update_keeps_cache (bookingId : string) (updateData : IUpdateBooking)
    (w : World) (oid : ObjectId) (b : IBooking) :
  newObjectId bookingId = Ok oid ->
  List.find (fun b => (b_id b =? oid)%N) (bookings w) = Some b ->
  datesChanged updateData = false ->
  exists w',
    run (updateBooking bookingId updateData) w = (w', Ok (applyUpdate updateData (clock w) b))
    /\ kv w' = kv w /\ trace w' = trace w /\ faults w' = faults w /\ clock w' = clock w
    /\ (forall filter dateRange room timestamp,
          connectionActive w = true -> nextRejected w = false ->
          live w (availabilityKey (toHexString (r_id room)) dateRange)
          = Some (stringifyAvailability false timestamp) ->
          exists w'' a,
            run (roomAvailability filter dateRange room) w' = (w'', Ok a)
            /\ a_isAvailable a = false)
    /\ (Forall (fun f => f = false) (faults w) -> connectionActive w = true ->
        forall reason dateRange,
          live (fst (run (cancelBooking bookingId reason) w))
            (availabilityKey (toHexString (roomId b)) dateRange) = None).
Proof.
  intros Hoid Hfind Hdates.
  rewrite (run_updateBooking bookingId updateData w oid Hoid), Hfind. cbv zeta.
  match goal with
  | |- context [run (invalidateAfterUpdate _ _) ?x] => set (w1 := x)
  end.
  assert (run (invalidateAfterUpdate updateData (roomId (applyUpdate updateData (clock w) b))) w1
          = (w1, Ok tt)) as Hinv.
  { unfold invalidateAfterUpdate. rewrite run_try_catch. run_step. rewrite Hdates.
    rewrite andb_false_r. reflexivity. }
  rewrite Hinv. cbn [fst]. exists w1.
  split; [reflexivity|]. repeat split.
  - intros filter dateRange room timestamp Hact Hrej Hlive.
    destruct (cached_verdict_hit filter dateRange room false timestamp w1 Hact Hrej Hlive)
      as (w'' & Hrun & _).
    eexists w'', _. split; [exact Hrun | reflexivity].
  - intros Hclean Hact reason dateRange.
    rewrite (run_cancelBooking bookingId reason w oid Hoid), Hfind. cbv zeta. cbn [fst].
    match goal with
    | |- context [run (invalidateAfterChange ?r) ?x] =>
        destruct (run_invalidateAfterChange r x Hact Hclean) as (w2 & -> & Hdead)
    end.
    apply Hdead.
Qed.

Lemma status_update_keeps_cache_witness :
  exists w' w'' a,
    run (updateBooking (toHexString 100%N) (statusTo CANCELLED)) worldStale
    = (w', Ok (applyUpdate (statusTo CANCELLED) (clock worldStale) bookingA))
    /\ run (roomAvailability (availabilityQuery (mar 1) (mar 4))
              (toISOString (mar 1) +:+ "_" +:+ toISOString (mar 4)) roomR1) w'
       = (w'', Ok a)
    /\ a_isAvailable a = false.
Proof.
  destruct (status_update_keeps_cache (toHexString 100%N) (statusTo CANCELLED) worldStale
              100%N bookingA) as (w' & Hrun & _ & _ & _ & _ & Hstale & _).
  - vm_compute. reflexivity.
  - reflexivity.
  - reflexivity.
  - destruct (Hstale (availabilityQuery (mar 1) (mar 4))
                (toISOString (mar 1) +:+ "_" +:+ toISOString (mar 4)) roomR1 1700000000000)
      as (w'' & a & Hav & Hno).
    + reflexivity.
    + reflexivity.
    + vm_compute. reflexivity.
    + exists w', w'', a. auto.
Defined.

(** ** Status changes, with unique ids *)

Lemma find_app_miss {A} (f : A -> bool) (pre l : list A) :
  (forall x, In x pre -> f x = false) -> List.find f (pre ++ l) = List.find f l.
Proof.
  induction pre as [|x pre IH]; intros H; [reflexivity|].
  simpl. rewrite (H x) by (left; reflexivity). apply IH. intros y Hy. apply H. right. exact Hy.
Qed.

(** Updating the document a filter finds, when ids are unique and the filter
    selects by id. *)
Lemma find_after_update (f : IBooking -> bool) (u : IBooking -> IBooking) (l : list IBooking)
    (oid : ObjectId) (b : IBooking) :
  NoDup (map b_id l) ->
  (forall x, b_id (u x) = b_id x) ->
  (forall x, f x = true -> b_id x = oid) ->
  List.find f l = Some b ->
  let l' := snd (updateFirst f u l) in
  List.find (fun x => (b_id x =? oid)%N) l' = Some (u b)
  /\ NoDup (map b_id l')
  /\ (forall c, In c l' -> c = u b \/ (In c l /\ b_id c <> oid)).
Proof.
  intros Hnd Hu Hf Hfind l'.
  pose proof (updateFirst_spec f u l) as Hspec. rewrite Hfind in Hspec.
  destruct Hspec as (pre & post & Hl & _ & Hup).
  assert (b_id b = oid) as Hb by (apply Hf; apply List.find_some in Hfind; tauto).
  unfold l'. rewrite Hup. cbn [snd]. subst l.
  rewrite map_app in Hnd. cbn [map] in Hnd.
  apply NoDup_app in Hnd as (Hpre & Hdisj & Hpost).
  apply NoDup_cons in Hpost as (Hnotin & Hpost).
  assert (forall x, In x pre -> b_id x <> oid) as Hpre_ne.
  { intros x Hx Heq. apply (Hdisj (b_id x)).
    - apply list_elem_of_In, in_map. exact Hx.
    - rewrite Heq, <- Hb. left. }
  assert (forall x, In x post -> b_id x <> oid) as Hpost_ne.
  { intros x Hx Heq. apply Hnotin. rewrite Hb, <- Heq. apply list_elem_of_In, in_map. exact Hx. }
  split; [|split].
  - rewrite find_app_miss by (intros x Hx; apply N.eqb_neq; auto).
    simpl. rewrite Hu, Hb, N.eqb_refl. reflexivity.
  - rewrite map_app. cbn [map]. rewrite Hu. apply NoDup_app. split; [exact Hpre|].
    split; [exact Hdisj|]. apply NoDup_cons. split; assumption.
  - intros c Hc. apply in_app_or in Hc as [Hc|[Hc|Hc]].
    + right. split; [apply in_or_app; left; exact Hc | auto].
    + left. symmetry. exact Hc.
    + right. split; [apply in_or_app; right; right; exact Hc | auto].
Qed.

Lemma setStatus_id (s : BookingStatus) (now : Z) (b : IBooking) : b_id (setStatus s now b) = b_id b.
Proof. reflexivity. Qed.

(** The store after [cancelBooking] or [confirmBooking] found its booking. *)
Lemma after_status_change (f : IBooking -> bool) (s : BookingStatus) (w : World) (oid : ObjectId)
    (b : IBooking) :
  let l' := snd (updateFirst f (setStatus s (clock w)) (bookings w)) in
  let w' := fst (run (invalidateAfterChange (roomId (setStatus s (clock w) b)))
                   (set_bookings l' w)) in
  bookings w' = l'
  /\ connectionActive w' = connectionActive w
  /\ (Forall (fun x => x = false) (faults w) ->
      Forall (fun x => x = false) (faults w')
      /\ (connectionActive w = true ->
          forall dateRange, live w' (availabilityKey (toHexString (roomId b)) dateRange) = None)).
Proof.
  intros l' w'. unfold w'.
  destruct (run (invalidateAfterChange _) (set_bookings l' w)) as [w2 r] eqn:Hrun. cbn [fst].
  pose proof (bookings_after_readOnly _ (set_bookings l' w)
                (invalidateAfterChange_readOnly (roomId (setStatus s (clock w) b)))) as Hb.
  rewrite Hrun in Hb. cbn [fst] in Hb.
  destruct (connection_after _ _ _ _ Hrun) as (Hact & _ & Hclean).
  split; [exact Hb|]. split; [exact Hact|].
  intros Hc. split; [apply Hclean; exact Hc|].
  intros Hactive dateRange.
  destruct (run_invalidateAfterChange (roomId (setStatus s (clock w) b)) (set_bookings l' w)
              Hactive Hc) as (w3 & Hrun' & Hdead).
  rewrite Hrun' in Hrun. injection Hrun as <- _. apply Hdead.
Qed.

(** When ids are unique and the cancelled booking was the only reservation
    standing in the way, the availability query run right after
    [cancelBooking] reports the room available, with or without a Redis
    connection and whatever verdict was cached: the verdict is computed from
    the collection, where the booking is now cancelled. *)
Theorem cancelled_booking_frees_room (bookingId : string) (reason : option string) (w : World)
    (oid : ObjectId) (b : IBooking) (filter : IRoomAvailabilityFilter) (dateRange : string)
    (room : IRoom) :
  newObjectId bookingId = Ok oid ->
  NoDup (map b_id (bookings w)) ->
  List.find (fun b => (b_id b =? oid)%N) (bookings w) = Some b ->
  Forall (fun f => f = false) (faults w) ->
  r_id room = roomId b ->
  (forall c, In c (bookings w) -> b_id c <> oid ->
             conflictFilter (r_id room) (f_checkInDate filter) (f_checkOutDate filter)
               (f_excludeBookingId filter) c = false) ->
  exists w' w'',
    run (cancelBooking bookingId reason) w = (w', Ok (setStatus CANCELLED (clock w) b))
    /\ run (roomAvailability filter dateRange room) w' = (w'', Ok (availabilityOf room true [])).
Proof.
  intros Hoid Hnd Hfind Hclean Hroom Hothers.
  rewrite (run_cancelBooking bookingId reason w oid Hoid), Hfind. cbv zeta.
  destruct (after_status_change (fun b => (b_id b =? oid)%N) CANCELLED w oid b)
    as (Hb & Hact & Hafter).
  destruct (Hafter Hclean) as (Hclean' & Hdead).
  destruct (find_after_update (fun b => (b_id b =? oid)%N) (setStatus CANCELLED (clock w))
              (bookings w) oid b Hnd (setStatus_id CANCELLED (clock w))
              ltac:(intros x Hx; apply N.eqb_eq; exact Hx) Hfind) as (_ & _ & Hin).
  match goal with
  | |- context [run (invalidateAfterChange ?r) ?x] =>
      set (w' := fst (run (invalidateAfterChange r) x)) in *
  end.
  destruct (run_roomAvailability_miss filter dateRange room w') as (w'' & Hrun & _).
  { destruct (connectionActive w) eqn:Ha.
    - right. split; [apply nextRejected_clean; exact Hclean'|].
      rewrite Hroom. apply Hdead. reflexivity.
    - left. rewrite Hact. reflexivity. }
  exists w', w''. split; [reflexivity|].
  rewrite Hrun.
  assert (List.filter (conflictFilter (r_id room) (f_checkInDate filter) (f_checkOutDate filter)
                         (f_excludeBookingId filter)) (bookings w') = []) as ->.
  { destruct (List.filter _ (bookings w')) as [|c rest] eqn:E; [reflexivity|]. exfalso.
    assert (In c (List.filter (conflictFilter (r_id room) (f_checkInDate filter)
                                 (f_checkOutDate filter) (f_excludeBookingId filter))
                    (bookings w'))) as Hc by (rewrite E; left; reflexivity).
    apply List.filter_In in Hc as (Hc & Hconf). rewrite Hb in Hc.
    destruct (Hin c Hc) as [->|(Hcin & Hne)].
    - unfold conflictFilter in Hconf. cbn [status setStatus isActiveStatus] in Hconf.
      rewrite andb_false_r in Hconf. discriminate.
    - rewrite (Hothers c Hcin Hne) in Hconf. discriminate. }
  reflexivity.
Qed.

Lemma cancelled_booking_frees_room_witness :
  exists w' w'',
    run (cancelBooking (toHexString 100%N) None) worldStale
    = (w', Ok (setStatus CANCELLED (clock worldStale) bookingA))
    /\ run (roomAvailability (availabilityQuery (mar 1) (mar 4))
              (toISOString (mar 1) +:+ "_" +:+ toISOString (mar 4)) roomR1) w'
       = (w'', Ok (availabilityOf roomR1 true [])).
Proof.
  apply (cancelled_booking_frees_room (toHexString 100%N) None worldStale 100%N bookingA).
  - vm_compute. reflexivity.
  - apply NoDup_cons. split; [apply not_elem_of_nil | apply NoDup_nil_2].
  - reflexivity.
  - constructor.
  - reflexivity.
  - intros c [<-|[]] Hne. exfalso. apply Hne. reflexivity.
Defined.

(** With unique ids, confirming is one-way and cancelling is final for both
    operations: after [confirmBooking] or [cancelBooking] has returned a
    booking, [confirmBooking] of the same id throws and changes nothing,
    while [cancelBooking] of it succeeds again and returns it cancelled. *)
Theorem confirm_is_one_way (bookingId : string) (w w1 : World) (oid : ObjectId) (b1 : IBooking) :
  newObjectId bookingId = Ok oid ->
  NoDup (map b_id (bookings w)) ->
  run (confirmBooking bookingId) w = (w1, Ok b1)
  \/ (exists reason, run (cancelBooking bookingId reason) w = (w1, Ok b1)) ->
  (status b1 = CONFIRMED \/ status b1 = CANCELLED)
  /\ run (confirmBooking bookingId) w1
     = (w1, Err (JsError "Booking not found or cannot be confirmed"))
  /\ forall reason, exists w2,
       run (cancelBooking bookingId reason) w1 = (w2, Ok (setStatus CANCELLED (clock w1) b1)).
Proof.
  intros Hoid Hnd Hrun.
  assert (exists f s b,
             (forall x, f x = true -> b_id x = oid)
             /\ List.find f (bookings w) = Some b
             /\ (s = CONFIRMED \/ s = CANCELLED)
             /\ b1 = setStatus s (clock w) b
             /\ bookings w1 = snd (updateFirst f (setStatus s (clock w)) (bookings w)))
    as (f & s & b & Hf & Hfind & Hs & -> & Hb1).
  { destruct Hrun as [Hrun|(reason & Hrun)].
    - rewrite (run_confirmBooking bookingId w oid Hoid) in Hrun. cbv zeta in Hrun.
      destruct (List.find _ (bookings w)) as [b|] eqn:Hfind; [|discriminate].
      injection Hrun as <- <-.
      eexists _, CONFIRMED, b. split; [|split; [exact Hfind|]].
      { intros x Hx. apply andb_true_iff in Hx as [Hx _]. apply N.eqb_eq. exact Hx. }
      split; [left; reflexivity|]. split; [reflexivity|].
      apply (after_status_change _ CONFIRMED w oid b).
    - rewrite (run_cancelBooking bookingId reason w oid Hoid) in Hrun. cbv zeta in Hrun.
      destruct (List.find _ (bookings w)) as [b|] eqn:Hfind; [|discriminate].
      injection Hrun as <- <-.
      eexists _, CANCELLED, b. split; [|split; [exact Hfind|]].
      { intros x Hx. apply N.eqb_eq. exact Hx. }
      split; [right; reflexivity|]. split; [reflexivity|].
      apply (after_status_change _ CANCELLED w oid b). }
  destruct (find_after_update f (setStatus s (clock w)) (bookings w) oid b Hnd
              (setStatus_id s (clock w)) Hf Hfind) as (Hfound & Hnd' & Hin).
  rewrite <- Hb1 in Hfound, Hin.
  split; [destruct Hs as [-> | ->]; [left | right]; reflexivity|].
  split.
  - rewrite (run_confirmBooking bookingId w1 oid Hoid). cbv zeta.
    assert (List.find (fun b => (b_id b =? oid)%N && bool_decide (status b = PENDING))
              (bookings w1) = None) as ->; [|reflexivity].
    apply find_none_iff. intros c Hc. destruct (Hin c Hc) as [->|(_ & Hne)].
    + cbn [status setStatus]. apply andb_false_iff. right.
      apply bool_decide_eq_false. destruct Hs as [-> | ->]; discriminate.
    + apply andb_false_iff. left. apply N.eqb_neq. exact Hne.
  - intros reason. rewrite (run_cancelBooking bookingId reason w1 oid Hoid), Hfound. cbv zeta.
    eexists. reflexivity.
Qed.

Lemma confirm_is_one_way_witness :
  exists w1 b1,
    run (confirmBooking (toHexString 100%N)) worldAB = (w1, Ok b1)
    /\ status b1 = CONFIRMED
    /\ run (confirmBooking (toHexString 100%N)) w1
       = (w1, Err (JsError "Booking not found or cannot be confirmed")).
Proof.
  destruct (confirm_is_one_way (toHexString 100%N) worldAB
              (fst (run (confirmBooking (toHexString 100%N)) worldAB)) 100%N
              (setStatus CONFIRMED (clock worldAB) bookingA)) as (_ & Hagain & _).
  - vm_compute. reflexivity.
  - apply NoDup_cons. split.
    + intros H. apply elem_of_cons in H as [H|H]; [discriminate|]. apply elem_of_nil in H. exact H.
    + apply NoDup_cons. split; [apply not_elem_of_nil | apply NoDup_nil_2].
  - left. vm_compute. reflexivity.
  - eexists _, _. split; [vm_compute; reflexivity|]. split; [reflexivity | exact Hagain].
Defined.

(** ** Pricing *)

Lemma ceilDiv_bounds (a b : Z) : 0 < b -> (ceilDiv a b - 1) * b < a <= ceilDiv a b * b.
Proof.
  intros Hb. unfold ceilDiv.
  pose proof (Z.div_mod (- a) b ltac:(lia)) as Hdiv.
  pose proof (Z.mod_pos_bound (- a) b Hb) as Hmod. nia.
Qed.

Lemma NoDup_map_inj {A B} (g : A -> B) (l : list A) (x y : A) :
  NoDup (map g l) -> In x l -> In y l -> g x = g y -> x = y.
Proof.
  induction l as [|a l IH]; intros Hnd Hx Hy Heq; [destruct Hx|].
  cbn [map] in Hnd. apply NoDup_cons in Hnd as (Hnotin & Hnd).
  destruct Hx as [->|Hx], Hy as [->|Hy]; auto.
  - exfalso. apply Hnotin. rewrite Heq. apply list_elem_of_In, in_map. exact Hy.
  - exfalso. apply Hnotin. rewrite <- Heq. apply list_elem_of_In, in_map. exact Hx.
Qed.

Lemma filter_map_comm {A B} (f : B -> bool) (g : A -> B) (l : list A) :
  List.filter f (map g l) = map g (List.filter (fun a => f (g a)) l).
Proof.
  induction l as [|a l IH]; [reflexivity|]. simpl. destruct (f (g a)); simpl; rewrite IH; reflexivity.
Qed.

Lemma filter_filter_andb {A} (f g : A -> bool) (l : list A) :
  List.filter f (List.filter g l) = List.filter (fun a => g a && f a) l.
Proof.
  induction l as [|a l IH]; [reflexivity|]. simpl.
  destruct (g a); simpl; [destruct (f a)|]; rewrite IH; reflexivity.
Qed.

(** Selecting by the ids of a selection selects it again, when ids are unique. *)
Lemma filter_by_ids (free : IRoom -> bool) (l : list IRoom) :
  NoDup (map r_id l) ->
  List.filter (fun r => existsb (N.eqb (r_id r)) (map r_id (List.filter free l))) l
  = List.filter free l.
Proof.
  intros Hnd. apply List.filter_ext_in. intros r Hr.
  destruct (free r) eqn:Hfree.
  - apply existsb_exists. exists (r_id r). split; [|apply N.eqb_refl].
    apply in_map, List.filter_In. auto.
  - destruct (existsb _ _) eqn:E; [|reflexivity]. exfalso.
    apply existsb_exists in E as (x & Hx & Heq). apply N.eqb_eq in Heq. subst x.
    apply in_map_iff in Hx as (r' & Hid & Hr'). apply List.filter_In in Hr' as (Hin & Hfree').
    rewrite (NoDup_map_inj r_id l r' r Hnd Hin Hr Hid) in Hfree'. congruence.
Qed.

(** Without an active Redis connection and with unique room ids,
    [getAvailableRoomsWithPricing] changes nothing and returns, in collection
    order, exactly the active rooms that pass the filter and have no
    conflicting reservation.  Each is priced at its base price times the
    nights of the stay, the original price equals the calculated one and no
    discount is applied; the nights are the least number of whole days that
    cover the stay. *)
Theorem priced_rooms_without_redis (filter : IRoomAvailabilityFilter) (w : World) :
  connectionActive w = false ->
  NoDup (map r_id (rooms w)) ->
  let nights := ceilDiv (f_checkOutDate filter - f_checkInDate filter) msPerDay in
  let free := fun room =>
    roomFilter filter room
    && (length (List.filter
                  (conflictFilter (r_id room) (f_checkInDate filter) (f_checkOutDate filter)
                     (f_excludeBookingId filter)) (bookings w)) =? 0)%nat in
  exists priced,
    run (getAvailableRoomsWithPricing filter) w = (w, Ok priced)
    /\ map p_room priced = List.filter free (rooms w)
    /\ (forall p, In p priced ->
          calculatedPrice p = basePrice (p_room p) * nights
          /\ originalPrice p = calculatedPrice p
          /\ appliedDiscounts p = []
          /\ totalNights p = nights)
    /\ (nights - 1) * msPerDay < f_checkOutDate filter - f_checkInDate filter <= nights * msPerDay.
Proof.
  intros Hact Hnd nights free.
  unfold getAvailableRoomsWithPricing. rewrite run_bind.
  rewrite (run_checkRoomAvailability_down filter w Hact). cbv zeta.
  rewrite filter_map_comm. cbn [a_isAvailable availabilityOf].
  rewrite filter_filter_andb. fold free. rewrite length_map, map_map.
  cbn [a_id availabilityOf]. change (map (fun x => r_id x)) with (map r_id).
  destruct (length (List.filter free (rooms w)) =? 0)%nat eqn:Hlen.
  - apply length_eqb_nil in Hlen. rewrite Hlen. exists []. rewrite run_ret.
    split; [reflexivity|]. split; [reflexivity|]. split; [intros p []|].
    apply ceilDiv_bounds. reflexivity.
  - run_step. rewrite (filter_by_ids free (rooms w) Hnd).
    eexists. split; [reflexivity|]. split; [rewrite map_map; apply map_id|].
    split; [|apply ceilDiv_bounds; reflexivity].
    intros p Hp. apply in_map_iff in Hp as (room & <- & _). repeat split.
Qed.

Lemma priced_rooms_without_redis_witness :
  exists priced,
    run (getAvailableRoomsWithPricing (availabilityQuery (mar 1) (mar 3 + 1))) worldDown
    = (worldDown, Ok priced)
    /\ map calculatedPrice priced = [300].
Proof.
  destruct (priced_rooms_without_redis (availabilityQuery (mar 1) (mar 3 + 1)) worldDown)
    as (priced & Hrun & Hrooms & Hprice & _).
  - reflexivity.
  - apply NoDup_cons. split; [apply not_elem_of_nil | apply NoDup_nil_2].
  - exists priced. split; [exact Hrun|].
    destruct priced as [|p [|q rest]]; try discriminate.
    destruct (Hprice p (or_introl eq_refl)) as (Hp & _). cbn [map]. rewrite Hp.
    injection Hrooms as ->. reflexivity.
Defined.

(** ** The schema and the validator *)

Lemma allHex_parseHex (s : string) (acc : N) : allHex s = true -> exists n, parseHex s acc = Some n.
Proof.
  revert acc. induction s as [|c s IH]; intros acc H; simpl; [eauto|].
  simpl in H. apply andb_true_iff in H as (Hc & Hs). unfold isHexDigit in Hc.
  destruct (hexValue c) as [d|]; [|discriminate]. apply IH. exact Hs.
Qed.

Lemma objectIdSchema_newObjectId (j : Json) (s : string) :
  objectIdSchema j = Some s -> exists id, newObjectId s = Ok id.
Proof.
  unfold objectIdSchema, newObjectId. destruct j as [| |b|q|s']; try discriminate.
  destruct (String.length s' =? 24)%nat eqn:Hlen; [|discriminate].
  destruct (allHex s') eqn:Hhex; [|discriminate]. simpl. intros [= <-].
  rewrite Hlen. destruct (allHex_parseHex s' 0%N Hhex) as (n & ->). eauto.
Qed.

(** What the schema settles for the service.  For a request
    [createBookingSchema] accepted, the room id parses as an [ObjectId], the
    stay lasts between 1 and 30 nights, there are between 1 and 10 guests,
    and the validator's first three rules (date order, check-in not in the
    past, guests) cannot fail as long as the validator reads the clock no
    later than the check-in; if it reads it later, the request is refused as
    being in the past. *)
Theorem schema_settles_basic_rules (datetime : string -> option Z) (now : Z)
    (body : RequestBody) (d : ICreateBooking) :
  createBookingSchema datetime now body = Some d ->
  (exists room, newObjectId (c_roomId d) = Ok room)
  /\ 1 <= ceilDiv (c_checkOutDate d - c_checkInDate d) msPerDay <= 30
  /\ 1 <= c_numberOfGuests d <= 10
  /\ now < c_checkInDate d
  /\ (forall t, t <= c_checkInDate d -> basicErrors d t = [])
  /\ (forall t, c_checkInDate d < t -> basicErrors d t = [msgPast]).
Proof.
  intros H. pose proof (createBookingSchema_Some datetime now body d H) as (Hg & Hfut & Hord & Hlen).
  apply numberOfGuestsSchema_Some in Hg as (_ & _ & _ & Hguests).
  assert (exists room, newObjectId (c_roomId d) = Ok room) as Hroom.
  { unfold createBookingSchema in H.
    destruct (objectIdSchema (body_roomId body)) as [rid|] eqn:Hrid; [|discriminate].
    destruct (futureDateSchema _ _ _); [|discriminate].
    destruct (dateStringSchema _ _); [|discriminate].
    destruct (numberOfGuestsSchema _); [|discriminate].
    destruct (specialRequestsSchema _); [|discriminate].
    destruct (_ >? _); [|discriminate]. cbv zeta in H.
    destruct (_ <=? 30); [|discriminate]. injection H as <-.
    exact (objectIdSchema_newObjectId _ _ Hrid). }
  split; [exact Hroom|].
  pose proof (ceilDiv_bounds (c_checkOutDate d - c_checkInDate d) msPerDay eq_refl) as Hb.
  split. { split; [|exact Hlen]. unfold msPerDay in *. nia. }
  split; [exact Hguests|]. split; [lia|].
  unfold basicErrors, pushIf. split; intros t Ht.
  - rewrite (proj2 (Z.leb_gt _ _)) by lia. rewrite (proj2 (Z.ltb_ge _ _)) by lia.
    rewrite Z.geb_leb, (proj2 (Z.leb_gt _ _)) by lia. reflexivity.
  - rewrite (proj2 (Z.leb_gt _ _)) by lia. rewrite (proj2 (Z.ltb_lt _ _)) by lia.
    rewrite Z.geb_leb, (proj2 (Z.leb_gt _ _)) by lia. reflexivity.
Qed.

Lemma schema_settles_basic_rules_witness :
  exists d,
    createBookingSchema exampleDatetime 1700000000000 (exampleBody (inject_Z 2)) = Some d
    /\ basicErrors d 1700000000000 = [].
Proof.
  destruct (schema_settles_basic_rules exampleDatetime 1700000000000 (exampleBody (inject_Z 2))
              (request (mar 1) (mar 4) 2)) as (_ & _ & _ & Hfut & Hok & _).
  - vm_compute. reflexivity.
  - exists (request (mar 1) (mar 4) 2). split; [vm_compute; reflexivity|]. apply Hok. lia.
Defined.

(** [ValidationHelper.validateDateRange] reads the clock once and reports the
    date-order and past-date messages; it returns no error exactly when
    [checkIn < checkOut] and the check-in is not before the clock.  Its
    answer is what [validateBooking] collects for the same dates before it
    adds the guest rule: the two validators agree on dates, message for
    message. *)
Theorem validateDateRange_agrees (checkIn checkOut : Z) (w : World) :
  exists errs,
    run (validateDateRange checkIn checkOut) w = (w, Ok errs)
    /\ (errs = [] <-> checkIn < checkOut /\ clock w <= checkIn)
    /\ (In msgDateOrder errs <-> checkOut <= checkIn)
    /\ (In msgPast errs <-> checkIn < clock w)
    /\ forall d, c_checkInDate d = checkIn -> c_checkOutDate d = checkOut ->
         basicErrors d (clock w) = pushIf (c_numberOfGuests d <=? 0) msgGuests errs.
Proof.
  unfold validateDateRange. cbv zeta. run_step. rewrite run_ret. eexists. split; [reflexivity|].
  fold msgDateOrder msgPast.
  split; [|split; [|split]].
  - rewrite !pushIf_nil, Z.ltb_ge, Z.geb_leb, Z.leb_gt. intuition lia.
  - rewrite !pushIf_In, Z.geb_leb, Z.leb_le. simpl. intuition (try discriminate; try lia).
  - rewrite !pushIf_In, Z.ltb_lt. simpl. intuition (try discriminate; try lia).
  - intros d <- <-. reflexivity.
Qed.

(** ** Ids, printed and read back *)

Lemma hexValue_hexDigit (d : N) : (d < 16)%N -> hexValue (hexDigit d) = Some d.
Proof.
  intros H. rewrite <- (N2Nat.id d). assert (N.to_nat d < 16)%nat as Hi by lia.
  generalize dependent (N.to_nat d). intros i Hi.
  do 16 (destruct i as [|i]; [reflexivity|]). lia.
Qed.

Lemma parseHex_hexDigits (len : nat) (n : N) (acc : string) (a : N) :
  parseHex (hexDigits len n acc) a
  = parseHex acc (a * 16 ^ N.of_nat len + n mod 16 ^ N.of_nat len)%N.
Proof.
  revert n acc a. induction len as [|len IH]; intros n acc a.
  - simpl. rewrite N.mod_1_r. f_equal. lia.
  - cbn [hexDigits]. rewrite IH. cbn [parseHex].
    rewrite hexValue_hexDigit by (apply N.mod_upper_bound; discriminate).
    f_equal. rewrite Nat2N.inj_succ, N.pow_succ_r'.
    rewrite (N.Div0.mod_mul_r n 16 (16 ^ N.of_nat len)). lia.
Qed.

Lemma length_hexDigits (len : nat) (n : N) (acc : string) :
  String.length (hexDigits len n acc) = (len + String.length acc)%nat.
Proof.
  revert n acc. induction len as [|len IH]; intros n acc; [reflexivity|].
  cbn [hexDigits]. rewrite IH. simpl. lia.
Qed.

(** [new ObjectId(id.toString())] is [id]. *)
Lemma newObjectId_toHexString (id : ObjectId) :
  (id < 2 ^ 96)%N -> newObjectId (toHexString id) = Ok id.
Proof.
  intros H. unfold newObjectId, toHexString. rewrite length_hexDigits. cbn [String.length Nat.add Nat.eqb].
  rewrite parseHex_hexDigits. cbn [parseHex].
  change (16 ^ N.of_nat 24)%N with (2 ^ 96)%N. rewrite N.mod_small by exact H. reflexivity.
Qed.

(** The booking [createBooking] returned can be addressed by its printed id.
    When the store's ids are unique and the next id is fresh (as the
    database guarantees), [confirmBooking] and [cancelBooking] called with
    the returned booking's id in hexadecimal find that very booking and
    return it confirmed, respectively cancelled; and the ids of the
    collection are still unique. *)
Theorem created_booking_is_addressable (uid : string) (bookingData : ICreateBooking)
    (w w' : World) (b : IBooking) :
  run (createBooking uid bookingData) w = (w', Ok b) ->
  (nextOid w < 2 ^ 96)%N ->
  NoDup (map b_id (bookings w)) ->
  (forall c, In c (bookings w) -> b_id c <> nextOid w) ->
  b_id b = nextOid w
  /\ NoDup (map b_id (bookings w'))
  /\ (exists w1, run (confirmBooking (toHexString (b_id b))) w'
                 = (w1, Ok (setStatus CONFIRMED (clock w') b)))
  /\ (forall reason, exists w2,
        run (cancelBooking (toHexString (b_id b)) reason) w'
        = (w2, Ok (setStatus CANCELLED (clock w') b))).
Proof.
  intros Hrun Hsmall Hnd Hfresh.
  destruct (createBooking_Ok_effects uid bookingData w w' b Hrun)
    as (user & room & r & now & _ & _ & _ & Hb & Hbookings & _).
  assert (b_id b = nextOid w) as Hid by (rewrite Hb; reflexivity).
  assert (status b = PENDING) as Hst by (rewrite Hb; reflexivity).
  assert (newObjectId (toHexString (b_id b)) = Ok (nextOid w)) as Hoid.
  { rewrite Hid. apply newObjectId_toHexString. exact Hsmall. }
  split; [exact Hid|]. split.
  { rewrite Hbookings, map_app. apply NoDup_app. split; [exact Hnd|]. split.
    - intros x Hx Hx'. cbn [map] in Hx'. apply list_elem_of_singleton in Hx'. subst x.
      apply list_elem_of_In, in_map_iff in Hx as (c & Hc & Hin).
      apply (Hfresh c Hin). congruence.
    - cbn [map]. apply NoDup_cons. split; [apply not_elem_of_nil | apply NoDup_nil_2]. }
  split.
  - rewrite (run_confirmBooking _ w' (nextOid w) Hoid). cbv zeta.
    rewrite Hbookings, find_app_miss.
    + cbn [List.find]. rewrite Hid, N.eqb_refl, Hst. cbn [andb]. 
      rewrite bool_decide_eq_true_2 by reflexivity. eexists. reflexivity.
    + intros x Hx. apply andb_false_iff. left. apply N.eqb_neq. auto.
  - intros reason. rewrite (run_cancelBooking _ reason w' (nextOid w) Hoid).
    rewrite Hbookings, find_app_miss.
    + cbn [List.find]. rewrite Hid, N.eqb_refl. cbv zeta. eexists. reflexivity.
    + intros x Hx. apply N.eqb_neq. auto.
Qed.

Lemma created_booking_is_addressable_witness :
  exists w' w1,
    run (createBooking (toHexString 7%N) (request (mar 1) (mar 4) 2)) world0 = (w', Ok bookingA)
    /\ run (confirmBooking (toHexString (b_id bookingA))) w'
       = (w1, Ok (setStatus CONFIRMED (clock w') bookingA)).
Proof.
  destruct (created_booking_is_addressable (toHexString 7%N) (request (mar 1) (mar 4) 2) world0
              (fst (run (createBooking (toHexString 7%N) (request (mar 1) (mar 4) 2)) world0))
              bookingA) as (_ & _ & (w1 & Hconfirm) & _).
  - vm_compute. reflexivity.
  - reflexivity.
  - apply NoDup_nil_2.
  - intros c [].
  - eexists _, w1. split; [vm_compute; reflexivity | exact Hconfirm].
Defined.

(** ** Two calls at once

    A call steps from control point to control point as [advance] says. *)

(** Symbolic execution of [step] up to the next await. *)
Ltac sym :=
  cbn [remainder step settle isSync exec mbind Prog_bind bind mret Prog_ret try_catch try_finally
       call consoleLog consoleWarn consoleError fst snd negb
       theLock lockKey lockValue ttl retryDelay maxRetries bookingLock
       acquireLoop outcomeOf isValid errors
       orDefault bookingLockOptions o_ttl o_retryDelay o_maxRetries read spread tail].

Lemma set_randoms_nil w : randoms w = [] -> set_randoms [] w = w.
Proof. destruct w; simpl; intros ->; reflexivity. Qed.

Section Simulation.
Variables (uid : string) (user room : ObjectId) (d : ICreateBooking).
Hypothesis Hu : newObjectId uid = Ok user.
Hypothesis Hr : newObjectId (c_roomId d) = Ok room.

Lemma step_idle w :
  step (remainder uid user room d Idle) w
  = (remainder uid user room d (fst (advance user room d Idle w)), snd (advance user room d Idle w)).
Proof.
  cbn [remainder advance]. unfold createBooking, objectId. rewrite Hu, Hr.
  unfold createBookingLock, newRedisLock, withLock, acquire. sym.
  change (Z.to_nat (5 + 1)) with 6%nat.
  unfold ownerValue.
  destruct (randoms w) as [|x rs] eqn:Hrand; sym.
  - rewrite (set_randoms_nil w Hrand).
    destruct (connectionActive w) eqn:Hact; sym.
    + rewrite (active_connected w Hact). sym. reflexivity.
    + reflexivity.
  - change (connectionActive (set_randoms rs w)) with (connectionActive w).
    destruct (connectionActive w) eqn:Hact; sym.
    + change (isConnected (set_randoms rs w)) with (isConnected w).
      rewrite (active_connected w Hact). sym. reflexivity.
    + reflexivity.
Qed.

(** The synchronous head of [release], after a locked function that ended
    with [outcome]. *)
Lemma settle_release owner outcome w :
  settle (bind (release (theLock room d owner)) (fun _ => outcomeOf outcome)) w
  = (remainder uid user room d (fst (releasing owner outcome w)), snd (releasing owner outcome w)).
Proof.
  unfold release, releasing. sym.
  destruct (connectionActive w) eqn:Hact; sym.
  - rewrite (active_connected w Hact). sym. unfold atRelease. sym. reflexivity.
  - destruct outcome; reflexivity.
Qed.

Lemma settle_retry owner turns attempt w :
  settle (bind (acquireLoop (theLock room d owner) turns (attempt + 1))
            (underLock user room d owner)) w
  = (remainder uid user room d (fst (retry room d owner turns attempt w)), snd (retry room d owner turns attempt w)).
Proof.
  destruct turns as [|t]; unfold retry; sym.
  - unfold underLock, lockFailedMessage. sym. reflexivity.
  - unfold atAcquire, acquireAttempt. sym. reflexivity.
Qed.

Lemma step_acquiring owner t a w :
  step (remainder uid user room d (Acquiring owner t a)) w
  = (remainder uid user room d (fst (advance user room d (Acquiring owner t a) w)), snd (advance user room d (Acquiring owner t a) w)).
Proof.
  cbn [remainder advance]. unfold atAcquire. cbn [acquireLoop]. unfold acquireAttempt. sym.
  rewrite send_world. cbv zeta.
  destruct (nextRejected w) eqn:Hrej; sym.
  - unfold lockErrorMessage. destruct (a =? 5) eqn:Ha; sym.
    + reflexivity.
    + unfold atRecover. sym. reflexivity.
  - change (live (sent ?c w) ?k) with (live w k).
    destruct (live w _) as [v|] eqn:Hlive; sym.
    + destruct (a <? 5) eqn:Ha; sym.
      * unfold atSleep, lockBusyMessage, acquireAttempt. sym. reflexivity.
      * apply settle_retry.
    + unfold underLock, createBookingLocked, validateBooking, objectId. rewrite Hr. sym.
      unfold atValidateRoom, locked. sym. reflexivity.
Qed.

Lemma step_sleeping owner t a w :
  step (remainder uid user room d (Sleeping owner t a)) w
  = (remainder uid user room d (fst (advance user room d (Sleeping owner t a) w)), snd (advance user room d (Sleeping owner t a) w)).
Proof.
  cbn [remainder advance]. unfold atSleep. sym. apply settle_retry.
Qed.

Lemma step_recovering owner t a w :
  step (remainder uid user room d (Recovering owner t a)) w
  = (remainder uid user room d (fst (advance user room d (Recovering owner t a) w)), snd (advance user room d (Recovering owner t a) w)).
Proof.
  cbn [remainder advance]. unfold atRecover. sym. apply settle_retry.
Qed.

Lemma step_validatingRoom owner now w :
  step (remainder uid user room d (ValidatingRoom owner now)) w
  = (remainder uid user room d (fst (advance user room d (ValidatingRoom owner now) w)), snd (advance user room d (ValidatingRoom owner now) w)).
Proof.
  cbn [remainder advance]. unfold atValidateRoom, locked. sym.
  destruct (List.find _ (rooms w)) as [r|] eqn:Hfind; sym.
  - unfold validateRoom, atValidateConflicts, locked. sym. reflexivity.
  - unfold validateRoom, afterValidation. sym. apply (settle_release owner (Err _)).
Qed.

Lemma step_validatingConflicts owner now r w :
  step (remainder uid user room d (ValidatingConflicts owner now r)) w
  = (remainder uid user room d (fst (advance user room d (ValidatingConflicts owner now r) w)),
     snd (advance user room d (ValidatingConflicts owner now r) w)).
Proof.
  cbn [remainder advance]. unfold atValidateConflicts, locked. sym.
  unfold validateConflicts, afterValidation. sym.
  destruct (length _ =? 0)%nat eqn:Hlen; sym.
  - unfold atFindRoom, locked, persist. sym. reflexivity.
  - apply (settle_release owner (Err _)).
Qed.

Lemma step_findingRoom owner w :
  step (remainder uid user room d (FindingRoom owner)) w
  = (remainder uid user room d (fst (advance user room d (FindingRoom owner) w)), snd (advance user room d (FindingRoom owner) w)).
Proof.
  cbn [remainder advance]. unfold atFindRoom, locked, persist. sym.
  destruct (List.find _ (rooms w)) as [r|] eqn:Hfind; sym.
  - unfold atInsert, locked, bookingDoc. sym. reflexivity.
  - apply (settle_release owner (Err _)).
Qed.

Lemma step_inserting owner r c u w :
  step (remainder uid user room d (Inserting owner r c u)) w
  = (remainder uid user room d (fst (advance user room d (Inserting owner r c u) w)), snd (advance user room d (Inserting owner r c u) w)).
Proof.
  cbn [remainder advance]. unfold atInsert, locked. sym.
  change (connectionActive (set_nextOid _ _)) with (connectionActive w).
  destruct (connectionActive w) eqn:Hact; sym.
  - unfold redis_invalidateRoomCache. sym.
    change (isConnected (set_nextOid _ _)) with (isConnected w).
    rewrite (active_connected w Hact). sym.
    unfold atScan, locked, invalidating, finish, createdMessage, roomPattern. sym. reflexivity.
  - apply (settle_release owner (Ok _)).
Qed.

Lemma step_scanning owner b w :
  step (remainder uid user room d (Scanning owner b)) w
  = (remainder uid user room d (fst (advance user room d (Scanning owner b) w)), snd (advance user room d (Scanning owner b) w)).
Proof.
  cbn [remainder advance]. unfold atScan, locked, invalidating. sym.
  rewrite send_world. cbv zeta.
  destruct (nextRejected w) eqn:Hrej; sym.
  - unfold finish. sym. apply (settle_release owner (Ok _)).
  - unfold afterScan. 
    destruct (0 <? length _)%nat eqn:Hlen; sym.
    + unfold atDel, locked, invalidating. sym. reflexivity.
    + unfold finish. sym. apply (settle_release owner (Ok _)).
Qed.

Lemma step_deleting owner b keys w :
  step (remainder uid user room d (Deleting owner b keys)) w
  = (remainder uid user room d (fst (advance user room d (Deleting owner b keys) w)), snd (advance user room d (Deleting owner b keys) w)).
Proof.
  cbn [remainder advance]. unfold atDel, locked, invalidating. sym.
  rewrite send_world. cbv zeta.
  destruct (nextRejected w) eqn:Hrej; sym.
  - unfold finish. sym. apply (settle_release owner (Ok _)).
  - destruct (delKeys keys _) as [w2 n]. sym.
    unfold finish. sym. apply (settle_release owner (Ok _)).
Qed.

Lemma step_releasing owner outcome w :
  step (remainder uid user room d (Releasing owner outcome)) w
  = (remainder uid user room d (fst (advance user room d (Releasing owner outcome) w)), snd (advance user room d (Releasing owner outcome) w)).
Proof.
  cbn [remainder advance]. unfold atRelease. sym.
  rewrite send_world. cbv zeta.
  destruct (nextRejected w) eqn:Hrej; sym.
  - destruct outcome; reflexivity.
  - change (live (sent ?c w) ?k) with (live w k).
    destruct (bool_decide _); sym; destruct outcome; reflexivity.
Qed.

Lemma step_finished outcome w :
  step (remainder uid user room d (Finished outcome)) w
  = (remainder uid user room d (fst (advance user room d (Finished outcome) w)), snd (advance user room d (Finished outcome) w)).
Proof. destruct outcome; reflexivity. Qed.

Lemma step_remainder s w :
  step (remainder uid user room d s) w
  = (remainder uid user room d (fst (advance user room d s w)), snd (advance user room d s w)).
Proof.
  destruct s; auto using step_idle, step_acquiring, step_sleeping, step_recovering,
    step_validatingRoom, step_validatingConflicts, step_findingRoom, step_inserting,
    step_scanning, step_deleting, step_releasing, step_finished.
Qed.
End Simulation.

(** ** The lock: withLock, from acquisition to release *)

Lemma acquire_true_holds (l : RedisLock) (w w1 : World) :
  run (acquire l) w = (w1, Ok true) -> 0 < ttl l -> holds l w1.
Proof.
  intros Hrun Httl. pose proof (acquire_true_active l w w1 Hrun) as Hact.
  destruct (Z_lt_le_dec (maxRetries l) (-1)) as [Hneg|Hmax].
  - rewrite run_acquire_active in Hrun by assumption.
    replace (Z.to_nat (maxRetries l + 1)) with O in Hrun by lia.
    cbn [acquireLoop] in Hrun. rewrite run_bind, run_consoleLog, run_ret in Hrun. discriminate.
  - destruct (run_acquire l w Hmax Hact) as (w' & r & new & Hrun' & Hpost).
    rewrite Hrun in Hrun'. injection Hrun' as <- <-.
    destruct Hpost as (_ & _ & _ & _ & _ & _ & _ & _ & _ & Hkv).
    unfold holds, live. rewrite Hkv.
    destruct (clock w1 <? clock w1 + ttl l * 1000) eqn:E; [reflexivity|].
    apply Z.ltb_ge in E. lia.
Qed.

(** C3. [withLock] runs [fn] only after [acquire] returned [true], from the
    world [acquire] left, in which this owner holds the key; [release] then
    runs whether [fn] returned or threw, and the outcome of [fn] is the
    outcome of [withLock].  The release sends the compare-and-delete script
    for this owner; when it is answered and the key is still this owner's,
    the key is deleted and no longer live, otherwise the keyspace is left as
    [fn] left it; the collections are never touched by it.  When [acquire]
    returns [false] or throws, [withLock] throws from the very world
    [acquire] left: [fn] has not run.  Under [lockR1], a function that
    returns and a function that throws both end with the key gone. *)
Theorem withLock_runs_fn_under_lock {T} (l : RedisLock) (fn : Prog T) (w : World) :
  match run (acquire l) w with
  | (w1, Ok true) =>
      let '(w2, outcome) := run fn w1 in
      let '(w3, _) := run (release l) w2 in
      run (withLock l fn) w = (w3, outcome)
      /\ (0 < ttl l -> holds l w1)
      /\ (exists lvl msg,
            trace w3 = Logged lvl msg :: Sent (CmdEval (lockKey l) (lockValue l)) :: trace w2)
      /\ (nextRejected w2 = false -> holds l w2 ->
          kv w3 = delete (lockKey l) (kv w2) /\ live w3 (lockKey l) = None)
      /\ (nextRejected w2 = true \/ ~ holds l w2 -> kv w3 = kv w2)
      /\ sameStore w2 w3
  | (w1, Ok false) =>
      run (withLock l fn) w = (w1, Err (JsError ("Failed to acquire lock: " +:+ lockKey l)))
  | (w1, Err e) => run (withLock l fn) w = (w1, Err e)
  end
  /\ (exists w3 v,
        run (withLock lockR1 (validateBooking (request (mar 1) (mar 4) 2))) world0 = (w3, Ok v)
        /\ isValid v = true
        /\ live w3 (lockKey lockR1) = None)
  /\ (exists w3,
        run (withLock lockR1 (consoleLog "working";; Throw (JsError "failed") : Prog unit)) world0
        = (w3, Err (JsError "failed"))
        /\ In (Logged LOG "working") (trace w3)
        /\ live w3 (lockKey lockR1) = None).
Proof.
  split.
  - pose proof (run_withLock l fn w) as Hwl.
    destruct (run (acquire l) w) as [w1 [[|]|e]] eqn:Hacq; try exact Hwl.
    destruct (run fn w1) as [w2 outcome] eqn:Hfn.
    assert (connectionActive w2 = true) as Hact.
    { destruct (connection_after _ _ _ _ Hfn) as (-> & _).
      destruct (connection_after _ _ _ _ Hacq) as (-> & _).
      exact (acquire_true_active _ _ _ Hacq). }
    pose proof (release_active l w2 Hact) as Hrel. cbv zeta in Hrel.
    destruct (run (release l) w2) as [w3 rr].
    split; [exact Hwl|]. split; [exact (acquire_true_holds l w w1 Hacq)|].
    destruct (nextRejected w2) eqn:Hrej.
    + injection Hrel as -> _. split; [eexists _, _; reflexivity|].
      split; [discriminate|]. split; [reflexivity | repeat split].
    + destruct (bool_decide (holds l w2)) eqn:Hh.
      * apply bool_decide_eq_true in Hh. injection Hrel as -> _.
        split; [eexists _, _; reflexivity|]. split.
        { intros _ _. split; [reflexivity|]. unfold live. cbn [kv emit set_kv].
          rewrite lookup_delete_eq. reflexivity. }
        split; [|repeat split]. intros [H|H]; [discriminate | contradiction].
      * apply bool_decide_eq_false in Hh. injection Hrel as -> _.
        split; [eexists _, _; reflexivity|]. split; [intros _ H; contradiction|].
        split; [reflexivity | repeat split].
  - split.
    + eexists _, _. split; [vm_compute; reflexivity|]. split; vm_compute; reflexivity.
    + eexists. split; [vm_compute; reflexivity|]. split; [|vm_compute; reflexivity].
      vm_compute. tauto.
Qed.

(** ** The lock: acquire, against a held key *)

Lemma acquire_retries_core (l : RedisLock) (w : World) :
  0 <= maxRetries l ->
  exists w' r new,
    run (acquire l) w = (w', r)
    /\ trace w' = new ++ trace w
    /\ attemptsIn new <= 1 + maxRetries l
    /\ sleepsLast (retryDelay l) new
    /\ (connectionActive w = true -> nextRejected w = false -> live w (lockKey l) = None ->
        r = Ok true /\ attemptsIn new = 1 /\ sleepsIn new = 0)
    /\ (r = Ok true ->
        sleepsIn new = attemptsIn new - 1
        /\ rejectedAt w (attemptsIn new - 1) = false
        /\ kv w' !! lockKey l = Some (lockValue l, clock w' + ttl l * 1000))
    /\ (r = Ok false ->
        attemptsIn new = 1 + maxRetries l /\ sleepsIn new = maxRetries l
        /\ rejectedAt w (maxRetries l) = false /\ kv w' = kv w)
    /\ (forall e, r = Err e ->
        (connectionActive w = false /\ new = [])
        \/ (e = rejection /\ attemptsIn new = 1 + maxRetries l
            /\ sleepsIn new = maxRetries l /\ rejectedAt w (maxRetries l) = true))
    /\ (forall i, 0 <= i < maxRetries l -> rejectedAt w i = true -> attemptsIn new <> i + 1)
    /\ (connectionActive w = true -> attemptsIn new = 1 + maxRetries l ->
        rejectedAt w (maxRetries l) = true -> r = Err rejection).
Proof.
  intros Hmax. destruct (connectionActive w) eqn:Hact.
  - destruct (run_acquire l w) as (w' & r & new & Hrun & Hpost); [lia | assumption |].
    destruct Hpost as (Ht & _ & Ha & Hsl & Hc & Hk & Hr).
    exists w', r, new. split; [assumption|]. split; [assumption|].
    split; [lia|]. split; [assumption|].
    split.
    { intros _ Hrej Hfree.
      rewrite run_acquire_active in Hrun by assumption.
      replace (Z.to_nat (maxRetries l + 1)) with (S (Z.to_nat (maxRetries l))) in Hrun by lia.
      cbn [acquireLoop] in Hrun. rewrite run_bind, run_acquireAttempt in Hrun.
      cbv zeta in Hrun. rewrite Hrej, Hfree in Hrun. rewrite run_ret in Hrun.
      injection Hrun as <- <-.
      cbn [trace emit set_kv sent set_faults] in Ht.
      change (?a :: ?b :: trace w) with ([a; b] ++ trace w) in Ht.
      apply app_inv_tail in Ht. subst new. repeat split. }
    split.
    { intros ->. destruct Hr as (? & ? & ? & ?). auto. }
    split.
    { intros ->. destruct Hr as (? & ? & Hrej & ?).
      repeat split; try lia; [|assumption].
      rewrite <- Hrej by lia. f_equal. lia. }
    split.
    { intros e ->. right. destruct Hr as (? & ? & ? & ? & Hrej & ?).
      repeat split; try lia; try assumption.
      rewrite <- Hrej. f_equal. lia. }
    split.
    { intros i Hi Hrej Heq. destruct r as [[|]|e].
      - destruct Hr as (_ & _ & Hrej' & _). rewrite Heq in Hrej'.
        replace (i + 1 - 1) with i in Hrej' by lia. congruence.
      - destruct Hr as (? & _). lia.
      - destruct Hr as (_ & _ & ? & _). lia. }
    intros _ Hall Hrej. destruct r as [[|]|e].
    + destruct Hr as (_ & _ & Hrej' & _). rewrite Hall in Hrej'.
      replace (1 + maxRetries l - 1) with (maxRetries l) in Hrej' by lia. congruence.
    + destruct Hr as (_ & _ & Hrej' & _). specialize (Hrej' ltac:(lia)).
      replace (maxRetries l + 1 - 1) with (maxRetries l) in Hrej' by lia. congruence.
    + destruct Hr as (-> & _). reflexivity.
  - exists w, (Err (JsError "Redis connection not active for locking")), [].
    split; [apply run_acquire_inactive; assumption|].
    split; [reflexivity|]. split; [unfold attemptsIn; simpl; lia|].
    split; [intros d []|].
    repeat split; try discriminate.
    + intros e _. left. split; reflexivity.
    + unfold attemptsIn. simpl. lia.
Qed.


(** The loop of [acquire] against a key that frees itself: the key is live
    for the first [j] attempts, each followed by a sleep, and has expired at
    the next, which succeeds. *)
Lemma run_acquireLoop_wait (l : RedisLock) (j turns : nat) (attempt : Z) (w : World)
    (v : string) (deadline : Z) :
  attempt + Z.of_nat turns = maxRetries l + 1 ->
  (j < turns)%nat ->
  Forall (fun f => f = false) (faults w) ->
  kv w !! lockKey l = Some (v, deadline) ->
  deadline <= clock w + Z.of_nat j * Z.max 0 (retryDelay l) ->
  ((1 <= j)%nat -> clock w + (Z.of_nat j - 1) * Z.max 0 (retryDelay l) < deadline) ->
  exists w',
    run (acquireLoop l turns attempt) w = (w', Ok true)
    /\ clock w' = clock w + Z.of_nat j * Z.max 0 (retryDelay l).
Proof.
  revert turns attempt w.
  induction j as [|j IH]; intros turns attempt w Hturns Hj Hclean Hkv Hlate Hearly.
  - destruct turns as [|n]; [lia|].
    cbn [acquireLoop]. rewrite run_bind, run_acquireAttempt. cbv zeta.
    rewrite (nextRejected_clean w Hclean).
    assert (live w (lockKey l) = None) as ->.
    { unfold live. rewrite Hkv.
      destruct (clock w <? deadline) eqn:E; [|reflexivity]. apply Z.ltb_lt in E. lia. }
    rewrite run_ret. eexists. split; [reflexivity|].
    cbn [clock emit set_kv sent set_faults]. lia.
  - destruct turns as [|n]; [lia|].
    cbn [acquireLoop]. rewrite run_bind, run_acquireAttempt. cbv zeta.
    rewrite (nextRejected_clean w Hclean).
    assert (live w (lockKey l) = Some v) as ->.
    { unfold live. rewrite Hkv.
      destruct (clock w <? deadline) eqn:E; [reflexivity|]. apply Z.ltb_ge in E.
      specialize (Hearly ltac:(lia)). nia. }
    assert ((attempt <? maxRetries l) = true) as -> by (apply Z.ltb_lt; lia).
    edestruct (IH n (attempt + 1)
                 (slept (retryDelay l)
                    (emit (Logged LOG (lockBusyMessage l attempt))
                       (sent (CmdSetNX (lockKey l) (lockValue l) (ttl l)) w))))
      as (w' & Hrun & Hclock); [lia | lia | apply sent_clean; assumption | exact Hkv | | |].
    + cbn [clock slept emit set_clock sent set_faults]. lia.
    + intros Hj1. cbn [clock slept emit set_clock sent set_faults].
      specialize (Hearly ltac:(lia)). lia.
    + exists w'. split; [exact Hrun|].
      rewrite Hclock. cbn [clock slept emit set_clock sent set_faults]. lia.
Qed.

Lemma run_acquire_wait (l : RedisLock) (w : World) (v : string) (deadline j : Z) :
  connectionActive w = true ->
  Forall (fun f => f = false) (faults w) ->
  kv w !! lockKey l = Some (v, deadline) ->
  0 <= j <= maxRetries l ->
  deadline <= clock w + j * Z.max 0 (retryDelay l) ->
  (1 <= j -> clock w + (j - 1) * Z.max 0 (retryDelay l) < deadline) ->
  exists w' new,
    run (acquire l) w = (w', Ok true)
    /\ trace w' = new ++ trace w
    /\ attemptsIn new = j + 1 /\ sleepsIn new = j
    /\ clock w' = clock w + j * Z.max 0 (retryDelay l)
    /\ kv w' !! lockKey l = Some (lockValue l, clock w' + ttl l * 1000).
Proof.
  intros Hact Hclean Hkv Hj Hlate Hearly.
  destruct (run_acquire l w) as (w' & r & new & Hrun & Hpost); [lia | assumption |].
  destruct (run_acquireLoop_wait l (Z.to_nat j) (Z.to_nat (maxRetries l + 1)) 0 w v deadline)
    as (w'' & Hrun' & Hclock); [lia | lia | assumption | assumption | | |].
  { rewrite Z2Nat.id by lia. exact Hlate. }
  { intros Hj1. rewrite Z2Nat.id by lia. apply Hearly. lia. }
  rewrite Z2Nat.id in Hclock by lia.
  rewrite run_acquire_active in Hrun by assumption. rewrite Hrun' in Hrun.
  injection Hrun as -> <-.
  destruct Hpost as (Ht & _ & _ & _ & Hc & _ & Ha & Hs & _ & Hk).
  exists w', new. split; [rewrite run_acquire_active by assumption; exact Hrun'|].
  split; [exact Ht|].
  assert (sleepsIn new = j) as Hsl.
  { destruct (Z.eq_dec j 0) as [->|Hne].
    - assert (sleepsIn new * Z.max 0 (retryDelay l) = 0) as Hz by lia.
      pose proof (sleepsIn_nonneg new).
      destruct (Z.eq_dec (Z.max 0 (retryDelay l)) 0) as [Hd|Hd]; [|nia].
      (* no time passes in a sleep: the first attempt already found the key dead *)
      assert (live w (lockKey l) = None) as Hfree.
      { unfold live. rewrite Hkv.
        destruct (clock w <? deadline) eqn:E; [|reflexivity]. apply Z.ltb_lt in E. lia. }
      pose proof (run_acquire_free l w ltac:(lia) Hact (nextRejected_clean w Hclean) Hfree)
        as Hfirst.
      rewrite run_acquire_active, Hrun' in Hfirst by assumption.
      injection Hfirst as Hw'. rewrite Hw' in Ht. cbn [trace emit set_kv sent set_faults] in Ht.
      change (?a :: ?b :: trace w) with ([a; b] ++ trace w) in Ht.
      apply app_inv_tail in Ht. subst new. reflexivity.
    - specialize (Hearly ltac:(lia)). nia. }
  split; [lia|]. split; [exact Hsl|]. split; [exact Hclock | exact Hk].
Qed.

(** C5. [acquire] sends at most [1 + maxRetries] SET NX commands and every
    sleep between them lasts [retryDelay].  It returns [true] at once when the
    first command succeeds, and in general without sleeping after the command
    that succeeded; it returns [false] only after all [1 + maxRetries]
    attempts, the last of which was answered.  An error reaches the caller
    only from the last attempt (or from the connection check, before any
    attempt); a rejected earlier attempt is never the last one made, and a
    rejected last attempt is always thrown.  Against a key another owner
    holds for the whole retry window it leaves the key alone and returns
    [false] after [1 + maxRetries] commands and [maxRetries] sleeps; when
    the key expires during the window it returns [true] at the first
    attempt after the expiry, having slept once after each earlier one. *)
Theorem acquire_retries (l : RedisLock) (w : World) :
  0 <= maxRetries l ->
  exists w' r new,
    run (acquire l) w = (w', r)
    /\ trace w' = new ++ trace w
    /\ attemptsIn new <= 1 + maxRetries l
    /\ sleepsLast (retryDelay l) new
    /\ (connectionActive w = true -> nextRejected w = false -> live w (lockKey l) = None ->
        r = Ok true /\ attemptsIn new = 1 /\ sleepsIn new = 0)
    /\ (r = Ok true ->
        sleepsIn new = attemptsIn new - 1
        /\ rejectedAt w (attemptsIn new - 1) = false
        /\ kv w' !! lockKey l = Some (lockValue l, clock w' + ttl l * 1000))
    /\ (r = Ok false ->
        attemptsIn new = 1 + maxRetries l /\ sleepsIn new = maxRetries l
        /\ rejectedAt w (maxRetries l) = false /\ kv w' = kv w)
    /\ (forall e, r = Err e ->
        (connectionActive w = false /\ new = [])
        \/ (e = rejection /\ attemptsIn new = 1 + maxRetries l
            /\ sleepsIn new = maxRetries l /\ rejectedAt w (maxRetries l) = true))
    /\ (forall i, 0 <= i < maxRetries l -> rejectedAt w i = true -> attemptsIn new <> i + 1)
    /\ (connectionActive w = true -> attemptsIn new = 1 + maxRetries l ->
        rejectedAt w (maxRetries l) = true -> r = Err rejection)
    /\ (forall v deadline,
          connectionActive w = true -> Forall (fun f => f = false) (faults w) ->
          kv w !! lockKey l = Some (v, deadline) ->
          clock w + maxRetries l * Z.max 0 (retryDelay l) < deadline ->
          r = Ok false
          /\ attemptsIn new = 1 + maxRetries l /\ sleepsIn new = maxRetries l
          /\ clock w' = clock w + maxRetries l * Z.max 0 (retryDelay l)
          /\ kv w' = kv w)
    /\ (forall v deadline j,
          connectionActive w = true -> Forall (fun f => f = false) (faults w) ->
          kv w !! lockKey l = Some (v, deadline) ->
          0 <= j <= maxRetries l ->
          deadline <= clock w + j * Z.max 0 (retryDelay l) ->
          (1 <= j -> clock w + (j - 1) * Z.max 0 (retryDelay l) < deadline) ->
          r = Ok true
          /\ attemptsIn new = j + 1 /\ sleepsIn new = j
          /\ clock w' = clock w + j * Z.max 0 (retryDelay l)
          /\ kv w' !! lockKey l = Some (lockValue l, clock w' + ttl l * 1000)).
Proof.
  intros Hmax.
  destruct (acquire_retries_core l w Hmax)
    as (w' & r & new & Hrun & Ht & H1 & H2 & H3 & H4 & H5 & H6 & H7 & H8).
  exists w', r, new.
  split; [exact Hrun|]. split; [exact Ht|]. split; [exact H1|]. split; [exact H2|].
  split; [exact H3|]. split; [exact H4|]. split; [exact H5|]. split; [exact H6|].
  split; [exact H7|]. split; [exact H8|]. split.
  - intros v deadline Hact Hclean Hkv Hlate.
    destruct (run_acquire_held l w v deadline Hmax Hact Hclean Hkv Hlate)
      as (w'' & new' & Hrun' & Ht' & Ha' & Hs' & Hc' & Hk' & _).
    rewrite Hrun in Hrun'. injection Hrun' as -> ->.
    rewrite Ht in Ht'. apply app_inv_tail in Ht'. subst new'.
    repeat split; try assumption; lia.
  - intros v deadline j Hact Hclean Hkv Hj Hlate Hearly.
    destruct (run_acquire_wait l w v deadline j Hact Hclean Hkv Hj Hlate Hearly)
      as (w'' & new' & Hrun' & Ht' & Ha' & Hs' & Hc' & Hk').
    rewrite Hrun in Hrun'. injection Hrun' as -> ->.
    rewrite Ht in Ht'. apply app_inv_tail in Ht'. subst new'.
    repeat split; assumption.
Qed.

Lemma acquire_retries_witness :
  exists w' new,
    run (acquire lockR1) worldHeld = (w', Ok false)
    /\ trace w' = new ++ trace worldHeld
    /\ attemptsIn new = 6 /\ sleepsIn new = 5
    /\ clock w' = clock worldHeld + 1000
    /\ kv w' = kv worldHeld.
Proof.
  destruct (acquire_retries lockR1 worldHeld)
    as (w' & r & new & Hrun & Ht & _ & _ & _ & _ & _ & _ & _ & _ & Hheld & _).
  - vm_compute. discriminate.
  - destruct (Hheld (lockValue lockR1') 1700000060000) as (-> & Ha & Hs & Hc & Hk).
    + reflexivity.
    + constructor.
    + reflexivity.
    + reflexivity.
    + exists w', new. repeat split; assumption.
Defined.

(** ** createBooking: the booking it returns *)

(** C6. When [createBooking] returns a booking, its total is the room's base
    price times the nights, [ceil ((checkOut - checkIn) / 1 day)]: the nights
    are the least whole number of days that covers the stay, so a started day
    counts as a night.  Its status is pending, it carries the request's room,
    dates and guests, it is the one document added to the collection, and,
    when no Redis command was rejected, no availability entry of the room is
    left in the cache.  For a base price of 100 and [2024-03-01, 2024-03-04)
    the total is 300; it is 300 as well for a stay of two days and one
    millisecond, and 100 for a stay one millisecond short of a day. *)
Theorem createBooking_success :
  (forall uid bookingData w w' b,
      run (createBooking uid bookingData) w = (w', Ok b) ->
      exists user room r,
        newObjectId uid = Ok user
        /\ newObjectId (c_roomId bookingData) = Ok room
        /\ List.find (fun r => (r_id r =? room)%N) (rooms w) = Some r
        /\ totalAmount b
           = basePrice r
             * ceilDiv (c_checkOutDate bookingData - c_checkInDate bookingData) msPerDay
        /\ (ceilDiv (c_checkOutDate bookingData - c_checkInDate bookingData) msPerDay - 1)
           * msPerDay
           < c_checkOutDate bookingData - c_checkInDate bookingData
           <= ceilDiv (c_checkOutDate bookingData - c_checkInDate bookingData) msPerDay
              * msPerDay
        /\ status b = PENDING
        /\ userId b = user /\ roomId b = room
        /\ checkInDate b = c_checkInDate bookingData
        /\ checkOutDate b = c_checkOutDate bookingData
        /\ numberOfGuests b = c_numberOfGuests bookingData
        /\ bookings w' = bookings w ++ [b]
        /\ (Forall (fun f => f = false) (faults w) ->
            forall dateRange,
              live w' (availabilityKey (toHexString room) dateRange) = None))
  /\ (basePrice roomR1 = 100
      /\ exists w',
           run (createBooking (toHexString 7%N) (request (mar 1) (mar 4) 2)) world0
           = (w', Ok bookingA)
           /\ totalAmount bookingA = 300)
  /\ (exists w' b,
        run (createBooking (toHexString 7%N) (request (mar 1) (mar 3 + 1) 2)) world0
        = (w', Ok b)
        /\ checkOutDate b - checkInDate b = 2 * msPerDay + 1
        /\ totalAmount b = 300)
  /\ (exists w' b,
        run (createBooking (toHexString 7%N) (request (mar 1) (mar 2 - 1) 2)) world0
        = (w', Ok b)
        /\ checkOutDate b - checkInDate b = msPerDay - 1
        /\ totalAmount b = 100).
Proof.
  split.
  - intros uid bookingData w w' b H.
    destruct (createBooking_Ok_inv uid bookingData w w' b H)
      as (user & room & r & w1 & w3 & Hu & Hr & Hacq & Hfind & Herrs & Hb & Hinv & Hw').
    set (l := bookingLock room (c_checkInDate bookingData) (c_checkOutDate bookingData)
                (ownerValue w)) in *.
    set (w0 := set_randoms (tail (randoms w)) w) in *.
    pose proof (acquire_true_active l w0 w1 Hacq) as Hact0.
    destruct (run_acquire l w0) as (w1' & r1 & new & Hacq' & Hpost);
      [simpl; lia | assumption |].
    rewrite Hacq in Hacq'. injection Hacq' as <- <-.
    destruct Hpost as (_ & (Hrooms & Hbookings & _) & _).
    change (rooms w1 = rooms w) in Hrooms. change (bookings w1 = bookings w) in Hbookings.
    destruct (connection_after _ _ _ _ Hacq) as (Hact1 & _ & Hclean1).
    exists user, room, r. rewrite <- Hrooms. subst b.
    repeat split; try assumption; try reflexivity.
    + apply (ceilDiv_bounds _ msPerDay). reflexivity.
    + apply (ceilDiv_bounds _ msPerDay). reflexivity.
    + rewrite Hw', bookings_after_readOnly by apply release_readOnly.
      cbn [bookings emit]. rewrite <- Hinv.
      rewrite bookings_after_readOnly by apply invalidateAfterCreate_readOnly.
      cbn [bookings inserted set_nextOid set_bookings emit]. rewrite Hbookings. reflexivity.
    + intros Hclean dateRange.
      destruct (run_invalidateAfterCreate room
                  (inserted (newBooking user room bookingData r (clock w1) (nextOid w1))
                     (emit (Logged LOG (creatingMessage room bookingData)) w1)))
        as (w3' & Hrun & _ & Hdead).
      { change (connectionActive w1 = true). rewrite Hact1. exact Hact0. }
      { apply Hclean1. exact Hclean. }
      rewrite Hrun in Hinv. simpl in Hinv. subst w3'.
      rewrite Hw'. apply release_effect. apply Hdead.
  - split; [|split].
    + split; [reflexivity|]. eexists. split; [vm_compute; reflexivity | reflexivity].
    + eexists _, _. split; [vm_compute; reflexivity|]. split; reflexivity.
    + eexists _, _. split; [vm_compute; reflexivity|]. split; reflexivity.
Qed.


(** ** The rules on a booking request *)






(** ** Cache invalidation: the room's entries and the search namespace *)






(** ** Keys come from SET commands only *)
































(** ** Two calls for one room and one interval: the invariant *)

Lemma critical_holder (s : Stage) : critical s = true <-> is_Some (holderOf s).
Proof. destruct s; simpl; split; intros H; try discriminate; eauto; destruct H; discriminate. Qed.

Lemma holder_critical (s : Stage) (owner : string) : holderOf s = Some owner -> critical s = true.
Proof. intros H. apply critical_holder. eauto. Qed.

Lemma not_critical_holder (s : Stage) : critical s = false -> holderOf s = None.
Proof. destruct s; simpl; congruence. Qed.

Lemma validated_critical (s : Stage) : validated s = true -> critical s = true.
Proof. destruct s; simpl; congruence. Qed.

Lemma inserted_contested (room : ObjectId) (checkIn checkOut : Z) (s : Stage) (b : IBooking) :
  wfStage room checkIn checkOut s -> insertedBy s = Some b -> contested room checkIn checkOut b = true.
Proof.
  destruct s as [| | | | | | | | | |o [x|e]|[x|e]]; cbn [wfStage insertedBy];
    intros Hwf [=]; subst; tauto.
Qed.

Lemma sleepsLeft_nonneg (s : Stage) : 0 <= sleepsLeft s.
Proof. destruct s; simpl; lia. Qed.

Lemma lost_not_inserted (s : Stage) (e : Exn) : lost s = Some e -> insertedBy s = None.
Proof. destruct s as [| | | | | | | | | |o [x|e']|[x|e']]; simpl; congruence. Qed.

(** The lock key is no availability key: the scan of the invalidation never
    returns it. *)
Lemma roomPattern_head (x : string) :
  "room:availability:" +:+ x = String "r" ("oom:availability:" +:+ x).
Proof. reflexivity. Qed.

Lemma lockKey_head (x : string) : "lock:" +:+ x = String "l" ("ock:" +:+ x).
Proof. reflexivity. Qed.

Lemma theKey_not_cache_key (room : ObjectId) (checkIn checkOut : Z) :
  globMatch (roomPattern room) (theKey room checkIn checkOut) = false.
Proof.
  unfold roomPattern, theKey, bookingLockKey.
  rewrite roomPattern_head, lockKey_head.
  rewrite globMatch_literal_cons by reflexivity. reflexivity.
Qed.

Lemma olist_swap {A} (before : list A) (a b : option A) :
  a = None \/ b = None -> before ++ olist a ++ olist b = before ++ olist b ++ olist a.
Proof. intros [->| ->]; simpl; rewrite ?app_nil_r; reflexivity. Qed.

(** A step neither opens nor closes the connection, keeps the rooms, and
    adds no coming rejection. *)
Lemma settle_connection {A} (p : Prog A) (w : World) :
  let w' := snd (settle p w) in
  isConnected w' = isConnected w /\ isReady w' = isReady w /\ rooms w' = rooms w
  /\ (Forall (fun f => f = false) (faults w) -> Forall (fun f => f = false) (faults w')).
Proof.
  revert w. induction p as [a|e|X o k IH]; intros w; cbn [settle snd]; [auto | auto |].
  destruct (isSync o); [|cbn [snd]; auto].
  pose proof (exec_connection o w) as Ho. cbv zeta in Ho.
  destruct (exec o w) as [w1 r]. cbn [fst] in Ho. destruct Ho as (Hc & Hr & Hro & Hf).
  specialize (IH r w1). cbv zeta in IH. destruct IH as (Hc' & Hr' & Hro' & Hf').
  repeat split; try congruence.
  intros Hall. apply Hf'. destruct Hf as [-> | ->]; [assumption | apply Forall_tail; assumption].
Qed.

Lemma step_connection {A} (p : Prog A) (w : World) :
  let w' := snd (step p w) in
  isConnected w' = isConnected w /\ isReady w' = isReady w /\ rooms w' = rooms w
  /\ (Forall (fun f => f = false) (faults w) -> Forall (fun f => f = false) (faults w')).
Proof.
  destruct p as [a|e|X o k]; cbn [step snd]; [auto | auto |].
  pose proof (exec_connection o w) as Ho. cbv zeta in Ho.
  destruct (exec o w) as [w1 r]. cbn [fst] in Ho. destruct Ho as (Hc & Hr & Hro & Hf).
  pose proof (settle_connection (k r) w1) as Hs. cbv zeta in Hs.
  destruct Hs as (Hc' & Hr' & Hro' & Hf').
  repeat split; try congruence.
  intros Hall. apply Hf'. destruct Hf as [-> | ->]; [assumption | apply Forall_tail; assumption].
Qed.

Lemma live_later (w : World) (t : Z) (k : string) :
  clock w <= t -> live w k = None -> live (set_clock t w) k = None.
Proof.
  unfold live. cbn [kv clock set_clock]. intros Ht.
  destruct (kv w !! k) as [[v deadline]|]; [|reflexivity].
  destruct (clock w <? deadline) eqn:E; [discriminate|]. intros _.
  apply Z.ltb_ge in E. destruct (t <? deadline) eqn:E'; [|reflexivity].
  apply Z.ltb_lt in E'. lia.
Qed.

Section Pair.

Variables (room : ObjectId) (checkIn checkOut : Z).

Lemma Inv_sym (before : list IBooking) (budget : Z) (s1 s2 : Stage) (w : World) :
  Inv room checkIn checkOut before budget s1 s2 w ->
  Inv room checkIn checkOut before budget s2 s1 w.
Proof.
  unfold Inv. intros (Hw1 & Hw2 & Hb & Ht & Hm & Hk & Hv & Hbk & Hi).
  rewrite (Z.add_comm (sleepsLeft s2)), andb_comm, (orb_comm (validated s2)).
  repeat split; try assumption.
  - intros owner Ho. apply Hk. tauto.
  - rewrite Hbk. apply olist_swap. exact Hi.
  - tauto.
Qed.

Lemma Inv_tick (before : list IBooking) (budget ms : Z) (s1 s2 : Stage) (w : World) :
  0 <= budget ->
  Inv room checkIn checkOut before (Z.max 0 ms + budget) s1 s2 w ->
  Inv room checkIn checkOut before budget s1 s2 (set_clock (clock w + Z.max 0 ms) w).
Proof.
  unfold Inv. intros Hb' (Hw1 & Hw2 & Hb & Ht & Hm & Hk & Hv & Hbk & Hi).
  cbn [kv clock bookings set_clock].
  repeat split; try assumption; try lia.
  intros owner Ho. destruct (Hk owner Ho) as (deadline & Hkv & Hd).
  exists deadline. split; [exact Hkv | lia].
Qed.

(** A step that leaves the key, the clock and the collection alone. *)
Lemma Inv_frame (before : list IBooking) (budget : Z) (s1 s2 s1' : Stage) (w w' : World) :
  Inv room checkIn checkOut before budget s1 s2 w ->
  wfStage room checkIn checkOut s1' ->
  sleepsLeft s1' <= sleepsLeft s1 ->
  (forall owner, holderOf s1' = Some owner -> holderOf s1 = Some owner) ->
  (validated s1' = true ->
   validated s1 = true \/ List.filter (contested room checkIn checkOut) (bookings w) = []) ->
  insertedBy s1' = insertedBy s1 ->
  (critical s1' = true \/ critical s2 = true ->
   kv w' !! theKey room checkIn checkOut = kv w !! theKey room checkIn checkOut) ->
  clock w' = clock w ->
  bookings w' = bookings w ->
  Inv room checkIn checkOut before budget s1' s2 w'.
Proof.
  unfold Inv. intros (Hw1 & Hw2 & Hb & Ht & Hm & Hk & Hv & Hbk & Hi) Hwf Hsl Hh Hval Hins Hkv Hcl Hbs.
  pose proof (sleepsLeft_nonneg s1'). pose proof (sleepsLeft_nonneg s2).
  assert (critical s1' = true -> critical s1 = true) as Hc.
  { intros H1. apply critical_holder in H1 as [o Ho]. apply (holder_critical _ o), Hh, Ho. }
  split; [exact Hwf|]. split; [exact Hw2|]. split; [exact Hb|]. split; [lia|].
  split.
  { destruct (critical s1') eqn:E; [|reflexivity]. rewrite (Hc eq_refl) in Hm. exact Hm. }
  split.
  { intros owner Ho.
    assert (holderOf s1 = Some owner \/ holderOf s2 = Some owner) as Ho'.
    { destruct Ho as [Ho|Ho]; [left; apply Hh, Ho | right; exact Ho]. }
    destruct (Hk owner Ho') as (deadline & Hkv' & Hd).
    exists deadline. rewrite Hkv, Hcl.
    - split; [exact Hkv' | lia].
    - destruct Ho as [Ho|Ho]; [left | right]; apply (holder_critical _ owner), Ho. }
  split.
  { intros Hv'. rewrite Hbs. apply orb_true_iff in Hv' as [Hv'|Hv'].
    - destruct (Hval Hv') as [Hv1|Hnone]; [|exact Hnone]. apply Hv. rewrite Hv1. reflexivity.
    - apply Hv. rewrite Hv'. apply orb_true_r. }
  rewrite Hbs, Hins. split; assumption.
Qed.

(** Into [release], from a critical control point of the same owner. *)
Lemma Inv_releasing (before : list IBooking) (budget : Z) (s1 s2 : Stage) (w w' : World)
    (owner : string) (outcome : result IBooking) :
  Inv room checkIn checkOut before budget s1 s2 w ->
  holderOf s1 = Some owner ->
  wfStage room checkIn checkOut (Releasing owner outcome) ->
  insertedBy (Releasing owner outcome) = insertedBy s1 ->
  kv w' !! theKey room checkIn checkOut = kv w !! theKey room checkIn checkOut ->
  clock w' = clock w ->
  bookings w' = bookings w ->
  Inv room checkIn checkOut before budget (fst (releasing owner outcome w')) s2
    (snd (releasing owner outcome w')).
Proof.
  intros HI Hh Hwf Hins Hkv Hcl Hbs. unfold releasing.
  pose proof (sleepsLeft_nonneg s1).
  destruct (connectionActive w'); cbn [fst snd].
  - apply (Inv_frame before budget s1 s2 _ w w' HI); try assumption; try discriminate.
    + cbn [holderOf]. congruence.
    + intros _. exact Hkv.
  - apply (Inv_frame before budget s1 s2 _ w _ HI); try assumption; try discriminate.
    intros _. exact Hkv.
Qed.

Lemma Normal_sym (r : IRoom) (before : list IBooking) (budget : Z) (s1 s2 : Stage) (w : World) :
  Normal room checkIn checkOut r before budget s1 s2 w ->
  Normal room checkIn checkOut r before budget s2 s1 w.
Proof.
  unfold Normal. intros (Ha & Hf & Hr & Hbf & Ht & Ho1 & Ho2 & Hk & Hl1 & Hl2).
  rewrite (Z.add_comm (sleepsLeft s2)), (orb_comm (critical s2)).
  repeat (split; [assumption|]). assumption.
Qed.

Lemma Normal_tick (r : IRoom) (before : list IBooking) (budget ms : Z) (s1 s2 : Stage)
    (w : World) :
  0 <= budget ->
  Normal room checkIn checkOut r before (Z.max 0 ms + budget) s1 s2 w ->
  Normal room checkIn checkOut r before budget s1 s2 (set_clock (clock w + Z.max 0 ms) w).
Proof.
  unfold Normal. intros Hb (Ha & Hf & Hr & Hbf & Ht & Ho1 & Ho2 & Hk & Hl1 & Hl2).
  split; [exact Ha|]. split; [exact Hf|]. split; [exact Hr|]. split; [exact Hbf|].
  split; [cbn [clock set_clock]; lia|]. split; [exact Ho1|]. split; [exact Ho2|].
  split; [|split; assumption].
  intros Hc. apply live_later; [lia | apply Hk, Hc].
Qed.

Section Step.

Variables (uid : string) (user : ObjectId) (d : ICreateBooking).
Hypothesis Hu : newObjectId uid = Ok user.
Hypothesis Hr : newObjectId (c_roomId d) = Ok room.
Hypothesis Hci : c_checkInDate d = checkIn.
Hypothesis Hco : c_checkOutDate d = checkOut.

Lemma lockKey_theLock (owner : string) :
  lockKey (theLock room d owner) = theKey room checkIn checkOut.
Proof. unfold theLock, bookingLock, theKey. cbn [lockKey]. rewrite Hci, Hco. reflexivity. Qed.

Lemma conflictQuery_contested : conflictQuery room d = contested room checkIn checkOut.
Proof. unfold conflictQuery, contested. rewrite Hci, Hco. reflexivity. Qed.

Lemma errorsAt_nil (now : Z) (r : IRoom) (conflicting : list IBooking) :
  errorsAt d now r conflicting = [] <->
  conflicting = []
  /\ c_numberOfGuests d <= maxOccupancy r /\ isActive r = true
  /\ 1 <= c_numberOfGuests d /\ now <= checkIn /\ checkIn < checkOut.
Proof.
  unfold errorsAt, basicErrors. rewrite !pushIf_nil, Hci, Hco.
  rewrite negb_false_iff, Z.gtb_ltb, Z.ltb_ge, Z.leb_gt, Z.ltb_ge, Z.geb_leb, Z.leb_gt.
  destruct conflicting; simpl; intuition (try discriminate; try lia).
Qed.

Lemma bookingDoc_contested (r : IRoom) (created updated : Z) (id : ObjectId) :
  checkIn < checkOut ->
  contested room checkIn checkOut (bookingDoc user room d r created updated id) = true.
Proof.
  intros H. unfold contested, conflictFilter, bookingDoc.
  cbn [roomId status checkInDate checkOutDate isActiveStatus]. rewrite Hci, Hco, N.eqb_refl.
  cbn [andb]. rewrite andb_true_r, andb_true_iff. split; [apply Z.ltb_lt | apply Z.gtb_gt]; lia.
Qed.

Lemma Inv_step (before : list IBooking) (budget : Z) (s1 s2 : Stage) (w : World) :
  Inv room checkIn checkOut before budget s1 s2 w ->
  Inv room checkIn checkOut before budget (fst (advance user room d s1 w)) s2
    (snd (advance user room d s1 w)).
Proof.
  intros HI. pose proof HI as (Hw1 & Hw2 & Hb & Ht & Hm & Hk & Hv & Hbk & Hi).
  destruct s1 as [|owner turns attempt|owner turns attempt|owner turns attempt|owner now
                  |owner now r|owner|owner r created updated|owner b|owner b keys
                  |owner outcome|outcome];
    cbn [advance].
  - (* Idle *)
    destruct (connectionActive w); cbn [fst snd];
      apply (Inv_frame before budget Idle s2 _ w _ HI); try reflexivity; try discriminate;
      cbn [wfStage sleepsLeft]; try lia; exact I.
  - (* Acquiring *)
    cbn [wfStage] in Hw1. rewrite lockKey_theLock.
    destruct (nextRejected w).
    { destruct (attempt =? 5) eqn:Ha; cbn [fst snd];
        apply (Inv_frame before budget _ s2 _ w _ HI); try reflexivity; try discriminate;
        cbn [wfStage sleepsLeft]; try lia; try exact I. }
    destruct (live w (theKey room checkIn checkOut)) as [v|] eqn:Hlive.
    { destruct (attempt <? 5) eqn:Ha; cbn [fst snd].
      - apply Z.ltb_lt in Ha.
        apply (Inv_frame before budget _ s2 _ w _ HI); try reflexivity; try discriminate;
          cbn [wfStage sleepsLeft]; try lia.
      - unfold retry. destruct turns as [|turns']; cbn [fst snd];
          apply (Inv_frame before budget _ s2 _ w _ HI); try reflexivity; try discriminate;
          cbn [wfStage sleepsLeft]; try lia; exact I. }
    (* the key is free: the call enters its critical section *)
    cbn [fst snd].
    assert (critical s2 = false) as Hc2.
    { destruct (critical s2) eqn:E; [|reflexivity]. exfalso.
      apply critical_holder in E as [o Ho].
      destruct (Hk o (or_intror Ho)) as (deadline & Hkv & Hd).
      unfold live in Hlive. rewrite Hkv in Hlive.
      pose proof (sleepsLeft_nonneg s2). cbn [sleepsLeft] in Hd.
      destruct (clock w <? deadline) eqn:E; [discriminate|]. apply Z.ltb_ge in E. lia. }
    pose proof (sleepsLeft_nonneg s2). cbn [sleepsLeft] in Ht.
    unfold Inv. cbn [wfStage sleepsLeft critical holderOf validated insertedBy kv clock bookings
                     emit set_kv sent set_faults andb orb].
    split; [exact I|]. split; [exact Hw2|]. split; [exact Hb|]. split; [lia|].
    split; [exact Hc2|]. split.
    { intros o [[= <-]|Ho].
      - exists (clock w + 60 * 1000). rewrite lookup_insert_eq. split; [reflexivity | lia].
      - rewrite (not_critical_holder s2 Hc2) in Ho. discriminate. }
    split.
    { intros Hv2. apply Hv. rewrite Hv2. apply orb_true_r. }
    split; [exact Hbk | exact Hi].
  - (* Sleeping *)
    cbn [wfStage] in Hw1. destruct Hw1 as (Hturns & Hlt).
    destruct turns as [|turns']; [cbn [Z.of_nat] in Hturns; lia|].
    unfold retry. cbn [fst snd]. unfold Inv.
    cbn [wfStage sleepsLeft critical holderOf validated insertedBy kv clock bookings
         emit set_clock slept andb orb] in *.
    rewrite Nat2Z.inj_succ in *.
    split; [lia|]. split; [exact Hw2|]. split; [exact Hb|]. split; [lia|].
    split; [reflexivity|]. split.
    { intros o Ho. destruct (Hk o Ho) as (deadline & Hkv & Hd). exists deadline.
      split; [exact Hkv | lia]. }
    split; [exact Hv|]. split; [exact Hbk | exact Hi].
  - (* Recovering *)
    cbn [wfStage] in Hw1. destruct Hw1 as (Hturns & Hlt).
    destruct turns as [|turns']; [cbn [Z.of_nat] in Hturns; lia|].
    unfold retry. cbn [fst snd]. unfold Inv.
    cbn [wfStage sleepsLeft critical holderOf validated insertedBy kv clock bookings
         emit set_clock slept andb orb] in *.
    rewrite Nat2Z.inj_succ in *.
    split; [lia|]. split; [exact Hw2|]. split; [exact Hb|]. split; [lia|].
    split; [reflexivity|]. split.
    { intros o Ho. destruct (Hk o Ho) as (deadline & Hkv & Hd). exists deadline.
      split; [exact Hkv | lia]. }
    split; [exact Hv|]. split; [exact Hbk | exact Hi].
  - (* ValidatingRoom *)
    destruct (List.find _ (rooms w)) as [r|].
    + cbn [fst snd]. apply (Inv_frame before budget _ s2 _ w _ HI);
        try reflexivity; try discriminate; cbn [holderOf wfStage]; auto.
    + apply (Inv_releasing before budget _ s2 w w owner _ HI); reflexivity || exact I.
  - (* ValidatingConflicts *)
    destruct (length _ =? 0)%nat eqn:Herrs.
    + cbn [fst snd]. apply length_eqb_nil, errorsAt_nil in Herrs as (Hnone & _ & _ & _ & _ & Hlt).
      rewrite conflictQuery_contested in Hnone.
      apply (Inv_frame before budget _ s2 _ w _ HI);
        try reflexivity; try discriminate; cbn [holderOf wfStage]; auto.
    + apply (Inv_releasing before budget _ s2 w w owner _ HI); reflexivity || exact I.
  - (* FindingRoom *)
    destruct (List.find _ (rooms w)) as [r|].
    + cbn [fst snd]. apply (Inv_frame before budget _ s2 _ w _ HI);
        try reflexivity; try discriminate; cbn [holderOf wfStage]; auto.
    + apply (Inv_releasing before budget _ s2 w w owner _ HI); reflexivity || exact I.
  - (* Inserting *)
    cbn [wfStage] in Hw1.
    set (b := bookingDoc user room d r created updated (nextOid w)).
    assert (contested room checkIn checkOut b = true) as Hcb
      by (apply bookingDoc_contested; exact Hw1).
    assert (critical s2 = false) as Hc2 by exact Hm.
    assert (insertedBy s2 = None) as Hi2.
    { destruct (insertedBy s2) as [b2|] eqn:E; [|reflexivity]. exfalso.
      pose proof (inserted_contested _ _ _ s2 b2 Hw2 E) as Hcon.
      specialize (Hv eq_refl). cbn [insertedBy olist] in Hbk.
      rewrite Hbk, app_nil_l, List.filter_app in Hv. cbn [List.filter] in Hv.
      rewrite Hcon in Hv. destruct (List.filter _ before); discriminate. }
    assert (Inv room checkIn checkOut before budget (Scanning owner b) s2 (inserted b w)) as HI'.
    { unfold Inv. cbn [wfStage sleepsLeft critical holderOf validated insertedBy kv clock bookings
                       inserted set_nextOid set_bookings andb orb] in *.
      split; [exact Hcb|]. split; [exact Hw2|]. split; [exact Hb|]. split; [exact Ht|].
      split; [exact Hc2|]. split; [exact Hk|]. split.
      { intros Hv2. apply validated_critical in Hv2. congruence. }
      split; [|right; exact Hi2].
      rewrite Hbk, Hi2. cbn [olist app]. rewrite app_nil_r. reflexivity. }
    destruct (connectionActive w).
    + exact HI'.
    + apply (Inv_releasing before budget _ s2 (inserted b w) _ owner _ HI');
        reflexivity || exact Hcb.
  - (* Scanning *)
    cbn [wfStage] in Hw1.
    destruct (nextRejected w).
    { apply (Inv_releasing before budget _ s2 w _ owner _ HI); reflexivity || exact Hw1. }
    destruct (0 <? length _)%nat.
    + cbn [fst snd]. apply (Inv_frame before budget _ s2 _ w _ HI);
        try reflexivity; try discriminate; cbn [holderOf wfStage]; auto.
      split; [exact Hw1|]. apply Forall_forall. intros k Hin.
      apply list_elem_of_In, scanKeys_In in Hin as [Hmatch _]. exact Hmatch.
    + apply (Inv_releasing before budget _ s2 w _ owner _ HI); reflexivity || exact Hw1.
  - (* Deleting *)
    cbn [wfStage] in Hw1. destruct Hw1 as (Hcb & Hkeys).
    destruct (nextRejected w).
    { apply (Inv_releasing before budget _ s2 w _ owner _ HI); reflexivity || exact Hcb. }
    pose proof (delKeys_kv keys (sent (CmdDel keys) w) (theKey room checkIn checkOut)) as Hkv.
    pose proof (delKeys_frame keys (sent (CmdDel keys) w)) as (_ & _ & _ & Hclock & _).
    pose proof (delKeys_sameStore keys (sent (CmdDel keys) w)) as (_ & Hbs & _).
    apply (Inv_releasing before budget _ s2 w _ owner _ HI); try reflexivity; try exact Hcb.
    + cbn [kv emit]. rewrite Hkv. rewrite bool_decide_eq_false_2; [reflexivity|].
      intros Hin.
      rewrite Forall_forall in Hkeys. specialize (Hkeys _ Hin).
      rewrite theKey_not_cache_key in Hkeys. discriminate.
    + exact Hclock.
    + exact Hbs.
  - (* Releasing *)
    assert (critical s2 = false) as Hc2 by exact Hm.
    assert (forall w',
               clock w' = clock w -> bookings w' = bookings w ->
               Inv room checkIn checkOut before budget (Finished outcome) s2 w') as Hdone.
    { intros w' Hcl Hbs.
      apply (Inv_frame before budget _ s2 _ w _ HI);
        try assumption; try reflexivity; try discriminate;
        try (destruct outcome; first [exact Hw1 | reflexivity]).
      intros [H|H]; [discriminate | congruence]. }
    destruct (nextRejected w); [apply Hdone; reflexivity|].
    destruct (bool_decide _); apply Hdone; reflexivity.
  - (* Finished *)
    exact HI.
Qed.

(** What a call that fits the room reports when it is refused: the conflict
    message alone. *)
Lemma errorsAt_fits (now : Z) (r : IRoom) (conflicting : list IBooking) :
  fits d r -> now <= checkIn ->
  errorsAt d now r conflicting = if (0 <? length conflicting)%nat then [msgConflict] else [].
Proof.
  intros (Hord & Hg & Hact) Hnow. unfold errorsAt, basicErrors, pushIf.
  rewrite Hact. cbn [negb].
  replace (c_numberOfGuests d >? maxOccupancy r) with false by lia.
  replace (c_numberOfGuests d <=? 0) with false by lia.
  replace (c_checkInDate d <? now) with false by lia.
  replace (c_checkInDate d >=? c_checkOutDate d) with false by lia.
  reflexivity.
Qed.

Lemma advance_connection (s : Stage) (w : World) :
  let w' := snd (advance user room d s w) in
  connectionActive w' = connectionActive w /\ rooms w' = rooms w
  /\ (Forall (fun f => f = false) (faults w) -> Forall (fun f => f = false) (faults w')).
Proof.
  pose proof (step_connection (remainder uid user room d s) w) as H.
  rewrite (step_remainder uid user room d Hu Hr s w) in H. cbv zeta in H. cbn [snd] in H.
  destruct H as (Hc & Hre & Hro & Hf). cbv zeta. unfold connectionActive.
  rewrite Hc, Hre. auto.
Qed.

(** What a step of a call changes, in normal operation. *)
Lemma advance_normal (r : IRoom) (before : list IBooking) (budget : Z) (s1 s2 : Stage)
    (w : World) :
  fits d r ->
  Inv room checkIn checkOut before budget s1 s2 w ->
  Normal room checkIn checkOut r before budget s1 s2 w ->
  let s1' := fst (advance user room d s1 w) in
  let w' := snd (advance user room d s1 w) in
  clock w' + 200 * sleepsLeft s1' <= clock w + 200 * sleepsLeft s1
  /\ okStage checkIn r s1'
  /\ (critical s1' || critical s2 = false -> live w' (theKey room checkIn checkOut) = None)
  /\ lostTo room checkIn checkOut s1' s2
  /\ (critical s1 = true \/ is_Some (insertedBy s1) ->
      is_Some (lost s2) ->
      critical s1' = true \/ is_Some (insertedBy s1')).
Proof.
  intros Hfits HI HN.
  pose proof HI as (Hw1 & Hw2 & Hb & Ht & Hm & Hk & Hv & Hbk & Hi).
  pose proof HN as (Hact & Hclean & Hfind & Hbf & Htime & Ho1 & Ho2 & Hfree & Hl1 & Hl2).
  pose proof (nextRejected_clean w Hclean) as Hrej.
  pose proof (sleepsLeft_nonneg s2) as Hs2.
  assert (forall s', lost s' = None -> lostTo room checkIn checkOut s' s2) as Hnolost.
  { intros s' Hnone e He. congruence. }
  assert (forall s', critical s' = true ->
                     critical s' || critical s2 = false ->
                     live (snd (advance user room d s1 w)) (theKey room checkIn checkOut) = None)
    as Hcrit.
  { intros s' -> H. discriminate. }
  destruct s1 as [|owner turns attempt|owner turns attempt|owner turns attempt|owner now
                  |owner now r'|owner|owner r' created updated|owner b|owner b keys
                  |owner outcome|outcome];
    cbn [advance]; cbv zeta.
  - (* Idle *)
    rewrite Hact. cbn [fst snd sleepsLeft clock set_randoms okStage].
    split; [lia|]. split; [exact I|]. split; [exact Hfree|].
    split; [apply Hnolost; reflexivity|].
    intros [H|[x H]]; discriminate.
  - (* Acquiring *)
    cbn [wfStage] in Hw1. rewrite Hrej, lockKey_theLock.
    destruct (live w (theKey room checkIn checkOut)) as [v|] eqn:Hlive.
    + assert (critical s2 = true) as Hc2.
      { destruct (critical s2) eqn:E; [reflexivity|]. discriminate (Hfree eq_refl). }
      destruct (attempt <? 5) eqn:Ha.
      * cbn [fst snd sleepsLeft clock emit sent set_faults okStage critical].
        split; [lia|]. split; [exact I|]. rewrite Hc2. split; [discriminate|].
        split; [apply Hnolost; reflexivity|].
        intros [H|[x H]]; discriminate.
      * apply Z.ltb_ge in Ha. destruct turns as [|turns'].
        2:{ rewrite Nat2Z.inj_succ in Hw1. pose proof (Nat2Z.is_nonneg turns'). lia. }
        unfold retry. cbn [fst snd sleepsLeft clock emit sent set_faults okStage critical].
        split; [lia|]. split; [exact I|]. rewrite Hc2. split; [discriminate|].
        split.
        { intros e [= <-]. split; [right|left; exact Hc2].
          unfold lockError. rewrite ?lockKey_theLock, ?Hci, ?Hco. reflexivity. }
        intros [H|[x H]]; discriminate.
    + cbn [fst snd sleepsLeft clock emit sent set_faults set_kv okStage critical orb].
      cbn [sleepsLeft] in Htime. pose proof (Nat2Z.is_nonneg turns).
      split; [lia|]. split; [lia|]. split; [discriminate|].
      split; [apply Hnolost; reflexivity|]. intros _ _. left. reflexivity.
  - (* Sleeping *)
    cbn [wfStage] in Hw1. destruct Hw1 as (Hturns & Hlt).
    destruct turns as [|turns']; [cbn [Z.of_nat] in Hturns; lia|].
    unfold retry. cbn [fst snd sleepsLeft clock emit set_clock slept okStage critical orb].
    rewrite Nat2Z.inj_succ. split; [lia|]. split; [exact I|]. split.
    { intros Hc. change (live (slept 200 w) (theKey room checkIn checkOut))
        with (live (set_clock (clock w + Z.max 0 200) w) (theKey room checkIn checkOut)).
      apply live_later; [lia | apply Hfree, Hc]. }
    split; [apply Hnolost; reflexivity|].
    intros [H|[x H]]; discriminate.
  - (* Recovering *)
    cbn [wfStage] in Hw1. destruct Hw1 as (Hturns & Hlt).
    destruct turns as [|turns']; [cbn [Z.of_nat] in Hturns; lia|].
    unfold retry. cbn [fst snd sleepsLeft clock emit set_clock slept okStage critical orb].
    rewrite Nat2Z.inj_succ. split; [lia|]. split; [exact I|]. split.
    { intros Hc. change (live (slept 200 w) (theKey room checkIn checkOut))
        with (live (set_clock (clock w + Z.max 0 200) w) (theKey room checkIn checkOut)).
      apply live_later; [lia | apply Hfree, Hc]. }
    split; [apply Hnolost; reflexivity|].
    intros [H|[x H]]; discriminate.
  - (* ValidatingRoom *)
    rewrite Hfind. cbn [fst snd sleepsLeft okStage critical orb] in *.
    split; [lia|]. split; [auto|]. split; [discriminate|].
    split; [apply Hnolost; reflexivity|]. intros _ _. left. reflexivity.
  - (* ValidatingConflicts *)
    cbn [okStage] in Ho1. destruct Ho1 as (Hnow & ->).
    rewrite (errorsAt_fits now r _ Hfits Hnow), conflictQuery_contested.
    destruct (0 <? length (List.filter (contested room checkIn checkOut) (bookings w)))%nat
      eqn:Hconf.
    + cbn [length Nat.eqb]. unfold releasing. rewrite Hact.
      cbn [fst snd sleepsLeft okStage critical orb].
      split; [lia|]. split; [exact I|]. split; [discriminate|]. split.
      * intros e [= <-]. split; [left; reflexivity|]. right.
        destruct (insertedBy s2) as [b2|] eqn:E; [eauto|]. exfalso.
        cbn [insertedBy olist] in Hbk. rewrite Hbk in Hconf. cbn [app] in Hconf.
        rewrite app_nil_r, Hbf in Hconf. discriminate.
      * intros _ _. left. reflexivity.
    + cbn [length Nat.eqb fst snd sleepsLeft okStage critical orb].
      split; [lia|]. split; [exact I|]. split; [discriminate|].
      split; [apply Hnolost; reflexivity|]. intros _ _. left. reflexivity.
  - (* FindingRoom *)
    rewrite Hfind. cbn [fst snd sleepsLeft okStage critical orb].
    split; [lia|]. split; [exact I|]. split; [discriminate|].
    split; [apply Hnolost; reflexivity|]. intros _ _. left. reflexivity.
  - (* Inserting *)
    rewrite Hact. cbn [fst snd sleepsLeft okStage critical orb clock inserted set_nextOid
                       set_bookings].
    split; [lia|]. split; [exact I|]. split; [discriminate|].
    split; [apply Hnolost; reflexivity|]. intros _ _. left. reflexivity.
  - (* Scanning *)
    rewrite Hrej. destruct (0 <? length _)%nat.
    + cbn [fst snd sleepsLeft okStage critical orb clock sent emit set_faults].
      split; [lia|]. split; [exact I|]. split; [discriminate|].
      split; [apply Hnolost; reflexivity|]. intros _ _. left. reflexivity.
    + unfold releasing.
      change (connectionActive (emit _ (sent _ w))) with (connectionActive w). rewrite Hact.
      cbn [fst snd sleepsLeft okStage critical orb clock sent emit set_faults].
      split; [lia|]. split; [exact I|]. split; [discriminate|].
      split; [apply Hnolost; reflexivity|]. intros _ _. left. reflexivity.
  - (* Deleting *)
    rewrite Hrej. unfold releasing.
    pose proof (delKeys_frame keys (sent (CmdDel keys) w)) as (_ & Hc & Hre & Hclock & _).
    cbv zeta in Hc, Hre, Hclock.
    assert (connectionActive
              (emit (Logged LOG (createdMessage (b_id b)))
                 (emit (Logged LOG (invalidatedMessage (length keys) (toHexString room)))
                    (fst (delKeys keys (sent (CmdDel keys) w))))) = true) as ->.
    { unfold connectionActive in *. cbn [isConnected isReady emit]. rewrite Hc, Hre. exact Hact. }
    cbn [fst snd sleepsLeft okStage critical orb clock emit]. rewrite Hclock.
    split; [cbn [clock sent emit set_faults]; lia|]. split; [exact I|]. split; [discriminate|].
    split; [apply Hnolost; reflexivity|]. intros _ _. left. reflexivity.
  - (* Releasing *)
    rewrite Hrej.
    assert (critical s2 = false) as Hc2 by exact Hm.
    assert (live w (lockKey (theLock room d owner)) = Some owner) as Hheld.
    { rewrite lockKey_theLock. destruct (Hk owner (or_introl eq_refl)) as (deadline & Hkv & Hd).
      unfold live. rewrite Hkv. cbn [sleepsLeft] in Hd.
      destruct (clock w <? deadline) eqn:E; [reflexivity|]. apply Z.ltb_ge in E. lia. }
    rewrite (bool_decide_eq_true_2 _ Hheld).
    cbn [fst snd sleepsLeft okStage critical orb clock emit sent set_faults set_kv].
    split; [lia|]. split; [exact I|]. split.
    { intros _. unfold live. cbn [kv emit set_kv]. rewrite lockKey_theLock, lookup_delete_eq.
      reflexivity. }
    split.
    { intros e He. apply Hl1. destruct outcome; exact He. }
    intros _ [e2 He2]. destruct outcome as [b|e]; [right; cbn [insertedBy]; eauto|].
    exfalso. destruct (Hl1 e eq_refl) as (_ & [Hc|[b2 Hb2]]); [congruence|].
    rewrite (lost_not_inserted s2 e2 He2) in Hb2. discriminate.
  - (* Finished *)
    cbn [fst snd]. split; [lia|]. split; [exact I|]. split; [exact Hfree|].
    split; [exact Hl1|]. intros H _. exact H.
Qed.

Lemma Normal_step (r : IRoom) (before : list IBooking) (budget : Z) (s1 s2 : Stage)
    (w : World) :
  fits d r ->
  Inv room checkIn checkOut before budget s1 s2 w ->
  Normal room checkIn checkOut r before budget s1 s2 w ->
  Normal room checkIn checkOut r before budget (fst (advance user room d s1 w)) s2
    (snd (advance user room d s1 w)).
Proof.
  intros Hfits HI HN.
  pose proof (advance_normal r before budget s1 s2 w Hfits HI HN) as H. cbv zeta in H.
  destruct H as (Htime' & Hok & Hkey & Hlost & Hkeep).
  pose proof (advance_connection s1 w) as (Hc & Hro & Hf). 
  destruct HN as (Hact & Hclean & Hfind & Hbf & Htime & Ho1 & Ho2 & Hfree & Hl1 & Hl2).
  unfold Normal.
  split; [rewrite Hc; exact Hact|]. split; [exact (Hf Hclean)|].
  split; [rewrite Hro; exact Hfind|]. split; [exact Hbf|].
  split; [lia|]. split; [exact Hok|]. split; [exact Ho2|]. split; [exact Hkey|].
  split; [exact Hlost|].
  intros e He. destruct (Hl2 e He) as (Hkind & Hwas). split; [exact Hkind|].
  apply Hkeep; [exact Hwas | eauto].
Qed.

Lemma remainder_finished (s : Stage) :
  finished (remainder uid user room d s) = true -> exists outcome, s = Finished outcome.
Proof.
  destruct s; try (intros _; eexists; reflexivity); intros H; exfalso; revert H.
  - cbn [remainder]. unfold createBooking, objectId. rewrite Hu, Hr. discriminate.
  - discriminate.
  - discriminate.
  - discriminate.
  - discriminate.
  - discriminate.
  - discriminate.
  - discriminate.
  - discriminate.
  - discriminate.
  - discriminate.
Qed.

End Step.
End Pair.

(** ** Two calls under a schedule *)

Lemma ticks_nonneg (schedule : list Turn) : 0 <= ticks schedule.
Proof. induction schedule as [|[| |ms] schedule IH]; cbn [ticks]; lia. Qed.

Section Schedule.

Variables (uid1 : string) (user1 : ObjectId) (d1 : ICreateBooking).
Variables (uid2 : string) (user2 : ObjectId) (d2 : ICreateBooking).
Variable room : ObjectId.
Hypothesis Hu1 : newObjectId uid1 = Ok user1.
Hypothesis Hu2 : newObjectId uid2 = Ok user2.
Hypothesis Hr1 : newObjectId (c_roomId d1) = Ok room.
Hypothesis Hr2 : newObjectId (c_roomId d2) = Ok room.
Hypothesis Hci : c_checkInDate d2 = c_checkInDate d1.
Hypothesis Hco : c_checkOutDate d2 = c_checkOutDate d1.

Lemma turn_configOf (t : Turn) (s1 s2 : Stage) (w : World) :
  turn t (configOf uid1 user1 d1 uid2 user2 d2 room s1 s2 w)
  = let '(s1', s2', w') := advanceBy user1 d1 user2 d2 room t (s1, s2, w) in
    configOf uid1 user1 d1 uid2 user2 d2 room s1' s2' w'.
Proof.
  destruct t as [| |ms]; cbn [turn advanceBy configOf first second shared].
  - rewrite (step_remainder uid1 user1 room d1 Hu1 Hr1 s1 w).
    destruct (advance user1 room d1 s1 w) as [s1' w']. reflexivity.
  - rewrite (step_remainder uid2 user2 room d2 Hu2 Hr2 s2 w).
    destruct (advance user2 room d2 s2 w) as [s2' w']. reflexivity.
  - reflexivity.
Qed.

Lemma interleave_configOf (schedule : list Turn) (s1 s2 : Stage) (w : World) :
  interleave schedule (configOf uid1 user1 d1 uid2 user2 d2 room s1 s2 w)
  = let '(s1', s2', w') :=
      fold_left (fun c t => advanceBy user1 d1 user2 d2 room t c) schedule (s1, s2, w) in
    configOf uid1 user1 d1 uid2 user2 d2 room s1' s2' w'.
Proof.
  revert s1 s2 w. induction schedule as [|t schedule IH]; intros s1 s2 w; [reflexivity|].
  unfold interleave in *. cbn [fold_left]. rewrite turn_configOf.
  destruct (advanceBy user1 d1 user2 d2 room t (s1, s2, w)) as [[s1' s2'] w']. apply IH.
Qed.

Lemma Inv_schedule (before : list IBooking) (schedule : list Turn) (s1 s2 : Stage)
    (w : World) :
  Inv room (c_checkInDate d1) (c_checkOutDate d1) before (ticks schedule) s1 s2 w ->
  let '(s1', s2', w') :=
    fold_left (fun c t => advanceBy user1 d1 user2 d2 room t c) schedule (s1, s2, w) in
  Inv room (c_checkInDate d1) (c_checkOutDate d1) before 0 s1' s2' w'
  /\ (forall r,
        fits d1 r -> fits d2 r ->
        Normal room (c_checkInDate d1) (c_checkOutDate d1) r before (ticks schedule) s1 s2 w ->
        Normal room (c_checkInDate d1) (c_checkOutDate d1) r before 0 s1' s2' w').
Proof.
  revert s1 s2 w. induction schedule as [|t schedule IH]; intros s1 s2 w HI.
  { cbn [fold_left ticks] in *. auto. }
  cbn [fold_left].
  assert (let '(s1', s2', w') := advanceBy user1 d1 user2 d2 room t (s1, s2, w) in
          Inv room (c_checkInDate d1) (c_checkOutDate d1) before (ticks schedule) s1' s2' w'
          /\ (forall r,
                fits d1 r -> fits d2 r ->
                Normal room (c_checkInDate d1) (c_checkOutDate d1) r before
                  (ticks (t :: schedule)) s1 s2 w ->
                Normal room (c_checkInDate d1) (c_checkOutDate d1) r before
                  (ticks schedule) s1' s2' w')) as Hstep.
  { destruct t as [| |ms]; cbn [advanceBy ticks] in *.
    - pose proof (Inv_step room _ _ user1 d1 eq_refl eq_refl before _ s1 s2 w HI) as HI'.
      pose proof (fun r Hf HN =>
                    Normal_step room _ _ uid1 user1 d1 Hu1 Hr1 eq_refl eq_refl r before _ s1 s2 w
                      Hf HI HN) as HN'.
      destruct (advance user1 room d1 s1 w) as [s1' w']. cbn [fst snd] in *.
      split; [exact HI'|]. intros r Hf1 _ HN. exact (HN' r Hf1 HN).
    - apply Inv_sym in HI.
      pose proof (Inv_step room _ _ user2 d2 Hci Hco before _ s2 s1 w HI) as HI'.
      pose proof (fun r Hf HN =>
                    Normal_step room _ _ uid2 user2 d2 Hu2 Hr2 Hci Hco r before _ s2 s1 w
                      Hf HI HN) as HN'.
      destruct (advance user2 room d2 s2 w) as [s2' w']. cbn [fst snd] in *.
      split; [apply Inv_sym; exact HI'|]. intros r _ Hf2 HN.
      apply Normal_sym, HN'; [exact Hf2 | apply Normal_sym; exact HN].
    - pose proof (ticks_nonneg schedule) as Hnn.
      split; [apply Inv_tick; assumption|]. intros r _ _ HN. apply Normal_tick; assumption. }
  destruct (advanceBy user1 d1 user2 d2 room t (s1, s2, w)) as [[s1' s2'] w'].
  destruct Hstep as (HI' & HN').
  specialize (IH s1' s2' w' HI').
  destruct (fold_left _ schedule (s1', s2', w')) as [[s1'' s2''] w''].
  destruct IH as (HI'' & HN''). split; [exact HI''|].
  intros r Hf1 Hf2 HN. apply HN''; auto.
Qed.

End Schedule.

Lemma remainder_Ret (uid : string) (user room : ObjectId) (d : ICreateBooking) (s : Stage)
    (b : IBooking) :
  newObjectId uid = Ok user -> newObjectId (c_roomId d) = Ok room ->
  remainder uid user room d s = Ret b -> s = Finished (Ok b).
Proof.
  intros Hu Hr H.
  destruct (remainder_finished room uid user d Hu Hr s) as [[x|e] ->].
  - rewrite H. reflexivity.
  - cbn [remainder outcomeOf] in H. congruence.
  - cbn [remainder outcomeOf] in H. discriminate.
Qed.

(** C1, as the code has it.  Two calls of [createBooking] for the same room
    and the same interval run interleaved at their awaits, by any schedule
    that lets less than 58 seconds pass by itself: the 60 seconds of the lock
    less the ten sleeps of 200 ms the two calls can take.  Whatever the
    store, at most one document is added, a call that returns has added it,
    and the two calls do not both return.  In normal operation (Redis
    connected and answering, the key free, the room in the store and fit for
    both requests, no active reservation in the way, check-in not reached
    during the run), once both calls have finished exactly one has returned
    the booking, the one document added, and the other has thrown the
    conflict message or the lock failure. *)
Theorem two_calls_one_booking (uid1 uid2 : string) (user1 user2 room : ObjectId)
    (d1 d2 : ICreateBooking) (w : World) (schedule : list Turn) :
  newObjectId uid1 = Ok user1 ->
  newObjectId uid2 = Ok user2 ->
  newObjectId (c_roomId d1) = Ok room ->
  newObjectId (c_roomId d2) = Ok room ->
  c_checkInDate d2 = c_checkInDate d1 ->
  c_checkOutDate d2 = c_checkOutDate d1 ->
  ticks schedule + 2000 < 60000 ->
  let checkIn := c_checkInDate d1 in
  let checkOut := c_checkOutDate d1 in
  let c := interleave schedule (concurrently uid1 d1 uid2 d2 w) in
  (exists added,
      bookings (shared c) = bookings w ++ added
      /\ (added = [] \/ exists b, added = [b] /\ contested room checkIn checkOut b = true)
      /\ (forall b, first c = Ret b \/ second c = Ret b -> added = [b])
      /\ ~ (exists b1 b2, first c = Ret b1 /\ second c = Ret b2))
  /\ (forall r,
        connectionActive w = true ->
        Forall (fun f => f = false) (faults w) ->
        List.find (fun x => (r_id x =? room)%N) (rooms w) = Some r ->
        fits d1 r -> fits d2 r ->
        live w (bookingLockKey room checkIn checkOut) = None ->
        List.filter (contested room checkIn checkOut) (bookings w) = [] ->
        clock w + ticks schedule + 2000 <= checkIn ->
        finished (first c) = true -> finished (second c) = true ->
        exists b,
          bookings (shared c) = bookings w ++ [b]
          /\ ((first c = Ret b
               /\ (second c = Throw conflictError
                   \/ second c = Throw (lockError room checkIn checkOut)))
              \/ (second c = Ret b
                  /\ (first c = Throw conflictError
                      \/ first c = Throw (lockError room checkIn checkOut))))).
Proof.
  intros Hu1 Hu2 Hr1 Hr2 Hci Hco Hticks checkIn checkOut c.
  pose proof (ticks_nonneg schedule) as Hnn.
  assert (Inv room checkIn checkOut (bookings w) (ticks schedule) Idle Idle w) as HI0.
  { unfold Inv. cbn [wfStage sleepsLeft critical holderOf validated insertedBy olist andb orb].
    rewrite !app_nil_r.
    repeat split; try lia; try discriminate; auto. intros owner [H|H]; discriminate. }
  assert (interleave schedule (concurrently uid1 d1 uid2 d2 w)
          = interleave schedule
              (configOf uid1 user1 d1 uid2 user2 d2 room Idle Idle w)) as Hc by reflexivity.
  rewrite (interleave_configOf uid1 user1 d1 uid2 user2 d2 room Hu1 Hu2 Hr1 Hr2) in Hc.
  pose proof (Inv_schedule uid1 user1 d1 uid2 user2 d2 room Hu1 Hu2 Hr1 Hr2 Hci Hco
                (bookings w) schedule Idle Idle w HI0) as Hend.
  destruct (fold_left _ schedule (Idle, Idle, w)) as [[s1 s2] w'].
  subst c. rewrite Hc. clear Hc. cbn [configOf first second shared].
  destruct Hend as (HI & HN).
  pose proof HI as (Hw1 & Hw2 & _ & _ & _ & _ & _ & Hbk & Hi).
  assert (forall b, remainder uid1 user1 room d1 s1 = Ret b -> s1 = Finished (Ok b)) as Hret1.
  { intros b. apply remainder_Ret; assumption. }
  assert (forall b, remainder uid2 user2 room d2 s2 = Ret b -> s2 = Finished (Ok b)) as Hret2.
  { intros b. apply remainder_Ret; assumption. }
  split.
  - exists (olist (insertedBy s1) ++ olist (insertedBy s2)).
    split; [exact Hbk|]. split.
    { destruct (insertedBy s1) as [b1|] eqn:E1, (insertedBy s2) as [b2|] eqn:E2; cbn [olist app].
      - destruct Hi; discriminate.
      - right. exists b1. split; [reflexivity|]. exact (inserted_contested _ _ _ s1 b1 Hw1 E1).
      - right. exists b2. split; [reflexivity|]. exact (inserted_contested _ _ _ s2 b2 Hw2 E2).
      - left. reflexivity. }
    split.
    { intros b [H|H].
      - apply Hret1 in H. subst s1. cbn [insertedBy] in *.
        destruct Hi as [Hi|Hi]; [discriminate|]. rewrite Hi. reflexivity.
      - apply Hret2 in H. subst s2. cbn [insertedBy] in *.
        destruct Hi as [Hi|Hi]; [|discriminate]. rewrite Hi. reflexivity. }
    intros (b1 & b2 & H1 & H2). apply Hret1 in H1. apply Hret2 in H2. subst s1 s2.
    destruct Hi; discriminate.
  - intros r Hact Hclean Hfind Hf1 Hf2 Hfree Hbefore Htime Hfin1 Hfin2.
    specialize (HN r).
    assert (Normal room checkIn checkOut r (bookings w) 0 s1 s2 w') as HN'.
    { apply HN; try assumption. unfold Normal.
      cbn [sleepsLeft critical okStage orb].
      split; [exact Hact|]. split; [exact Hclean|]. split; [exact Hfind|].
      split; [exact Hbefore|]. split; [lia|]. split; [exact I|]. split; [exact I|].
      split; [intros _; exact Hfree|]. split; intros e [=]. }
    destruct HN' as (_ & _ & _ & _ & _ & _ & _ & _ & Hl1 & Hl2).
    destruct (remainder_finished room uid1 user1 d1 Hu1 Hr1 s1 Hfin1) as [o1 ->].
    destruct (remainder_finished room uid2 user2 d2 Hu2 Hr2 s2 Hfin2) as [o2 ->].
    cbn [remainder outcomeOf insertedBy olist] in *.
    destruct o1 as [b1|e1], o2 as [b2|e2]; cbn [insertedBy olist app] in *.
    + destruct Hi; discriminate.
    + exists b1. split; [exact Hbk|]. left. split; [reflexivity|].
      destruct (Hl2 e2 eq_refl) as ([-> | ->] & _); auto.
    + exists b2. split; [exact Hbk|]. right. split; [reflexivity|].
      destruct (Hl1 e1 eq_refl) as ([-> | ->] & _); auto.
    + exfalso. destruct (Hl1 e1 eq_refl) as (_ & [H|[x H]]); discriminate.
Qed.

Lemma two_calls_one_booking_witness :
  (exists b,
      bookings (shared (interleave raceSchedule (twoCalls world0))) = bookings world0 ++ [b]
      /\ ((first (interleave raceSchedule (twoCalls world0)) = Ret b
           /\ (second (interleave raceSchedule (twoCalls world0)) = Throw conflictError
               \/ second (interleave raceSchedule (twoCalls world0))
                  = Throw (lockError 1%N (mar 1) (mar 4))))
          \/ (second (interleave raceSchedule (twoCalls world0)) = Ret b
              /\ (first (interleave raceSchedule (twoCalls world0)) = Throw conflictError
                  \/ first (interleave raceSchedule (twoCalls world0))
                     = Throw (lockError 1%N (mar 1) (mar 4))))))
  /\ second (interleave raceSchedule (twoCalls world0)) = Throw conflictError
  /\ second (interleave starvedSchedule (twoCalls world0))
     = Throw (lockError 1%N (mar 1) (mar 4)).
Proof.
  split; [|split; vm_compute; reflexivity].
  destruct (two_calls_one_booking (toHexString 7%N) (toHexString 8%N) 7%N 8%N 1%N
              (request (mar 1) (mar 4) 2) (request (mar 1) (mar 4) 2) world0 raceSchedule)
    as (_ & Hone); try (vm_compute; reflexivity).
  apply (Hone roomR1); try (vm_compute; reflexivity).
  - constructor.
  - unfold fits. vm_compute. intuition discriminate.
  - unfold fits. vm_compute. intuition discriminate.
  - vm_compute. discriminate.
Defined.

(** Not every pair of calls ends with one booking.  A call held up for 61
    seconds after its validation loses the lock to the other call: both
    insert and both return, two pending bookings for one room and one
    interval.  And with Redis disconnected neither call books: both throw
    before the lock is tried. *)
Lemma stalled_call_books_twice :
  (exists b1 b2,
      first (interleave stalledSchedule (twoCalls world0)) = Ret b1
      /\ second (interleave stalledSchedule (twoCalls world0)) = Ret b2
      /\ bookings (shared (interleave stalledSchedule (twoCalls world0))) = [b2; b1]
      /\ roomId b1 = roomId b2 /\ status b1 = PENDING /\ status b2 = PENDING
      /\ checkInDate b1 = checkInDate b2 /\ checkOutDate b1 = checkOutDate b2
      /\ ticks stalledSchedule = 61000)
  /\ (first (interleave [First; Second] (twoCalls worldDown))
      = Throw (JsError "Redis connection not active for locking")
      /\ second (interleave [First; Second] (twoCalls worldDown))
         = Throw (JsError "Redis connection not active for locking")
      /\ bookings (shared (interleave [First; Second] (twoCalls worldDown))) = []).
Proof.
  split.
  - eexists _, _. split; [vm_compute; reflexivity|]. split; [vm_compute; reflexivity|].
    split; [vm_compute; reflexivity|]. repeat split.
  - split; [|split]; vm_compute; reflexivity.
Qed.
